(** * Tile Inventory App: storage layer (js/storage.js) and unit helpers
      (js/utils.js), embedded in Rocq.

    The JavaScript sources are translated function by function.  Values are
    the trees that the program handles (everything it stores goes through
    [JSON.parse (JSON.stringify _)]); numbers are IEEE-754 binary64, taken
    from the kernel's primitive floats, so that arithmetic, comparisons and
    the NaN sentinel behave as they do in the engine.  Exceptions are an
    explicit result type and the module-level variables of storage.js (the
    cache, the watcher list, localStorage) are threaded as a state. *)

From Stdlib Require Import ZArith Floats String Ascii List Bool Lia.
Import ListNotations.
Local Open Scope string_scope.
Local Open Scope list_scope.

(* ================================================================== *)
(** ** JavaScript values *)
(* ================================================================== *)

(** An array carries its elements and, as any JavaScript object, may carry
    named properties besides ([a.resolved = true] on an array is legal);
    [JSON.stringify] does not see them.  Property lists keep insertion
    order, as the engine does for names that are not array indices;
    reading takes the first binding of a name.  The property names
    the modelled code reads and writes are fixed identifiers, none of which
    is defined on a built-in prototype, and no property is named
    [__proto__]. *)
Inductive JVal : Type :=
| JUndef
| JNull
| JBool (b : bool)
| JNum (x : float)
| JStr (s : string)
| JArr (elems : list JVal) (props : list (string * JVal))
| JObj (props : list (string * JVal)).

Definition Props := list (string * JVal).

Inductive Exn : Type :=
| TypeError
| SyntaxError
| JsError (msg : string).

Inductive Result (A : Type) : Type :=
| Ok (a : A)
| Throw (e : Exn).
Arguments Ok {A} a.
Arguments Throw {A} e.

Definition rbind {A B} (r : Result A) (f : A -> Result B) : Result B :=
  match r with
  | Ok a => f a
  | Throw e => Throw e
  end.

Fixpoint lookup (k : string) (ps : Props) : option JVal :=
  match ps with
  | [] => None
  | (k', v) :: r => if String.eqb k k' then Some v else lookup k r
  end.

Definition has_own (k : string) (ps : Props) : bool :=
  match lookup k ps with Some _ => true | None => false end.

(** [o[k] = v] on an own property list: overwrite in place, else append. *)
Fixpoint update (k : string) (v : JVal) (ps : Props) : Props :=
  match ps with
  | [] => [(k, v)]
  | (k', v') :: r =>
      if String.eqb k k' then (k, v) :: r else (k', v') :: update k v r
  end.

Definition or_undef (o : option JVal) : JVal :=
  match o with Some v => v | None => JUndef end.

(** [v.k] (ECMA-262 GetValue): a TypeError on [undefined] and [null],
    [undefined] for a name the value does not own. *)
Definition get_prop (v : JVal) (k : string) : Result JVal :=
  match v with
  | JUndef | JNull => Throw TypeError
  | JObj ps => Ok (or_undef (lookup k ps))
  | JArr _ ps => Ok (or_undef (lookup k ps))
  | JBool _ | JNum _ | JStr _ => Ok JUndef
  end.

(** [v.k = x] (PutValue); the result is the value that the variable holding
    [v] denotes afterwards.  storage.js is a classic script without a
    strict-mode directive: a write to a property of a primitive is dropped
    silently. *)
Definition set_prop (v : JVal) (k : string) (x : JVal) : Result JVal :=
  match v with
  | JUndef | JNull => Throw TypeError
  | JObj ps => Ok (JObj (update k x ps))
  | JArr es ps => Ok (JArr es (update k x ps))
  | JBool _ | JNum _ | JStr _ => Ok v
  end.

(** ToBoolean. *)
Definition truthy (v : JVal) : bool :=
  match v with
  | JUndef | JNull => false
  | JBool b => b
  | JNum x => negb (is_nan x || is_zero x)
  | JStr s => negb (String.eqb s "")
  | JArr _ _ | JObj _ => true
  end.

(** [a || b] on values. *)
Definition js_or (a b : JVal) : JVal := if truthy a then a else b.

(** [a === b].  Numbers compare as IEEE-754 does (NaN differs from itself,
    the two zeros are equal).  Objects and arrays compare by identity: at
    every use in storage.js the two operands come out of two different
    [JSON.parse] results (or one of them from the caller), so two of them
    are never the same object. *)
Definition strict_equals (a b : JVal) : bool :=
  match a, b with
  | JUndef, JUndef => true
  | JNull, JNull => true
  | JBool x, JBool y => Bool.eqb x y
  | JNum x, JNum y => PrimFloat.eqb x y
  | JStr x, JStr y => String.eqb x y
  | _, _ => false
  end.

Definition is_array (v : JVal) : bool :=
  match v with JArr _ _ => true | _ => false end.

(** [Object.assign(target, source)] for an object [source]: its own
    properties, in order, are written onto [target]. *)
Definition Object_assign (target source : Props) : Props :=
  fold_left (fun t kv => update (fst kv) (snd kv) t) source target.

(* ------------------------------------------------------------------ *)
(** *** Strings *)

Definition code (c : ascii) : Z := Z.of_N (N_of_ascii c).

Definition lower_ascii (c : ascii) : ascii :=
  if ((65 <=? code c) && (code c <=? 90))%Z
  then ascii_of_N (N_of_ascii c + 32) else c.

(** [s.toLowerCase()].  Strings are held as UTF-8 and only the ASCII
    letters are mapped: on a string of ASCII characters ([ascii_only]) this
    is [String.prototype.toLowerCase]; on another string it leaves the
    letters outside ASCII in their case, where the method lower-cases them
    too.  That makes no difference where the result is only compared with
    ASCII unit names (the if-chains of storage.js and of
    [normalizeUnitName]: no character outside ASCII lower-cases to a string
    of the letters these names use); where the lower-cased string itself is
    handed on (the last branch of [normalizeUnitName]), the statements about
    it take names of ASCII characters. *)
Fixpoint toLowerCase (s : string) : string :=
  match s with
  | EmptyString => EmptyString
  | String c r => String (lower_ascii c) (toLowerCase r)
  end.


(** The WhiteSpace and LineTerminator code points that [trim] and the
    string-to-number conversion strip, as UTF-8: the length of the white
    space sequence a string starts with (0 when it starts with none). *)
Definition ws_prefix (s : string) : nat :=
  match s with
  | String a r =>
      let ca := code a in
      if ((9 <=? ca) && (ca <=? 13) || (ca =? 32))%Z then 1%nat
      else match r with
      | String b r' =>
          let cb := code b in
          if ((ca =? 194) && (cb =? 160))%Z then 2%nat            (* U+00A0 *)
          else match r' with
          | String c _ =>
              let cc := code c in
              if ((ca =? 225) && (cb =? 154) && (cc =? 128)          (* U+1680 *)
                  || (ca =? 226) && (cb =? 128) &&
                     ((128 <=? cc) && (cc <=? 138)                   (* U+2000-200A *)
                      || (cc =? 168) || (cc =? 169) || (cc =? 175))  (* U+2028/9, 202F *)
                  || (ca =? 226) && (cb =? 129) && (cc =? 159)       (* U+205F *)
                  || (ca =? 227) && (cb =? 128) && (cc =? 128)       (* U+3000 *)
                  || (ca =? 239) && (cb =? 187) && (cc =? 191))%Z    (* U+FEFF *)
              then 3%nat else 0%nat
          | _ => 0%nat
          end
      | _ => 0%nat
      end
  | _ => 0%nat
  end.

Fixpoint drop (n : nat) (s : string) : string :=
  match n, s with
  | S n', String _ r => drop n' r
  | _, _ => s
  end.

Fixpoint trimStart_fuel (fuel : nat) (s : string) : string :=
  match fuel with
  | O => s
  | S f =>
      match ws_prefix s with
      | O => s
      | n => trimStart_fuel f (drop n s)
      end
  end.

Definition trimStart (s : string) : string := trimStart_fuel (String.length s) s.

Definition all_ws (s : string) : bool := String.eqb (trimStart s) "".

Fixpoint trimEnd (s : string) : string :=
  match s with
  | EmptyString => EmptyString
  | String c r => if all_ws s then EmptyString else String c (trimEnd r)
  end.

Definition trim (s : string) : string := trimEnd (trimStart s).

(* ------------------------------------------------------------------ *)
(** *** Numbers *)

Local Open Scope float_scope.

(** [Math.round]: the integer nearest to [x], a tie going towards
    +infinity, computed exactly; NaN, the infinities and integral values
    are returned unchanged, and a result of zero keeps the sign of [x]. *)
Definition Math_round (x : float) : float :=
  match Prim2SF x with
  | S754_finite s m e =>
      if (0 <=? e)%Z then x
      else
        let sm := if s then Z.neg m else Z.pos m in
        (* floor (sm * 2^e + 1/2) *)
        let n := Z.shiftr (2 * sm + Z.shiftl 1 (- e)) (- e + 1) in
        if (n =? 0)%Z then (if s then neg_zero else PrimFloat.zero)
        else if (n <? 0)%Z then - of_uint63 (Uint63.of_Z (- n))
        else of_uint63 (Uint63.of_Z n)
  | _ => x
  end.

Definition Number_isFinite (x : float) : bool := is_finite x.

(** The value [m * 10^e10] (with [m >= 0]) rounded to the nearest binary64,
    ties to even.  The two early exits only avoid building huge powers:
    beyond them the result is an infinity, respectively a zero, anyway. *)
Definition decimal_to_float (neg : bool) (m e10 : Z) : float :=
  if (m =? 0)%Z then (if neg then neg_zero else PrimFloat.zero)
  else if (400 <? e10)%Z then (if neg then neg_infinity else infinity)
  else if (0 <=? e10)%Z then
    SF2Prim (binary_normalize prec emax
               (if neg then - (m * 10 ^ e10) else m * 10 ^ e10)%Z 0%Z false)
  else if (Z.log2 m + 1 + 3 * e10 <? -1080)%Z then (if neg then neg_zero else PrimFloat.zero)
  else
    SF2Prim (SFdiv prec emax
               (S754_finite neg (Z.to_pos m) 0)
               (S754_finite false (Z.to_pos (10 ^ (- e10))) 0)).

Definition digit_val (radix : Z) (c : ascii) : option Z :=
  let n := code c in
  let d := if ((48 <=? n) && (n <=? 57))%Z then (n - 48)%Z
           else if ((97 <=? n) && (n <=? 102))%Z then (n - 87)%Z
           else if ((65 <=? n) && (n <=? 70))%Z then (n - 55)%Z
           else 99%Z in
  if (d <? radix)%Z then Some d else None.

(** Reads the longest run of digits: the number read onto [acc], how many
    digits there were, and what follows them. *)
Fixpoint digits (radix : Z) (s : string) (acc n : Z) : Z * Z * string :=
  match s with
  | String c r =>
      match digit_val radix c with
      | Some d => digits radix r (acc * radix + d)%Z (n + 1)%Z
      | None => (acc, n, s)
      end
  | EmptyString => (acc, n, s)
  end.

(** StrUnsignedDecimalLiteral without [Infinity]: mantissa and decimal
    exponent. *)
Definition unsigned_decimal (s : string) : option (Z * Z) :=
  let '(ip, ni, r1) := digits 10 s 0 0 in
  let '(m, nf, r2) :=
    match r1 with
    | String "."%char r => digits 10 r ip 0
    | _ => (ip, 0%Z, r1)
    end in
  if (ni + nf =? 0)%Z then None
  else match r2 with
  | EmptyString => Some (m, (- nf)%Z)
  | String c r3 =>
      if (Ascii.eqb c "e" || Ascii.eqb c "E")%char then
        let '(eneg, r4) :=
          match r3 with
          | String "+"%char r => (false, r)
          | String "-"%char r => (true, r)
          | _ => (false, r3)
          end in
        let '(ev, ne, r5) := digits 10 r4 0 0 in
        if (ne =? 0)%Z || negb (String.eqb r5 "") then None
        else Some (m, ((if eneg then - ev else ev) - nf)%Z)
      else None
  end.

Definition signed_decimal (neg : bool) (s : string) : float :=
  if String.eqb s "Infinity" then (if neg then neg_infinity else infinity)
  else match unsigned_decimal s with
  | Some (m, e) => decimal_to_float neg m e
  | None => nan
  end.

Definition radix_literal (radix : Z) (s : string) : float :=
  let '(v, n, r) := digits radix s 0 0 in
  if (n =? 0)%Z || negb (String.eqb r "") then nan
  else decimal_to_float false v 0.

(** StringToNumber (ECMA-262 7.1.4.1.1). *)
Definition StringToNumber (s : string) : float :=
  match trim s with
  | EmptyString => PrimFloat.zero
  | String "0"%char (String x r) =>
      if (Ascii.eqb x "x" || Ascii.eqb x "X")%char then radix_literal 16 r
      else if (Ascii.eqb x "o" || Ascii.eqb x "O")%char then radix_literal 8 r
      else if (Ascii.eqb x "b" || Ascii.eqb x "B")%char then radix_literal 2 r
      else signed_decimal false (trim s)
  | String "+"%char r => signed_decimal false r
  | String "-"%char r => signed_decimal true r
  | t => signed_decimal false t
  end.

(** Whether [ToString(v)] (and with it [ToPrimitive]) throws: no value of
    the model is callable, so an own [toString] property hides the
    inherited method and the conversion has nothing left to call; an array
    converts its elements in turn ([join]), unless an own [join] property
    hides that. *)
Fixpoint ToString_throws (v : JVal) : bool :=
  match v with
  | JObj ps => has_own "toString" ps
  | JArr es ps =>
      has_own "toString" ps
      || (negb (has_own "join" ps) && existsb ToString_throws es)
  | _ => false
  end.

(** The number that the string [String(v)] converts to, for [v] that
    converts to a string without throwing. *)
Fixpoint number_of_string_of (v : JVal) : float :=
  match v with
  | JUndef => nan                      (* "undefined" *)
  | JNull => nan                       (* "null" *)
  | JBool _ => nan                     (* "true", "false" *)
  | JNum x => if is_zero x then PrimFloat.zero else x      (* String(-0) is "0" *)
  | JStr s => StringToNumber s
  | JObj _ => nan                      (* "[object Object]" *)
  | JArr es ps =>
      if has_own "join" ps then nan    (* "[object Array]" *)
      else match es with
      | [] => PrimFloat.zero                                   (* "" *)
      | [JUndef] | [JNull] => PrimFloat.zero                   (* join prints them as "" *)
      | [e] => number_of_string_of e
      | _ => nan                                     (* a comma in the string *)
      end
  end.

(** [Number(v)] (ToNumber). *)
Definition ToNumber (v : JVal) : Result float :=
  match v with
  | JUndef => Ok nan
  | JNull => Ok PrimFloat.zero
  | JBool b => Ok (if b then PrimFloat.one else PrimFloat.zero)
  | JNum x => Ok x
  | JStr s => Ok (StringToNumber s)
  | JArr _ _ | JObj _ =>
      if ToString_throws v then Throw TypeError else Ok (number_of_string_of v)
  end.

(** [Number(v) || 0]. *)
Definition num_or_zero (x : float) : float :=
  if is_nan x || is_zero x then PrimFloat.zero else x.

(* ------------------------------------------------------------------ *)
(** *** JSON *)

(** What [JSON.stringify] writes for a number: [null] for NaN and the
    infinities, and the zero without its sign. *)
Definition json_num (x : float) : JVal :=
  if is_nan x || is_infinity x then JNull
  else if is_zero x then JNum PrimFloat.zero
  else JNum x.

(** [JSON.parse (JSON.stringify v)]: [None] when [JSON.stringify] gives
    [undefined].  A property whose value is [undefined] is left out, an
    array element that is [undefined] is written [null], the named
    properties of an array are not written. *)
Fixpoint json_norm (v : JVal) : option JVal :=
  match v with
  | JUndef => None
  | JNull => Some JNull
  | JBool b => Some (JBool b)
  | JNum x => Some (json_num x)
  | JStr s => Some (JStr s)
  | JArr es _ =>
      Some (JArr (map (fun e => match json_norm e with
                                | Some e' => e'
                                | None => JNull
                                end) es) [])
  | JObj ps =>
      Some (JObj ((fix go (l : Props) : Props :=
                     match l with
                     | [] => []
                     | (k, x) :: r =>
                         match json_norm x with
                         | Some x' => (k, x') :: go r
                         | None => go r
                         end
                     end) ps))
  end.

Definition norm_elem (e : JVal) : JVal :=
  match json_norm e with Some e' => e' | None => JNull end.

Fixpoint norm_props (l : Props) : Props :=
  match l with
  | [] => []
  | (k, x) :: r =>
      match json_norm x with
      | Some x' => (k, x') :: norm_props r
      | None => norm_props r
      end
  end.

(** A serialized text is represented by what [JSON.parse] makes of it. *)
Inductive Text : Type :=
| TEmpty                 (* the empty string *)
| TInvalid               (* a non-empty string that is not JSON *)
| TJson (v : JVal).      (* a JSON text, with the value it parses to *)

(** [JSON.stringify(v)], as the string that reaches [localStorage.setItem]
    ([undefined] is stored as the text "undefined", which is not JSON). *)
Definition JSON_stringify (v : JVal) : Text :=
  match json_norm v with
  | Some v' => TJson v'
  | None => TInvalid
  end.

Definition JSON_parse (t : Text) : Result JVal :=
  match t with
  | TJson v => Ok v
  | TEmpty | TInvalid => Throw SyntaxError
  end.

(** [deepClone(obj)]: [JSON.parse(JSON.stringify(obj))]. *)
Definition deepClone (obj : JVal) : Result JVal :=
  JSON_parse (JSON_stringify obj).

(* ================================================================== *)
(** ** js/utils.js *)
(* ================================================================== *)

Module Utils.

(** [toNumber(v, fallback = 0)]. *)
Definition toNumber (v : JVal) (fallback : float) : Result float :=
  rbind (ToNumber v) (fun n =>
  Ok (if Number_isFinite n then n else fallback)).

(** A unit name as callers pass it: a string, or nothing ([undefined] or
    [null]).  Other values would first be printed by [String(unit)], which
    is left out of the model. *)
Definition UnitName := option string.

(** [normalizeUnitName(unit)].  For a name of ASCII characters this is
    the function of utils.js; for another name the last branch gives the
    name with its letters outside ASCII in the case they had (see
    [toLowerCase]). *)
Definition normalizeUnitName (unit : UnitName) : string :=
  match unit with
  | None => "piece"
  | Some s =>
      if negb (truthy (JStr s)) then "piece"
      else
        let u := toLowerCase (trim s) in
        if String.eqb u "box" || String.eqb u "boxes" then "box"
        else if String.eqb u "piece" || String.eqb u "pieces"
                || String.eqb u "pc" || String.eqb u "pcs" then "piece"
        else if String.eqb u "sft" || String.eqb u "s.f.t" || String.eqb u "sqft"
                || String.eqb u "squarefeet" || String.eqb u "square feet" then "sft"
        else u
  end.

(** [Number.EPSILON], 2^-52. *)
Definition Number_EPSILON : float := 0x1p-52.

(** [roundTo(v, decimals = 3)] at its default [decimals], the only way
    convertUnits calls it: [Math.pow(10, 3)] is 1000. *)
Definition roundTo (v : JVal) : Result float :=
  let p := 1000 in
  rbind (toNumber v 0) (fun n =>
  Ok (Math_round ((n + Number_EPSILON) * p) / p)).

(** [convertUnits(quantity, fromUnit, toUnit, piecesPerBox = 0, sftPerBox = 0)].
    The result is a number; [nan] is the "conversion not possible" value. *)
Definition convertUnits (quantity : JVal) (fromUnit toUnit : UnitName)
    (piecesPerBox sftPerBox : JVal) : Result float :=
  let piecesPerBox := match piecesPerBox with JUndef => JNum 0 | v => v end in
  let sftPerBox := match sftPerBox with JUndef => JNum 0 | v => v end in
  rbind (toNumber quantity 0) (fun q =>
  let from := normalizeUnitName fromUnit in
  let to := normalizeUnitName toUnit in
  if String.eqb from to then roundTo (JNum q)
  else
    (* fromUnit -> boxes; [None] stands for the early [return NaN] *)
    rbind
      (if String.eqb from "box" then Ok (Some q)
       else if String.eqb from "piece" then
         rbind (toNumber piecesPerBox 0) (fun ppb =>
         if ppb <=? 0 then Ok None else Ok (Some (q / ppb)))
       else if String.eqb from "sft" then
         rbind (toNumber sftPerBox 0) (fun spb =>
         if spb <=? 0 then Ok None else Ok (Some (q / spb)))
       else
         rbind (toNumber piecesPerBox 0) (fun ppb =>
         if ppb <=? 0 then Ok None else Ok (Some (q / ppb))))
      (fun boxes =>
       match boxes with
       | None => Ok nan
       | Some boxes =>
           if String.eqb to "box" then roundTo (JNum boxes)
           else if String.eqb to "piece" then
             rbind (toNumber piecesPerBox 0) (fun ppb =>
             if ppb <=? 0 then Ok nan else roundTo (JNum (boxes * ppb)))
           else if String.eqb to "sft" then
             rbind (toNumber sftPerBox 0) (fun spb =>
             if spb <=? 0 then Ok nan else roundTo (JNum (boxes * spb)))
           else Ok nan
       end)).

End Utils.

(* ================================================================== *)
(** ** js/storage.js *)
(* ================================================================== *)

Module Storage.

Definition DB_VERSION : float := 1.

(** A change listener registered with [onChange]: a callback of the page,
    known by its identity and by whether a call with a given argument
    throws.  Callbacks do not call back into the storage layer. *)
Record Watcher : Type := mkWatcher {
  w_id : nat;
  w_throws : JVal -> option Exn
}.

Inductive Adapter : Type :=
| LocalStorageAdapter
| DummyRemoteAdapter.

Inductive LogLevel : Type := Lwarn | Lerror.

(** What a run of the script can touch: the [localStorage] entry under
    [DB_KEY], the three module variables, and the environment.  The clock
    and the random source are the sequences of answers they will give
    ([new Date().toISOString()], respectively the [t] and [r] parts that
    [generateId] glues together) with the number of answers taken so far;
    the console, the calls made to watchers and the downloads triggered are
    kept as traces, the latest entry first. *)
Record World : Type := mkWorld {
  localStorage : option Text;
  adapter : Adapter;
  _dbCache : JVal;
  _watchers : list Watcher;
  clock : nat -> string;
  clock_reads : nat;
  random : nat -> string;
  random_reads : nat;
  console : list (LogLevel * string);
  notified : list (nat * JVal);
  downloads : list (string * Text)
}.

(** A JavaScript computation: it runs in a world and ends with a value or
    an exception, leaving a world behind in both cases. *)
Definition M (A : Type) : Type := World -> Result A * World.

Definition ret {A} (a : A) : M A := fun w => (Ok a, w).
Definition throw {A} (e : Exn) : M A := fun w => (Throw e, w).
Definition bind {A B} (m : M A) (f : A -> M B) : M B :=
  fun w => match m w with
           | (Ok a, w') => f a w'
           | (Throw e, w') => (Throw e, w')
           end.
Definition lift {A} (r : Result A) : M A := fun w => (r, w).
Definition try_catch {A} (m : M A) (handler : Exn -> M A) : M A :=
  fun w => match m w with
           | (Ok a, w') => (Ok a, w')
           | (Throw e, w') => handler e w'
           end.

Notation "x <- m ;; k" := (bind m (fun x => k))
  (at level 61, m at next level, right associativity).
Notation "m ;; k" := (bind m (fun _ => k))
  (at level 61, right associativity).

Definition get_world : M World := fun w => (Ok w, w).
Definition put_world (w : World) : M unit := fun _ => (Ok tt, w).

Definition set_localStorage (w : World) (x : option Text) : World :=
  mkWorld x (adapter w) (_dbCache w) (_watchers w) (clock w) (clock_reads w)
          (random w) (random_reads w) (console w) (notified w) (downloads w).
Definition set_adapter (w : World) (x : Adapter) : World :=
  mkWorld (localStorage w) x (_dbCache w) (_watchers w) (clock w) (clock_reads w)
          (random w) (random_reads w) (console w) (notified w) (downloads w).
Definition set_dbCache (w : World) (x : JVal) : World :=
  mkWorld (localStorage w) (adapter w) x (_watchers w) (clock w) (clock_reads w)
          (random w) (random_reads w) (console w) (notified w) (downloads w).
Definition set_watchers (w : World) (x : list Watcher) : World :=
  mkWorld (localStorage w) (adapter w) (_dbCache w) x (clock w) (clock_reads w)
          (random w) (random_reads w) (console w) (notified w) (downloads w).
Definition set_clock_reads (w : World) (x : nat) : World :=
  mkWorld (localStorage w) (adapter w) (_dbCache w) (_watchers w) (clock w) x
          (random w) (random_reads w) (console w) (notified w) (downloads w).
Definition set_random_reads (w : World) (x : nat) : World :=
  mkWorld (localStorage w) (adapter w) (_dbCache w) (_watchers w) (clock w) (clock_reads w)
          (random w) x (console w) (notified w) (downloads w).
Definition set_console (w : World) (x : list (LogLevel * string)) : World :=
  mkWorld (localStorage w) (adapter w) (_dbCache w) (_watchers w) (clock w) (clock_reads w)
          (random w) (random_reads w) x (notified w) (downloads w).
Definition set_notified (w : World) (x : list (nat * JVal)) : World :=
  mkWorld (localStorage w) (adapter w) (_dbCache w) (_watchers w) (clock w) (clock_reads w)
          (random w) (random_reads w) (console w) x (downloads w).
Definition set_downloads (w : World) (x : list (string * Text)) : World :=
  mkWorld (localStorage w) (adapter w) (_dbCache w) (_watchers w) (clock w) (clock_reads w)
          (random w) (random_reads w) (console w) (notified w) x.

(** [new Date().toISOString()]. *)
Definition Date_toISOString : M string :=
  fun w => (Ok (clock w (clock_reads w)), set_clock_reads w (S (clock_reads w))).

(** [console.warn(msg, ...)] and [console.error(msg, ...)]: the message is
    kept, the values printed after it are not. *)
Definition console_log (l : LogLevel) (msg : string) : M unit :=
  fun w => (Ok tt, set_console w ((l, msg) :: console w)).

Definition localStorage_getItem : M (option Text) :=
  fun w => (Ok (localStorage w), w).
Definition localStorage_setItem (t : Text) : M unit :=
  fun w => (Ok tt, set_localStorage w (Some t)).
Definition localStorage_removeItem : M unit :=
  fun w => (Ok tt, set_localStorage w None).

Fixpoint foldM {A B} (f : A -> B -> M A) (l : list B) (a : A) : M A :=
  match l with
  | [] => ret a
  | b :: r => a' <- f a b ;; foldM f r a'
  end.

Fixpoint forEach {B} (f : B -> M unit) (l : list B) : M unit :=
  match l with
  | [] => ret tt
  | b :: r => f b ;; forEach f r
  end.

(** [emptyDB()]. *)
Definition emptyDB : M JVal :=
  createdAt <- Date_toISOString ;;
  updatedAt <- Date_toISOString ;;
  ret (JObj [("meta", JObj [("version", JNum DB_VERSION);
                            ("createdAt", JStr createdAt);
                            ("updatedAt", JStr updatedAt)]);
             ("products", JArr [] []);
             ("sales", JArr [] []);
             ("purchases", JArr [] []);
             ("alerts", JArr [] []);
             ("users", JArr [] [])]).

(** [generateId(prefix)]: the prefix, an underscore, and the time and
    random digits. *)
Definition generateId (prefix : string) : M string :=
  fun w => (Ok (prefix ++ "_" ++ random w (random_reads w))%string,
            set_random_reads w (S (random_reads w))).

Definition nowISO : M string := Date_toISOString.

(** [if (src.k) target.k = src.k]. *)
Definition copy_if_truthy (src : JVal) (k : string) (target : JVal) : Result JVal :=
  rbind (get_prop src k) (fun x =>
  if truthy x then set_prop target k x else Ok target).

(** [target.meta.updatedAt = nowISO()] and the like: the object
    [target.o] is read, the right-hand side is evaluated, then the write
    happens on that object, which [target] still refers to. *)
Definition set_nested (target : JVal) (o k : string) (rhs : M JVal) : M JVal :=
  inner <- lift (get_prop target o) ;;
  x <- rhs ;;
  inner' <- lift (set_prop inner k x) ;;
  lift (set_prop target o inner').

Definition reset_to_emptyDB : M JVal :=
  db <- emptyDB ;;
  localStorage_setItem (JSON_stringify db) ;;
  lift (deepClone db).

(** [LocalStorageAdapter.load()]. *)
Definition LocalStorageAdapter_load : M JVal :=
  raw <- localStorage_getItem ;;
  match raw with
  | None | Some TEmpty => reset_to_emptyDB
  | Some raw =>
      try_catch
        (parsed <- lift (JSON_parse raw) ;;
         meta <- lift (get_prop parsed "meta") ;;
         stale <- (if negb (truthy meta) then ret true
                   else version <- lift (get_prop meta "version") ;;
                        ret (negb (strict_equals version (JNum DB_VERSION)))) ;;
         if (stale : bool) then
           migrated <- emptyDB ;;
           migrated <- lift (copy_if_truthy parsed "products" migrated) ;;
           migrated <- lift (copy_if_truthy parsed "sales" migrated) ;;
           migrated <- lift (copy_if_truthy parsed "purchases" migrated) ;;
           migrated <- set_nested migrated "meta" "updatedAt"
                         (t <- nowISO ;; ret (JStr t)) ;;
           localStorage_setItem (JSON_stringify migrated) ;;
           lift (deepClone migrated)
         else lift (deepClone parsed))
        (fun e =>
           console_log Lerror "Failed to parse DB from localStorage, resetting DB:" ;;
           reset_to_emptyDB)
  end.

(** [LocalStorageAdapter.save(dbObj)]. *)
Definition LocalStorageAdapter_save (dbObj : JVal) : M bool :=
  toSave <- lift (deepClone dbObj) ;;
  meta <- lift (get_prop toSave "meta") ;;
  toSave <- lift (set_prop toSave "meta" (js_or meta (JObj []))) ;;
  toSave <- set_nested toSave "meta" "updatedAt" (t <- nowISO ;; ret (JStr t)) ;;
  localStorage_setItem (JSON_stringify toSave) ;;
  ret true.

(** [LocalStorageAdapter.clear()]. *)
Definition LocalStorageAdapter_clear : M bool :=
  localStorage_removeItem ;; ret true.

Definition adapter_load : M JVal :=
  w <- get_world ;;
  match adapter w with
  | LocalStorageAdapter => LocalStorageAdapter_load
  | DummyRemoteAdapter =>
      throw (JsError "Remote adapter not implemented. Use LocalStorage adapter or implement remote sync.")
  end.

Definition adapter_save (dbObj : JVal) : M bool :=
  w <- get_world ;;
  match adapter w with
  | LocalStorageAdapter => LocalStorageAdapter_save dbObj
  | DummyRemoteAdapter => throw (JsError "Remote adapter not implemented.")
  end.

Definition adapter_clear : M bool :=
  w <- get_world ;;
  match adapter w with
  | LocalStorageAdapter => LocalStorageAdapter_clear
  | DummyRemoteAdapter => throw (JsError "Remote adapter not implemented.")
  end.

Definition read_cache : M JVal := fun w => (Ok (_dbCache w), w).
Definition write_cache (v : JVal) : M unit := fun w => (Ok tt, set_dbCache w v).

(** [loadDB(force = false)]. *)
Definition loadDB (force : bool) : M JVal :=
  cache <- read_cache ;;
  if truthy cache && negb force then lift (deepClone cache)
  else
    loaded <- adapter_load ;;
    write_cache loaded ;;
    lift (deepClone loaded).

(** One round of the [_watchers.forEach] of saveDB:
    [try { fn(deepClone(_dbCache)) } catch (e) { console.error(..) }]. *)
Definition notify (fn : Watcher) : M unit :=
  try_catch
    (cache <- read_cache ;;
     arg <- lift (deepClone cache) ;;
     (fun w => (Ok tt, set_notified w ((w_id fn, arg) :: notified w))) ;;
     match w_throws fn arg with
     | Some e => throw e
     | None => ret tt
     end)
    (fun e => console_log Lerror "watcher error").

(** [saveDB(dbObj)]. *)
Definition saveDB (dbObj : JVal) : M bool :=
  adapter_save dbObj ;;
  copy <- lift (deepClone dbObj) ;;
  write_cache copy ;;
  w <- get_world ;;
  forEach notify (_watchers w) ;;
  ret true.

(** A text between double quotes, as the message of [setAdapter] has
    one. *)
Definition quoted (s : string) : string :=
  String "034"%char (s ++ String "034"%char EmptyString).

(** [setAdapter(newAdapterNameOrObj)], for the arguments the model can
    name: nothing or ['local'], one of the two adapter objects of this
    file, any other string. *)
Inductive AdapterArg : Type :=
| ArgNone
| ArgName (s : string)
| ArgObject (a : Adapter).

Definition setAdapter (arg : AdapterArg) : M unit :=
  match arg with
  | ArgNone => fun w => (Ok tt, set_adapter w LocalStorageAdapter)
  | ArgName s =>
      if negb (truthy (JStr s)) || String.eqb s "local"
      then fun w => (Ok tt, set_adapter w LocalStorageAdapter)
      else throw (JsError ("Unknown adapter. Provide " ++ quoted "local"
                           ++ " or an adapter object with load/save/clear methods."))
  | ArgObject a => fun w => (Ok tt, set_adapter w a)
  end.

(** [onChange(callback)] for a callback that is a function; the function
    it returns is [unsubscribe] below. *)
Definition onChange (callback : Watcher) : M unit :=
  fun w => (Ok tt, set_watchers w (_watchers w ++ [callback])).

Definition unsubscribe (callback : Watcher) : M unit :=
  fun w => (Ok tt, set_watchers w
              (filter (fun fn => negb (Nat.eqb (w_id fn) (w_id callback))) (_watchers w))).

(** [_getCollection(name)]. *)
Definition _getCollection (name : string) : M JVal :=
  db <- loadDB false ;;
  c <- lift (get_prop db name) ;;
  if negb (truthy c) then
    db <- lift (set_prop db name (JArr [] [])) ;;
    lift (get_prop db name)
  else ret c.

(** [_saveCollection(name, collection)]. *)
Definition _saveCollection (name : string) (collection : JVal) : M bool :=
  db <- loadDB false ;;
  db <- lift (set_prop db name collection) ;;
  saveDB db.

(** [list.push(x)]: only an array has the method. *)
Definition push (list x : JVal) : Result JVal :=
  match list with
  | JArr es ps => Ok (JArr (es ++ [x]) ps)
  | _ => Throw TypeError
  end.

(** [list.find(pred)], with the index of the element found. *)
Fixpoint find_from (pred : JVal -> Result bool) (l : list JVal) (i : nat)
  : Result (option (nat * JVal)) :=
  match l with
  | [] => Ok None
  | x :: r =>
      rbind (pred x) (fun b =>
      if (b : bool) then Ok (Some (i, x)) else find_from pred r (S i))
  end.

Definition find (list : JVal) (pred : JVal -> Result bool)
  : Result (option (nat * JVal)) :=
  match list with
  | JArr es _ => find_from pred es 0
  | _ => Throw TypeError
  end.

Fixpoint replace_nth (i : nat) (x : JVal) (l : list JVal) : list JVal :=
  match l, i with
  | [], _ => []
  | _ :: r, O => x :: r
  | y :: r, S i' => y :: replace_nth i' x r
  end.

(** The array after the element at index [i], an object that the code
    holds by reference, has become [x]. *)
Definition store_at (list : JVal) (i : nat) (x : JVal) : JVal :=
  match list with
  | JArr es ps => JArr (replace_nth i x es) ps
  | _ => list
  end.

(** The [Object.assign({ id: ..., ... }, productData)] of addProduct. *)
Definition new_product (id dateAdded : string) (productData : Props) : Props :=
  Object_assign
    [("id", JStr id); ("name", JStr ""); ("category", JStr ""); ("brand", JStr "");
     ("sku", JStr ""); ("size", JStr ""); ("unitType", JStr "Box");
     ("piecesPerBox", JNum 0); ("sftPerBox", JNum 0); ("costPrice", JNum 0);
     ("sellingPricePerUnit", JNum 0);
     ("currentStock", JObj [("boxes", JNum 0); ("pieces", JNum 0); ("sft", JNum 0)]);
     ("minStock", JNum 0); ("supplierName", JStr ""); ("supplierContact", JStr "");
     ("location", JStr ""); ("imageUrl", JStr ""); ("dateAdded", JStr dateAdded);
     ("notes", JStr "")]
    productData.

(** [addProduct(productData = {})]. *)
Definition addProduct (productData : Props) : M JVal :=
  list <- _getCollection "products" ;;
  id <- generateId "prod" ;;
  dateAdded <- nowISO ;;
  let product := JObj (new_product id dateAdded productData) in
  list <- lift (push list product) ;;
  _saveCollection "products" list ;;
  ret product.

Definition default_stock : JVal :=
  JObj [("boxes", JNum 0); ("pieces", JNum 0); ("sft", JNum 0)].

(** [product.currentStock.k = f(Number(product.currentStock.k) || 0)]. *)
Definition adjust_counter (product : JVal) (k : string) (f : float -> float)
  : Result JVal :=
  rbind (get_prop product "currentStock") (fun cs =>
  rbind (get_prop cs k) (fun x =>
  rbind (ToNumber x) (fun n =>
  rbind (set_prop cs k (JNum (f (num_or_zero n)))) (fun cs' =>
  set_prop product "currentStock" cs')))).

(** [Math.round(x * 1000) / 1000]. *)
Definition round3 (x : float) : float := Math_round (x * 1000) / 1000.

Definition round_counters (product : JVal) : Result JVal :=
  rbind (adjust_counter product "boxes" round3) (fun product =>
  rbind (adjust_counter product "pieces" round3) (fun product =>
  adjust_counter product "sft" round3)).

(** [(item.unitType || '').toLowerCase()]: only a string has the
    method. *)
Definition lower_unitType (item : JVal) : Result string :=
  rbind (get_prop item "unitType") (fun u =>
  match js_or u (JStr "") with
  | JStr s => Ok (toLowerCase s)
  | _ => Throw TypeError
  end).

(** [Number(o.k) || 0]. *)
Definition number_field (o : JVal) (k : string) : Result float :=
  rbind (get_prop o k) (fun x =>
  rbind (ToNumber x) (fun n => Ok (num_or_zero n))).

(** [product.currentStock.k <cmp> min && min > 0]. *)
Definition counter_test (cmp : float -> float -> bool) (product : JVal)
    (k : string) (min : float) : Result bool :=
  rbind (get_prop product "currentStock") (fun cs =>
  rbind (get_prop cs k) (fun x =>
  rbind (ToNumber x) (fun n =>
  Ok (cmp n min && (0 <? min))))).

(** The three tests joined by [||], left to right. *)
Definition threshold_test (cmp : float -> float -> bool) (product : JVal)
    (min : float) : Result bool :=
  rbind (counter_test cmp product "boxes" min) (fun b =>
  if (b : bool) then Ok true else
  rbind (counter_test cmp product "pieces" min) (fun p =>
  if (p : bool) then Ok true else
  counter_test cmp product "sft" min)).

(** [p => p.id === item.productId]. *)
Definition matches_item (item p : JVal) : Result bool :=
  rbind (get_prop p "id") (fun pid =>
  rbind (get_prop item "productId") (fun iid =>
  Ok (strict_equals pid iid))).

(** [a => a.productId === product.id && !a.resolved]. *)
Definition open_alert_of (product a : JVal) : Result bool :=
  rbind (get_prop a "productId") (fun apid =>
  rbind (get_prop product "id") (fun pid =>
  if strict_equals apid pid then
    rbind (get_prop a "resolved") (fun r => Ok (negb (truthy r)))
  else Ok false)).

(** The counter that the if-chain of [_applyStockChangesFromSale] writes
    for a lower-cased unit type. *)
Definition sale_counter (unitType : string) : string :=
  if String.eqb unitType "box" || String.eqb unitType "boxes" then "boxes"
  else if String.eqb unitType "piece" || String.eqb unitType "pieces" then "pieces"
  else if String.eqb unitType "sft" || String.eqb unitType "s.f.t"
          || String.eqb unitType "squarefeet" || String.eqb unitType "square feet"
  then "sft"
  else "pieces".

(** The same for the if-chain of [_applyStockChangesFromPurchase]. *)
Definition purchase_counter (unitType : string) : string :=
  if String.eqb unitType "box" || String.eqb unitType "boxes" then "boxes"
  else if String.eqb unitType "piece" || String.eqb unitType "pieces" then "pieces"
  else if String.eqb unitType "sft" || String.eqb unitType "squarefeet"
          || String.eqb unitType "square feet"
  then "sft"
  else "pieces".

(** The stock arithmetic of one line of a sale or purchase, from
    [const qty = ...] to the three roundings, on the product found;
    [counter] is the if-chain and [delta] the operation of its branches. *)
Definition apply_line (counter : string -> string) (delta : float -> float -> float)
    (product item : JVal) : Result JVal :=
  rbind (number_field item "quantity") (fun qty =>
  rbind (lower_unitType item) (fun unitType =>
  rbind (get_prop product "currentStock") (fun cs =>
  rbind (set_prop product "currentStock" (js_or cs default_stock)) (fun product =>
  rbind (adjust_counter product (counter unitType) (fun x => delta x qty)) (fun product =>
  round_counters product))))).

(** The [if (!existing) { alerts.push({...}); await _saveCollection(..) }]
    block of the sale path, entered when a counter is at or below [min]. *)
Definition raise_alert (product : JVal) (min : float) : M unit :=
  alerts <- _getCollection "alerts" ;;
  existing <- lift (find alerts (open_alert_of product)) ;;
  if negb (truthy (match existing with Some (_, a) => a | None => JUndef end))
  then
    id <- generateId "alert" ;;
    pid <- lift (get_prop product "id") ;;
    pname <- lift (get_prop product "name") ;;
    cs <- lift (get_prop product "currentStock") ;;
    snapshot <- lift (deepClone cs) ;;
    alertDate <- nowISO ;;
    alerts <- lift (push alerts
      (JObj [("id", JStr id); ("productId", pid); ("productName", pname);
             ("currentStock", snapshot); ("minRequired", JNum min);
             ("alertDate", JStr alertDate); ("resolved", JBool false)])) ;;
    _saveCollection "alerts" alerts ;; ret tt
  else ret tt.

(** The body of the loop of [_applyStockChangesFromSale], for one [item],
    on the local array [products]; it gives the array as the iteration
    leaves it. *)
Definition sale_item (products item : JVal) : M JVal :=
  found <- lift (find products (matches_item item)) ;;
  match found with
  | None =>
      console_log Lwarn "Product not found for sale item" ;; ret products
  | Some (i, product) =>
      if negb (truthy product) then
        console_log Lwarn "Product not found for sale item" ;; ret products
      else
        product <- lift (apply_line sale_counter PrimFloat.sub product item) ;;
        min <- lift (number_field product "minStock") ;;
        low <- lift (threshold_test PrimFloat.leb product min) ;;
        (if (low : bool) then raise_alert product min else ret tt) ;;
        ret (store_at products i product)
  end.

(** [_applyStockChangesFromSale(sale)]. *)
Definition _applyStockChangesFromSale (sale : JVal) : M unit :=
  if negb (truthy sale) then ret tt else
  items <- lift (get_prop sale "items") ;;
  match items with
  | JArr items _ =>
      products <- _getCollection "products" ;;
      products <- foldM sale_item items products ;;
      _saveCollection "products" products ;; ret tt
  | _ => ret tt
  end.

(** One round of the [alerts.forEach] of the purchase path, on the local
    array: the elements visited so far as the round leaves them, and the
    flag [changed]. *)
Definition resolve_if_open (product : JVal) (acc : list JVal * bool) (a : JVal)
  : M (list JVal * bool) :=
  is_open <- lift (open_alert_of product a) ;;
  if (is_open : bool) then
    a <- lift (set_prop a "resolved" (JBool true)) ;;
    t <- nowISO ;;
    a <- lift (set_prop a "resolvedAt" (JStr t)) ;;
    ret (fst acc ++ [a], true)
  else ret (fst acc ++ [a], snd acc).

(** The block of the purchase path that resolves the alerts of [product],
    entered when a counter is at or above the minimum. *)
Definition resolve_alerts (product : JVal) : M unit :=
  alerts <- _getCollection "alerts" ;;
  match alerts with
  | JArr es ps =>
      r <- foldM (resolve_if_open product) es ([], false) ;;
      if snd r then _saveCollection "alerts" (JArr (fst r) ps) ;; ret tt
      else ret tt
  | _ => throw TypeError          (* no [forEach] to call *)
  end.

(** The body of the loop of [_applyStockChangesFromPurchase]. *)
Definition purchase_item (products item : JVal) : M JVal :=
  found <- lift (find products (matches_item item)) ;;
  match found with
  | None =>
      console_log Lwarn "Product not found for purchase item" ;; ret products
  | Some (i, product) =>
      if negb (truthy product) then
        console_log Lwarn "Product not found for purchase item" ;; ret products
      else
        product <- lift (apply_line purchase_counter PrimFloat.add product item) ;;
        min <- lift (number_field product "minStock") ;;
        enough <- lift (threshold_test (fun x m => PrimFloat.leb m x) product min) ;;
        (if (enough : bool) then resolve_alerts product else ret tt) ;;
        ret (store_at products i product)
  end.

(** [_applyStockChangesFromPurchase(purchase)]. *)
Definition _applyStockChangesFromPurchase (purchase : JVal) : M unit :=
  if negb (truthy purchase) then ret tt else
  items <- lift (get_prop purchase "items") ;;
  match items with
  | JArr items _ =>
      products <- _getCollection "products" ;;
      products <- foldM purchase_item items products ;;
      _saveCollection "products" products ;; ret tt
  | _ => ret tt
  end.

(** The [Object.assign({ id: ..., ... }, saleData)] of addSale. *)
Definition new_sale (id dateTime : string) (saleData : Props) : Props :=
  Object_assign
    [("id", JStr id); ("dateTime", JStr dateTime); ("items", JArr [] []);
     ("totalAmount", JNum 0); ("customerName", JStr ""); ("customerPhone", JStr "");
     ("paymentMethod", JStr "Cash"); ("paymentStatus", JStr "Paid");
     ("notes", JStr "")]
    saleData.

(** The first half of [addSale]: the record is built, appended and
    persisted. *)
Definition record_sale (saleData : Props) : M JVal :=
  list <- _getCollection "sales" ;;
  id <- generateId "sale" ;;
  dateTime <- nowISO ;;
  let sale := JObj (new_sale id dateTime saleData) in
  list <- lift (push list sale) ;;
  _saveCollection "sales" list ;;
  ret sale.

(** [addSale(saleData = {})]. *)
Definition addSale (saleData : Props) : M JVal :=
  sale <- record_sale saleData ;;
  try_catch
    (_applyStockChangesFromSale sale)
    (fun e => console_log Lwarn "Stock update after sale failed:") ;;
  ret sale.

(** The [Object.assign({ id: ..., ... }, purchaseData)] of addPurchase. *)
Definition new_purchase (id dateTime : string) (purchaseData : Props) : Props :=
  Object_assign
    [("id", JStr id); ("dateTime", JStr dateTime); ("items", JArr [] []);
     ("totalCost", JNum 0); ("paymentStatus", JStr "Pending");
     ("supplierName", JStr ""); ("notes", JStr "")]
    purchaseData.

(** The first half of [addPurchase]. *)
Definition record_purchase (purchaseData : Props) : M JVal :=
  list <- _getCollection "purchases" ;;
  id <- generateId "pur" ;;
  dateTime <- nowISO ;;
  let purchase := JObj (new_purchase id dateTime purchaseData) in
  list <- lift (push list purchase) ;;
  _saveCollection "purchases" list ;;
  ret purchase.

(** [addPurchase(purchaseData = {})]. *)
Definition addPurchase (purchaseData : Props) : M JVal :=
  purchase <- record_purchase purchaseData ;;
  try_catch
    (_applyStockChangesFromPurchase purchase)
    (fun e => console_log Lwarn "Stock update after purchase failed:") ;;
  ret purchase.

(** [getAllProducts()], [getAllSales()], [getAllPurchases()],
    [getAllAlerts()]. *)
Definition getAllProducts : M JVal := _getCollection "products".
Definition getAllSales : M JVal := _getCollection "sales".
Definition getAllPurchases : M JVal := _getCollection "purchases".
Definition getAllAlerts : M JVal := _getCollection "alerts".

(** [s.slice(0, 19).replace(/[:T]/g, '-')]. *)
Fixpoint dash_colon_T (s : string) : string :=
  match s with
  | EmptyString => EmptyString
  | String c r =>
      String (if (Ascii.eqb c ":" || Ascii.eqb c "T")%char then "-"%char else c)
             (dash_colon_T r)
  end.

(** [exportDB()]: the file name and the text; the download that the
    temporary anchor triggers is recorded in the world. *)
Definition exportDB : M (string * Text) :=
  db <- loadDB false ;;
  let json := JSON_stringify db in
  iso <- Date_toISOString ;;
  let filename :=
    ("tile-inventory-db-" ++ dash_colon_T (String.substring 0 19 iso) ++ ".json")%string in
  (fun w => (Ok tt, set_downloads w ((filename, json) :: downloads w))) ;;
  ret (filename, json).

(** [base.k = Array.isArray(parsed.k) ? parsed.k : base.k]. *)
Definition take_array (parsed : JVal) (k : string) (base : JVal) : Result JVal :=
  rbind (get_prop parsed k) (fun x =>
  if is_array x then set_prop base k x
  else rbind (get_prop base k) (fun y => set_prop base k y)).

(** Membership in a [Set] compares with SameValueZero: as [===], but NaN
    is equal to itself. *)
Definition same_value_zero (a b : JVal) : bool :=
  match a, b with
  | JNum x, JNum y => PrimFloat.eqb x y || (is_nan x && is_nan y)
  | _, _ => strict_equals a b
  end.

Fixpoint ids_of (l : list JVal) : Result (list JVal) :=
  match l with
  | [] => Ok []
  | i :: r =>
      rbind (get_prop i "id") (fun id =>
      rbind (ids_of r) (fun ids => Ok (id :: ids)))
  end.

Fixpoint merge_incoming (existingIds : list JVal) (incoming : list JVal)
    (target : list JVal) : Result (list JVal) :=
  match incoming with
  | [] => Ok target
  | it :: r =>
      rbind (get_prop it "id") (fun id =>
      if negb (truthy id) || existsb (same_value_zero id) existingIds
      then merge_incoming existingIds r target
      else merge_incoming existingIds r (target ++ [it]))
  end.

(** [mergeArray(targetArr, incomingArr)] of importDB. *)
Definition mergeArray (targetArr incomingArr : JVal) : Result JVal :=
  match incomingArr with
  | JArr incoming _ =>
      match targetArr with
      | JArr target ps =>
          rbind (ids_of target) (fun existingIds =>
          rbind (merge_incoming existingIds incoming target) (fun l =>
          Ok (JArr l ps)))
      | _ => Throw TypeError
      end
  | _ => Ok targetArr
  end.

(** [db.k = mergeArray(db.k, parsed.k)]. *)
Definition merge_collection (parsed : JVal) (k : string) (db : JVal) : Result JVal :=
  rbind (get_prop db k) (fun t =>
  rbind (get_prop parsed k) (fun i =>
  rbind (mergeArray t i) (fun m =>
  set_prop db k m))).

(** [importDB(jsonString, merge = false)]. *)
Definition importDB (jsonString : Text) (merge : bool) : M JVal :=
  match jsonString with
  | TEmpty => throw (JsError "No JSON provided for import")
  | TInvalid => throw (JsError "Invalid JSON provided")
  | TJson parsed =>
      if negb merge then
        base <- emptyDB ;;
        base <- lift (take_array parsed "products" base) ;;
        base <- lift (take_array parsed "sales" base) ;;
        base <- lift (take_array parsed "purchases" base) ;;
        base <- lift (take_array parsed "alerts" base) ;;
        base <- lift (take_array parsed "users" base) ;;
        meta <- lift (get_prop base "meta") ;;
        base <- lift (set_prop base "meta" (js_or meta (JObj []))) ;;
        base <- set_nested base "meta" "importedAt" (t <- nowISO ;; ret (JStr t)) ;;
        saveDB base ;;
        ret base
      else
        db <- loadDB false ;;
        db <- lift (merge_collection parsed "products" db) ;;
        db <- lift (merge_collection parsed "sales" db) ;;
        db <- lift (merge_collection parsed "purchases" db) ;;
        db <- lift (merge_collection parsed "alerts" db) ;;
        db <- lift (merge_collection parsed "users" db) ;;
        saveDB db ;;
        ret db
  end.

(** [clearDB()]. *)
Definition clearDB : M JVal :=
  adapter_clear ;;
  write_cache JNull ;;
  loadDB true.

(** The initialisation that runs when the script is loaded. *)
Definition initialize : M unit :=
  try_catch
    (db <- loadDB false ;; write_cache db)
    (fun e =>
       console_log Lerror "Failed to initialize storage layer:" ;;
       db <- emptyDB ;;
       write_cache db ;;
       LocalStorageAdapter_save db ;; ret tt).

End Storage.

(* ================================================================== *)
(** ** Worlds used in examples *)
(* ================================================================== *)

Module Scenario.
Import Storage.

Definition digit_string (n : nat) : string :=
  String (ascii_of_nat (48 + Nat.modulo n 10)) EmptyString.

(** A clock and a random source: the [n]-th answers are "T0", "T1", ... and
    "r0", "r1", ... *)
Definition fresh : World :=
  mkWorld None LocalStorageAdapter JNull []
          (fun n => ("T" ++ digit_string (Nat.div n 10) ++ digit_string n)%string) 0
          (fun n => ("r" ++ digit_string (Nat.div n 10) ++ digit_string n)%string) 0
          [] [] [].

Definition exec {A} (m : M A) (w : World) : World := snd (m w).
Definition value {A} (m : M A) (w : World) : Result A := fst (m w).

(** The script has been loaded. *)
Definition started : World := exec initialize fresh.

Definition line (productId unitType : string) (quantity : float) : JVal :=
  JObj [("productId", JStr productId); ("quantity", JNum quantity);
        ("unitType", JStr unitType)].

Definition one_line (productId unitType : string) (quantity : float) : Props :=
  [("items", JArr [line productId unitType quantity] [])].

(** One product "p1" with five boxes in stock and a minimum of two. *)
Definition tile : Props :=
  [("id", JStr "p1"); ("name", JStr "Tile");
   ("currentStock", JObj [("boxes", JNum 5); ("pieces", JNum 40); ("sft", JNum 60)]);
   ("minStock", JNum 2)].

Definition stocked : World := exec (addProduct tile) started.

End Scenario.

(* ================================================================== *)
(** ** Properties of values and of the JSON round trip *)
(* ================================================================== *)

(** Induction over values that reaches the elements of arrays and the
    values of properties. *)
Section JVal_induction.
Variable P : JVal -> Prop.
Hypothesis Hundef : P JUndef.
Hypothesis Hnull : P JNull.
Hypothesis Hbool : forall b, P (JBool b).
Hypothesis Hnum : forall x, P (JNum x).
Hypothesis Hstr : forall s, P (JStr s).
Hypothesis Harr : forall es ps,
    Forall P es -> Forall (fun kv => P (snd kv)) ps -> P (JArr es ps).
Hypothesis Hobj : forall ps, Forall (fun kv => P (snd kv)) ps -> P (JObj ps).

Fixpoint JVal_nested_ind (v : JVal) : P v :=
  let elems := fix elems (l : list JVal) : Forall P l :=
    match l with
    | [] => Forall_nil _
    | x :: r => Forall_cons x (JVal_nested_ind x) (elems r)
    end in
  let props := fix props (l : Props) : Forall (fun kv => P (snd kv)) l :=
    match l with
    | [] => Forall_nil _
    | kv :: r => Forall_cons kv (JVal_nested_ind (snd kv)) (props r)
    end in
  match v with
  | JUndef => Hundef
  | JNull => Hnull
  | JBool b => Hbool b
  | JNum x => Hnum x
  | JStr s => Hstr s
  | JArr es ps => Harr es ps (elems es) (props ps)
  | JObj ps => Hobj ps (props ps)
  end.
End JVal_induction.

(** A value is [normal] when the JSON round trip gives it back: it is what
    [deepClone] returns and what the cache holds. *)
Definition normal (v : JVal) : Prop := json_norm v = Some v.

Lemma json_norm_obj ps : json_norm (JObj ps) = Some (JObj (norm_props ps)).
Proof. reflexivity. Qed.

Lemma json_norm_arr es ps :
  json_norm (JArr es ps) = Some (JArr (map norm_elem es) []).
Proof. reflexivity. Qed.

Lemma json_num_normal x : normal (json_num x).
Proof.
  unfold normal, json_num.
  destruct (is_nan x || is_infinity x) eqn:E1; [reflexivity|].
  destruct (is_zero x) eqn:E2; [reflexivity|].
  simpl. unfold json_num. rewrite E1, E2. reflexivity.
Qed.

Lemma norm_props_length ps : (length (norm_props ps) <= length ps)%nat.
Proof.
  induction ps as [|[k x] r IH]; simpl; [lia|].
  destruct (json_norm x); simpl; lia.
Qed.

Lemma norm_props_cons_inv k x r :
  norm_props ((k, x) :: r) = (k, x) :: r -> normal x /\ norm_props r = r.
Proof.
  simpl. destruct (json_norm x) as [x'|] eqn:E.
  - intros H. injection H as H1 H2. subst x'. split; [exact E | exact H2].
  - intros H. pose proof (norm_props_length r) as L.
    rewrite H in L. simpl in L. lia.
Qed.

Lemma norm_elem_normal e :
  (forall e', json_norm e = Some e' -> normal e') -> normal (norm_elem e).
Proof.
  intros H. unfold norm_elem. destruct (json_norm e) as [e'|] eqn:E.
  - apply H. reflexivity.
  - reflexivity.
Qed.

Lemma norm_elem_fix e : normal e -> norm_elem e = e.
Proof. unfold normal, norm_elem. intros ->. reflexivity. Qed.

(** The round trip is idempotent: what it returns is normal. *)
Lemma json_norm_normal v v' : json_norm v = Some v' -> normal v'.
Proof.
  revert v'. induction v as [| |b|x|s|es ps IHes _|ps IH] using JVal_nested_ind;
    intros v' H; simpl in H; try (inversion H; subst; reflexivity).
  - inversion H; subst. apply json_num_normal.
  - inversion H; subst. clear H. unfold normal. rewrite json_norm_arr.
    f_equal. f_equal. rewrite map_map. apply map_ext_in.
    intros e He. apply norm_elem_fix, norm_elem_normal.
    rewrite Forall_forall in IHes. apply IHes. exact He.
  - change (Some (JObj (norm_props ps)) = Some v') in H. inversion H; subst. clear H.
    unfold normal. rewrite json_norm_obj. do 2 f_equal.
    induction IH as [|[k x] r Hx _ IHr]; simpl; [reflexivity|].
    destruct (json_norm x) as [x'|] eqn:E; [|exact IHr].
    simpl. simpl in Hx. rewrite (Hx x' E). rewrite IHr. reflexivity.
Qed.

Lemma deepClone_normal v : normal v -> deepClone v = Ok v.
Proof. unfold normal, deepClone, JSON_stringify. intros ->. reflexivity. Qed.

Lemma normal_obj ps : normal (JObj ps) <-> norm_props ps = ps.
Proof.
  unfold normal. rewrite json_norm_obj. split.
  - intros H; inversion H. congruence.
  - intros ->. reflexivity.
Qed.

Lemma normal_lookup ps k v : normal (JObj ps) -> lookup k ps = Some v -> normal v.
Proof.
  rewrite normal_obj. induction ps as [|[k' x] r IH]; simpl; [discriminate|].
  intros Hn. apply norm_props_cons_inv in Hn. destruct Hn as [Hx Hr].
  destruct (String.eqb k k').
  - intros H; inversion H; subst. exact Hx.
  - apply IH. exact Hr.
Qed.

Lemma normal_arr es ps : normal (JArr es ps) <-> ps = [] /\ Forall normal es.
Proof.
  unfold normal. rewrite json_norm_arr. split.
  - intros H. injection H as He Hp. split; [symmetry; exact Hp|]. clear Hp.
    induction es as [|e r IH]; [constructor|].
    simpl in He. injection He as H1 H2. constructor.
    + unfold norm_elem in H1. destruct (json_norm e) eqn:E; [congruence|].
      subst e. discriminate.
    + apply IH. exact H2.
  - intros [-> H]. do 2 f_equal.
    induction H as [|e r He _ IH]; simpl; [reflexivity|].
    rewrite (norm_elem_fix e He), IH. reflexivity.
Qed.

(* ------------------------------------------------------------------ *)
(** *** Property lists *)

Lemma lookup_update_same k v ps : lookup k (update k v ps) = Some v.
Proof.
  induction ps as [|[k' x] r IH]; simpl.
  - rewrite String.eqb_refl. reflexivity.
  - destruct (String.eqb k k') eqn:E; simpl.
    + rewrite String.eqb_refl. reflexivity.
    + rewrite E. exact IH.
Qed.

Lemma lookup_update_other k k' v ps :
  String.eqb k k' = false -> lookup k (update k' v ps) = lookup k ps.
Proof.
  intros Hk. induction ps as [|[k1 x] r IH]; simpl.
  - rewrite Hk. reflexivity.
  - destruct (String.eqb k' k1) eqn:E; simpl.
    + apply String.eqb_eq in E. subst k1. rewrite Hk. reflexivity.
    + destruct (String.eqb k k1); [reflexivity | exact IH].
Qed.

Lemma update_same_value k v ps : lookup k ps = Some v -> update k v ps = ps.
Proof.
  induction ps as [|[k' x] r IH]; simpl; [discriminate|].
  destruct (String.eqb k k') eqn:E.
  - intros H. injection H as ->. apply String.eqb_eq in E. subst. reflexivity.
  - intros H. rewrite (IH H). reflexivity.
Qed.

Lemma truthy_json_norm x : truthy x = true -> exists x', json_norm x = Some x'.
Proof. destruct x; simpl; try discriminate; eauto. Qed.

Lemma norm_props_update k v v' ps :
  json_norm v = Some v' -> norm_props ps = ps ->
  norm_props (update k v ps) = update k v' ps.
Proof.
  intros Hv. induction ps as [|[k' x] r IH]; simpl.
  - rewrite Hv. reflexivity.
  - intros Hn. apply (norm_props_cons_inv k' x r) in Hn. destruct Hn as [Hx Hr].
    destruct (String.eqb k k'); simpl.
    + rewrite Hv, Hr. reflexivity.
    + rewrite Hx, (IH Hr). reflexivity.
Qed.

Lemma lookup_norm_props_some k v v' ps :
  lookup k ps = Some v -> json_norm v = Some v' ->
  lookup k (norm_props ps) = Some v'.
Proof.
  induction ps as [|[k' x] r IH]; simpl; [discriminate|].
  destruct (String.eqb k k') eqn:E.
  - intros H Hv. injection H as ->. rewrite Hv. simpl. rewrite E. reflexivity.
  - intros H Hv. destruct (json_norm x); simpl; [rewrite E|]; apply IH; assumption.
Qed.

Lemma lookup_norm_props_none k ps :
  lookup k ps = None -> lookup k (norm_props ps) = None.
Proof.
  induction ps as [|[k' x] r IH]; simpl; [reflexivity|].
  destruct (String.eqb k k') eqn:E; [discriminate|].
  intros H. destruct (json_norm x); simpl; [rewrite E|]; apply IH; exact H.
Qed.

(** [Object.assign] gives the target every property of the source; the
    names of an object's properties are distinct. *)
Lemma Object_assign_other k target source :
  lookup k source = None ->
  lookup k (Object_assign target source) = lookup k target.
Proof.
  unfold Object_assign. revert target.
  induction source as [|[k' x] r IH]; simpl; intros target; [reflexivity|].
  destruct (String.eqb k k') eqn:E; [discriminate|].
  intros H. rewrite (IH _ H). apply lookup_update_other. exact E.
Qed.

Lemma lookup_In k v (ps : Props) : lookup k ps = Some v -> In k (map fst ps).
Proof.
  induction ps as [|[k' x] r IH]; simpl; [discriminate|].
  destruct (String.eqb k k') eqn:E.
  - intros _. left. apply String.eqb_eq in E. congruence.
  - intros H. right. exact (IH H).
Qed.

Lemma lookup_not_In k (ps : Props) : ~ In k (map fst ps) -> lookup k ps = None.
Proof.
  intros H. destruct (lookup k ps) eqn:E; [|reflexivity].
  exfalso. apply H. eapply lookup_In. exact E.
Qed.

Lemma Object_assign_lookup k v target source :
  NoDup (map fst source) -> lookup k source = Some v ->
  lookup k (Object_assign target source) = Some v.
Proof.
  unfold Object_assign. revert target.
  induction source as [|[k' x] r IH]; simpl; intros target Hnd; [discriminate|].
  inversion Hnd as [|? ? Hnotin Hnd']; subst.
  destruct (String.eqb k k') eqn:E.
  - intros H. injection H as ->. apply String.eqb_eq in E. subst k'.
    change (lookup k (Object_assign (update k v target) r) = Some v).
    rewrite Object_assign_other by (apply lookup_not_In; exact Hnotin).
    apply lookup_update_same.
  - intros H. apply IH; assumption.
Qed.

(* ================================================================== *)
(** ** The controller: cache, load and save *)
(* ================================================================== *)

Import Storage.

Lemma bind_ok {A B} (m : M A) (f : A -> M B) w a w' :
  m w = (Ok a, w') -> (x <- m ;; f x) w = f a w'.
Proof. unfold bind. intros ->. reflexivity. Qed.

Lemma bind_throw {A B} (m : M A) (f : A -> M B) w e w' :
  m w = (Throw e, w') -> (x <- m ;; f x) w = (Throw e, w').
Proof. unfold bind. intros ->. reflexivity. Qed.

(** Everything in a world except the two traces that watchers and logging
    write. *)
Definition core (w : World) :=
  (localStorage w, adapter w, _dbCache w, _watchers w,
   clock w, clock_reads w, random w, random_reads w, downloads w).

Lemma core_fields w w' :
  core w' = core w ->
  localStorage w' = localStorage w /\ adapter w' = adapter w /\
  _dbCache w' = _dbCache w /\ _watchers w' = _watchers w /\
  clock w' = clock w /\ clock_reads w' = clock_reads w /\
  random w' = random w /\ random_reads w' = random_reads w /\
  downloads w' = downloads w.
Proof. unfold core. intros H. injection H. intros. repeat split; assumption. Qed.

(** The cache holds the document with the properties [fs]. *)
Definition document (w : World) (fs : Props) : Prop :=
  _dbCache w = JObj fs /\ normal (JObj fs).

(** What [_getCollection(name)] returns on a document. *)
Definition collection (name : string) (fs : Props) : JVal :=
  js_or (or_undef (lookup name fs)) (JArr [] []).

Lemma loadDB_cached w :
  truthy (_dbCache w) = true -> normal (_dbCache w) ->
  loadDB false w = (Ok (_dbCache w), w).
Proof.
  intros Ht Hn. unfold loadDB, bind, read_cache. rewrite Ht. simpl.
  unfold lift. rewrite (deepClone_normal _ Hn). reflexivity.
Qed.

Lemma loadDB_document w fs : document w fs -> loadDB false w = (Ok (JObj fs), w).
Proof.
  intros [Hc Hn]. rewrite <- Hc. apply loadDB_cached; rewrite Hc; [reflexivity | exact Hn].
Qed.

Lemma getCollection_document w fs name :
  document w fs -> _getCollection name w = (Ok (collection name fs), w).
Proof.
  intros Hd. unfold _getCollection.
  rewrite (bind_ok _ _ _ _ _ (loadDB_document w fs Hd)).
  unfold collection, js_or, bind, lift. simpl.
  destruct (truthy (or_undef (lookup name fs))); simpl; [reflexivity|].
  rewrite lookup_update_same. reflexivity.
Qed.

(** Watchers: a round never throws and touches only the traces. *)
Lemma notify_spec fn w :
  fst (notify fn w) = Ok tt /\ core (snd (notify fn w)) = core w.
Proof.
  unfold notify, try_catch, bind, read_cache, lift, console_log, throw, ret.
  destruct (deepClone (_dbCache w)) as [arg|e]; simpl.
  - destruct (w_throws fn arg); simpl; split; reflexivity.
  - split; reflexivity.
Qed.

Lemma forEach_notify_spec ws w :
  fst (forEach notify ws w) = Ok tt /\ core (snd (forEach notify ws w)) = core w.
Proof.
  revert w. induction ws as [|fn r IH]; intros w; simpl.
  - split; reflexivity.
  - unfold bind. destruct (notify_spec fn w) as [H1 H2].
    destruct (notify fn w) as [res w1]. simpl in H1, H2. subst res.
    destruct (IH w1) as [H3 H4]. split; [exact H3 | congruence].
Qed.

(** [v.k = x] on a value that is neither [undefined] nor [null]. *)
Definition put (v : JVal) (k : string) (x : JVal) : JVal :=
  match set_prop v k x with Ok v' => v' | Throw _ => v end.

Lemma set_prop_truthy v k x : truthy v = true -> set_prop v k x = Ok (put v k x).
Proof. unfold put. destruct v; simpl; try discriminate; reflexivity. Qed.

(** The document that [LocalStorageAdapter.save] writes for the object
    with the properties [fs] at time [t]. *)
Definition stamped (fs : Props) (t : string) : JVal :=
  let toSave := norm_props fs in
  let meta := js_or (or_undef (lookup "meta" toSave)) (JObj []) in
  JObj (update "meta" (put meta "updatedAt" (JStr t)) (update "meta" meta toSave)).

Lemma js_or_obj_truthy a ps : truthy (js_or a (JObj ps)) = true.
Proof. unfold js_or. destruct (truthy a) eqn:E; [exact E | reflexivity]. Qed.

Lemma LocalStorageAdapter_save_obj fs w :
  LocalStorageAdapter_save (JObj fs) w =
  (Ok true,
   set_localStorage (set_clock_reads w (S (clock_reads w)))
     (Some (JSON_stringify (stamped fs (clock w (clock_reads w)))))).
Proof.
  unfold LocalStorageAdapter_save, set_nested, bind, lift, nowISO, Date_toISOString,
    localStorage_setItem, ret, stamped.
  unfold deepClone, JSON_stringify. rewrite json_norm_obj. simpl JSON_parse. cbv iota beta.
  cbn [get_prop set_prop]. rewrite lookup_update_same. cbn [or_undef].
  rewrite (set_prop_truthy _ "updatedAt" _ (js_or_obj_truthy _ _)).
  reflexivity.
Qed.

(** The world that [saveDB] leaves before it calls the watchers. *)
Definition saved (w : World) (fs : Props) : World :=
  set_dbCache
    (set_localStorage (set_clock_reads w (S (clock_reads w)))
       (Some (JSON_stringify (stamped fs (clock w (clock_reads w))))))
    (JObj (norm_props fs)).

Lemma saveDB_obj w fs :
  adapter w = LocalStorageAdapter ->
  saveDB (JObj fs) w = (Ok true, snd (forEach notify (_watchers w) (saved w fs))).
Proof.
  intros Ha. unfold saveDB, adapter_save.
  unfold bind at 1. unfold bind at 1. unfold get_world at 1. rewrite Ha.
  rewrite LocalStorageAdapter_save_obj.
  unfold bind, lift, write_cache, get_world, ret, deepClone, JSON_stringify.
  rewrite json_norm_obj. simpl JSON_parse. cbv iota beta.
  change (set_dbCache _ _) with (saved w fs).
  change (_watchers (saved w fs)) with (_watchers w).
  destruct (forEach_notify_spec (_watchers w) (saved w fs)) as [H _].
  destruct (forEach notify (_watchers w) (saved w fs)) as [r w']. simpl in H.
  subst r. reflexivity.
Qed.

Lemma saveDB_obj_dummy w v :
  adapter w = DummyRemoteAdapter ->
  saveDB v w = (Throw (JsError "Remote adapter not implemented."), w).
Proof.
  intros Ha. unfold saveDB, adapter_save, bind, get_world, throw. rewrite Ha. reflexivity.
Qed.

Lemma saved_cache ws w fs :
  _dbCache (snd (forEach notify ws (saved w fs))) = JObj (norm_props fs).
Proof.
  destruct (forEach_notify_spec ws (saved w fs)) as [_ H].
  apply core_fields in H. destruct H as (_ & _ & H & _). exact H.
Qed.

Lemma saveCollection_document w fs name c :
  document w fs -> adapter w = LocalStorageAdapter ->
  _saveCollection name c w =
  (Ok true, snd (forEach notify (_watchers w) (saved w (update name c fs)))).
Proof.
  intros Hd Ha. unfold _saveCollection.
  rewrite (bind_ok _ _ _ _ _ (loadDB_document w fs Hd)).
  unfold bind at 1. unfold lift at 1. cbn [set_prop].
  apply saveDB_obj. exact Ha.
Qed.

Lemma saveCollection_dummy w fs name c :
  document w fs -> adapter w = DummyRemoteAdapter ->
  _saveCollection name c w = (Throw (JsError "Remote adapter not implemented."), w).
Proof.
  intros Hd Ha. unfold _saveCollection.
  rewrite (bind_ok _ _ _ _ _ (loadDB_document w fs Hd)).
  unfold bind at 1. unfold lift at 1. cbn [set_prop].
  apply saveDB_obj_dummy. exact Ha.
Qed.

Lemma saved_document ws w fs :
  document (snd (forEach notify ws (saved w fs))) (norm_props fs).
Proof.
  split; [apply saved_cache|].
  apply (json_norm_normal (JObj fs)). apply json_norm_obj.
Qed.

Lemma saved_core ws w fs :
  core (snd (forEach notify ws (saved w fs))) = core (saved w fs).
Proof. apply forEach_notify_spec. Qed.

Lemma forEach_notify_notified ws w :
  normal (_dbCache w) ->
  notified (snd (forEach notify ws w)) =
  rev (map (fun fn => (w_id fn, _dbCache w)) ws) ++ notified w.
Proof.
  intros Hn. revert w Hn. induction ws as [|fn r IH]; intros w Hn; simpl; [reflexivity|].
  unfold bind.
  assert (Hstep : notified (snd (notify fn w)) = (w_id fn, _dbCache w) :: notified w).
  { unfold notify, try_catch, bind, read_cache, lift, console_log, throw, ret.
    rewrite (deepClone_normal _ Hn). simpl.
    destruct (w_throws fn (_dbCache w)); reflexivity. }
  destruct (notify_spec fn w) as [H1 H2].
  destruct (notify fn w) as [res w1]. simpl in H1, H2, Hstep. subst res.
  apply core_fields in H2. destruct H2 as (_ & _ & Hc & _).
  rewrite IH by (rewrite Hc; exact Hn).
  rewrite Hstep, Hc, <- app_assoc. reflexivity.
Qed.

(** [doc.meta.updatedAt]. *)
Definition meta_updatedAt (doc : JVal) : Result JVal :=
  rbind (get_prop doc "meta") (fun m => get_prop m "updatedAt").

Lemma stamped_updatedAt fs t :
  lookup "meta" fs = None \/ (exists m, lookup "meta" fs = Some (JObj m)) ->
  exists stored,
    JSON_stringify (stamped fs t) = TJson stored /\
    meta_updatedAt stored = Ok (JStr t).
Proof.
  intros Hm. unfold stamped, JSON_stringify. rewrite json_norm_obj.
  eexists. split; [reflexivity|].
  assert (Hmeta : exists m, js_or (or_undef (lookup "meta" (norm_props fs))) (JObj []) = JObj m).
  { destruct Hm as [Hm | [m Hm]].
    - rewrite (lookup_norm_props_none _ _ Hm). unfold js_or. simpl. eauto.
    - rewrite (lookup_norm_props_some _ _ _ _ Hm (json_norm_obj m)). unfold js_or. simpl. eauto. }
  destruct Hmeta as [m ->].
  unfold put. cbn [set_prop]. unfold meta_updatedAt. cbn [get_prop].
  erewrite lookup_norm_props_some;
    [| apply lookup_update_same | apply json_norm_obj].
  cbn [or_undef rbind get_prop].
  erewrite lookup_norm_props_some; [| apply lookup_update_same | reflexivity].
  reflexivity.
Qed.

Module C9_example.
Import Scenario.

(** A document whose [meta.updatedAt] is "old", saved with one watcher
    registered. *)
Definition doc : JVal :=
  JObj [("meta", JObj [("version", JNum 1); ("createdAt", JStr "old");
                       ("updatedAt", JStr "old")]);
        ("products", JArr [] []); ("sales", JArr [] []); ("purchases", JArr [] []);
        ("alerts", JArr [] []); ("users", JArr [] [])].

Definition watched : World := exec (onChange (mkWatcher 7 (fun _ => None))) started.

Definition after_save : World := exec (saveDB doc) watched.

Definition stored_updatedAt (w : World) : Result JVal :=
  match localStorage w with
  | Some (TJson d) => meta_updatedAt d
  | _ => Throw SyntaxError
  end.

End C9_example.

(** C9, as the claim states it, fails: after a successful [saveDB(doc)] the
    fresh [meta.updatedAt] is on the copy in localStorage only.  Here the
    document passed in carries [updatedAt = "old"] and the clock answers
    "T02": the stored copy has "T02", while the cache, the argument the
    watcher was called with and the result of [loadDB()] all carry "old". *)
Lemma C9_cache_keeps_callers_updatedAt :
  Scenario.value (saveDB C9_example.doc) C9_example.watched = Ok true /\
  C9_example.stored_updatedAt C9_example.after_save = Ok (JStr "T02") /\
  meta_updatedAt (_dbCache C9_example.after_save) = Ok (JStr "old") /\
  map (fun call => meta_updatedAt (snd call)) (notified C9_example.after_save)
    = [Ok (JStr "old")] /\
  rbind (Scenario.value (loadDB false) C9_example.after_save) meta_updatedAt
    = Ok (JStr "old").
Proof. vm_compute. repeat split; reflexivity. Qed.

(** C9, amended: a [saveDB(doc)] through the localStorage adapter, for a
    document [doc] whose [meta] is an object or is missing, succeeds; the
    copy it writes to localStorage carries a fresh [meta.updatedAt] (the
    clock's answer at that moment); the cache is replaced by a deep copy of
    [doc] as it was passed, without that stamp; every registered watcher is
    called once, in order, with a deep copy of the cache; and a following
    [loadDB()] returns that same deep copy and changes nothing. *)
Theorem C9_saveDB_stamps_stored_copy_only :
  forall (w : World) (fs : Props),
    adapter w = LocalStorageAdapter ->
    (lookup "meta" fs = None \/ exists m, lookup "meta" fs = Some (JObj m)) ->
    let w' := snd (saveDB (JObj fs) w) in
    fst (saveDB (JObj fs) w) = Ok true /\
    (exists stored,
        localStorage w' = Some (TJson stored) /\
        meta_updatedAt stored = Ok (JStr (clock w (clock_reads w)))) /\
    _dbCache w' = JObj (norm_props fs) /\
    notified w' =
      rev (map (fun fn => (w_id fn, JObj (norm_props fs))) (_watchers w)) ++ notified w /\
    loadDB false w' = (Ok (JObj (norm_props fs)), w').
Proof.
  intros w fs Ha Hm w'. subst w'. rewrite (saveDB_obj w fs Ha). cbn [fst snd].
  pose proof (saved_core (_watchers w) w fs) as Hcore. apply core_fields in Hcore.
  destruct Hcore as (Hls & _ & Hc & _).
  split; [reflexivity|]. split; [|split; [|split]].
  - destruct (stamped_updatedAt fs (clock w (clock_reads w)) Hm) as [stored [Hs Hu]].
    exists stored. split; [|exact Hu]. rewrite Hls. unfold saved. simpl. rewrite Hs. reflexivity.
  - exact Hc.
  - rewrite forEach_notify_notified.
    + reflexivity.
    + apply (json_norm_normal (JObj fs)). apply json_norm_obj.
  - apply loadDB_document. apply saved_document.
Qed.

(** The amended statement at the document of the counterexample. *)
Lemma C9_saveDB_witness :
  Scenario.value (saveDB C9_example.doc) C9_example.watched = Ok true /\
  _dbCache C9_example.after_save = C9_example.doc.
Proof.
  pose proof (C9_saveDB_stamps_stored_copy_only C9_example.watched
                [("meta", JObj [("version", JNum 1); ("createdAt", JStr "old");
                                ("updatedAt", JStr "old")]);
                 ("products", JArr [] []); ("sales", JArr [] []);
                 ("purchases", JArr [] []); ("alerts", JArr [] []);
                 ("users", JArr [] [])]
                eq_refl (or_intror (ex_intro _ _ eq_refl))) as H.
  cbv zeta in H. destruct H as (H1 & _ & H3 & _).
  split; [exact H1 | exact H3].
Defined.

Lemma collection_array w fs name es ps :
  document w fs -> collection name fs = JArr es ps -> ps = [] /\ Forall normal es.
Proof.
  intros [_ Hn]. unfold collection, js_or.
  destruct (lookup name fs) as [c|] eqn:E; simpl.
  - destruct (truthy c).
    + intros ->. apply normal_arr. eapply normal_lookup; eassumption.
    + intros H. injection H as <- <-. split; constructor.
  - intros H. injection H as <- <-. split; constructor.
Qed.

Lemma map_norm_elem_normal es : Forall normal es -> map norm_elem es = es.
Proof.
  induction 1 as [|e r He _ IH]; simpl; [reflexivity|].
  rewrite (norm_elem_fix e He), IH. reflexivity.
Qed.

(** The world once the random source and the clock have each been read
    once more. *)
Definition ticked (w : World) : World :=
  set_clock_reads (set_random_reads w (S (random_reads w))) (S (clock_reads w)).

Lemma document_ticked w fs : document w fs -> document (ticked w) fs.
Proof. intros H. exact H. Qed.

(** The stored collection after [_saveCollection(name, list ++ [x])]. *)
Lemma lookup_saved_push fs name es x x' :
  Forall normal es -> json_norm x = Some x' ->
  lookup name (norm_props (update name (JArr (es ++ [x]) []) fs))
  = Some (JArr (es ++ [x']) []).
Proof.
  intros Hes Hx.
  erewrite lookup_norm_props_some; [reflexivity | apply lookup_update_same |].
  rewrite json_norm_arr, map_app, (map_norm_elem_normal es Hes). simpl.
  unfold norm_elem. rewrite Hx. reflexivity.
Qed.

(** The three functions that add a record share their shape: read the
    collection, draw an identifier and a date, push, persist.  [mk] builds
    the record. *)
Lemma append_record_document (mk : string -> string -> Props) name prefix w fs es :
  document w fs -> adapter w = LocalStorageAdapter ->
  collection name fs = JArr es [] ->
  let x := JObj (mk (prefix ++ "_" ++ random w (random_reads w))%string
                    (clock w (clock_reads w))) in
  (list <- _getCollection name ;;
   id <- generateId prefix ;;
   date <- nowISO ;;
   list <- lift (push list (JObj (mk id date))) ;;
   _saveCollection name list ;;
   ret (JObj (mk id date))) w
  = (Ok x,
     snd (forEach notify (_watchers w)
            (saved (ticked w) (update name (JArr (es ++ [x]) []) fs)))).
Proof.
  intros Hd Ha Ec x.
  rewrite (bind_ok _ _ _ _ _ (getCollection_document w fs name Hd)).
  rewrite Ec.
  unfold bind at 1. unfold generateId at 1. cbv iota beta.
  unfold bind at 1. unfold nowISO, Date_toISOString at 1. cbv iota beta.
  unfold bind at 1. unfold lift at 1. cbn [push]. cbv iota beta.
  change (set_clock_reads _ _) with (ticked w).
  change (clock (set_random_reads w (S (random_reads w)))
            (clock_reads (set_random_reads w (S (random_reads w)))))
    with (clock w (clock_reads w)).
  fold x.
  rewrite (bind_ok _ _ _ _ _
             (saveCollection_document (ticked w) fs name _ (document_ticked w fs Hd) Ha)).
  reflexivity.
Qed.

Lemma addProduct_document w fs productData es :
  document w fs -> adapter w = LocalStorageAdapter ->
  collection "products" fs = JArr es [] ->
  let p := JObj (new_product ("prod_" ++ random w (random_reads w))%string
                             (clock w (clock_reads w)) productData) in
  addProduct productData w
  = (Ok p,
     snd (forEach notify (_watchers w)
            (saved (ticked w) (update "products" (JArr (es ++ [p]) []) fs)))).
Proof.
  intros Hd Ha Ec.
  exact (append_record_document (fun id d => new_product id d productData)
           "products" "prod" w fs es Hd Ha Ec).
Qed.

Module C10_example.
Import Scenario.


Definition ids (products : Result JVal) : list (Result JVal) :=
  match products with
  | Ok (JArr es _) => map (fun p => get_prop p "id") es
  | _ => []
  end.

End C10_example.



(* ================================================================== *)
(** ** Loading: the migration of a stale document *)
(* ================================================================== *)

(** The test [!parsed.meta || parsed.meta.version !== DB_VERSION] comes out
    true on the parsed value [v]. *)
Definition stale (v : JVal) : Prop :=
  exists meta,
    get_prop v "meta" = Ok meta /\
    (truthy meta = false \/
     exists version, get_prop meta "version" = Ok version /\
                     strict_equals version (JNum DB_VERSION) = false).

(** What the migrated document holds under [k]: the old value when there
    is one that counts as true, as JSON keeps it, else the empty array. *)
Definition carried (v : JVal) (k : string) : JVal :=
  match get_prop v k with
  | Ok x => if truthy x then norm_elem x else JArr [] []
  | Throw _ => JArr [] []
  end.

Definition migrated_document (w : World) (v : JVal) : JVal :=
  JObj [("meta", JObj [("version", JNum DB_VERSION);
                       ("createdAt", JStr (clock w (clock_reads w)));
                       ("updatedAt", JStr (clock w (S (S (clock_reads w)))))]);
        ("products", carried v "products");
        ("sales", carried v "sales");
        ("purchases", carried v "purchases");
        ("alerts", JArr [] []);
        ("users", JArr [] [])].

Lemma get_prop_ok_again v k x k' : get_prop v k = Ok x -> exists y, get_prop v k' = Ok y.
Proof. destruct v; simpl; try discriminate; eauto. Qed.

Lemma norm_elem_truthy x : truthy x = true -> json_norm x = Some (norm_elem x).
Proof. intros H. destruct (truthy_json_norm x H) as [x' E]. unfold norm_elem. rewrite E. reflexivity. Qed.

Lemma load_stale w v :
  localStorage w = Some (TJson v) -> stale v ->
  LocalStorageAdapter_load w
  = (Ok (migrated_document w v),
     set_localStorage (set_clock_reads w (S (S (S (clock_reads w)))))
       (Some (TJson (migrated_document w v)))).
Proof.
  intros Hls (meta & Hmeta & Hstale).
  destruct (get_prop_ok_again v "meta" meta "products" Hmeta) as [xp Hp].
  destruct (get_prop_ok_again v "meta" meta "sales" Hmeta) as [xs Hs].
  destruct (get_prop_ok_again v "meta" meta "purchases" Hmeta) as [xu Hu].
  unfold LocalStorageAdapter_load.
  unfold bind at 1. unfold localStorage_getItem at 1. rewrite Hls. cbv iota beta.
  unfold try_catch.
  unfold bind at 1. unfold lift at 1. cbn [JSON_parse]. cbv iota beta.
  unfold bind at 1. unfold lift at 1. rewrite Hmeta. cbv iota beta.
  assert (Hst : forall w0,
             (if negb (truthy meta) then ret true
              else version <- lift (get_prop meta "version") ;;
                   ret (negb (strict_equals version (JNum DB_VERSION)))) w0
             = (Ok true, w0)).
  { intros w0. destruct Hstale as [Ht | (version & Hv & Hne)].
    - rewrite Ht. reflexivity.
    - destruct (truthy meta); [|reflexivity]. simpl.
      unfold bind, lift, ret. rewrite Hv, Hne. reflexivity. }
  unfold bind at 1. rewrite Hst. cbv iota beta.
  unfold migrated_document, carried. rewrite Hp, Hs, Hu.
  unfold emptyDB, copy_if_truthy, set_nested, nowISO, Date_toISOString,
    localStorage_setItem, bind, lift, ret.
  rewrite Hp, Hs, Hu. cbn [rbind].
  destruct (truthy xp) eqn:Tp, (truthy xs) eqn:Ts, (truthy xu) eqn:Tu;
    cbn [set_prop get_prop update lookup or_undef String.eqb Ascii.eqb Bool.eqb];
    unfold deepClone, JSON_stringify; rewrite !json_norm_obj;
    cbn [norm_props json_norm];
    rewrite ?(norm_elem_truthy xp Tp), ?(norm_elem_truthy xs Ts), ?(norm_elem_truthy xu Tu);
    reflexivity.
Qed.

Module C6_example.

(** A document of an older schema, with one entry in each collection. *)
Definition old : JVal :=
  JObj [("meta", JObj [("version", JNum 0)]);
        ("products", JArr [JObj [("id", JStr "p1")]] []);
        ("sales", JArr [JObj [("id", JStr "s1")]] []);
        ("purchases", JArr [JObj [("id", JStr "u1")]] []);
        ("alerts", JArr [JObj [("id", JStr "a1")]] []);
        ("users", JArr [JObj [("id", JStr "x1")]] [])].

Definition world : World := set_localStorage Scenario.fresh (Some (TJson old)).

End C6_example.

(** C6. When the stored text parses to a value whose [meta] is missing (or
    counts as false) or whose [meta.version] is not the current version,
    [LocalStorageAdapter.load] returns a fresh document, stamped with the
    current version, and writes that same document to localStorage.  Its
    [products], [sales] and [purchases] are the old ones wherever the old
    value has one (an array stored by this program comes back as it was);
    its [alerts] and [users] are empty whatever the old document held. *)
Theorem C6_load_migrates_stale_document :
  forall (w : World) (v : JVal),
    localStorage w = Some (TJson v) -> stale v ->
    let doc := migrated_document w v in
    fst (LocalStorageAdapter_load w) = Ok doc /\
    localStorage (snd (LocalStorageAdapter_load w)) = Some (TJson doc) /\
    rbind (get_prop doc "meta") (fun m => get_prop m "version") = Ok (JNum DB_VERSION) /\
    (forall k x, In k ["products"; "sales"; "purchases"] ->
                 get_prop v k = Ok x -> is_array x = true -> normal x ->
                 get_prop doc k = Ok x) /\
    (forall k x, In k ["products"; "sales"; "purchases"] ->
                 get_prop v k = Ok x -> truthy x = false ->
                 get_prop doc k = Ok (JArr [] [])) /\
    get_prop doc "alerts" = Ok (JArr [] []) /\
    get_prop doc "users" = Ok (JArr [] []).
Proof.
  intros w v Hls Hst doc. rewrite (load_stale w v Hls Hst). cbn [fst snd].
  repeat split.
  - intros k x Hk Hx Harr Hn.
    assert (Hc : carried v k = x).
    { unfold carried. rewrite Hx. destruct x; try discriminate.
      simpl truthy. cbv iota. apply norm_elem_fix. exact Hn. }
    simpl in Hk. destruct Hk as [<- | [<- | [<- | []]]]; simpl; rewrite Hc; reflexivity.
  - intros k x Hk Hx Hf.
    assert (Hc : carried v k = JArr [] []).
    { unfold carried. rewrite Hx, Hf. reflexivity. }
    simpl in Hk. destruct Hk as [<- | [<- | [<- | []]]]; simpl; rewrite Hc; reflexivity.
Qed.

Lemma C6_load_witness :
  rbind (fst (LocalStorageAdapter_load C6_example.world))
        (fun doc => get_prop doc "products")
    = Ok (JArr [JObj [("id", JStr "p1")]] []) /\
  rbind (fst (LocalStorageAdapter_load C6_example.world))
        (fun doc => get_prop doc "alerts")
    = Ok (JArr [] []).
Proof.
  assert (Hst : stale C6_example.old).
  { exists (JObj [("version", JNum 0)]). split; [reflexivity|].
    right. exists (JNum 0). split; reflexivity. }
  pose proof (C6_load_migrates_stale_document C6_example.world C6_example.old
                eq_refl Hst) as H.
  cbv zeta in H. destruct H as (H1 & _ & _ & Hcopy & _ & Halerts & _).
  rewrite H1. cbn [rbind]. split; [|exact Halerts].
  apply (Hcopy "products"); [left; reflexivity | reflexivity | reflexivity | reflexivity].
Defined.

(* ================================================================== *)
(** ** Export and import *)
(* ================================================================== *)

(** [Array.isArray(parsed.k) ? parsed.k : []]. *)
Definition taken (parsed : Props) (k : string) : JVal :=
  let x := or_undef (lookup k parsed) in
  if is_array x then x else JArr [] [].

(** The document that [importDB(text, false)] builds from the parsed
    object [parsed] in the world [w]. *)
Definition imported (w : World) (parsed : Props) : Props :=
  [("meta", JObj [("version", JNum DB_VERSION);
                  ("createdAt", JStr (clock w (clock_reads w)));
                  ("updatedAt", JStr (clock w (S (clock_reads w))));
                  ("importedAt", JStr (clock w (S (S (clock_reads w)))))]);
   ("products", taken parsed "products");
   ("sales", taken parsed "sales");
   ("purchases", taken parsed "purchases");
   ("alerts", taken parsed "alerts");
   ("users", taken parsed "users")].

Lemma take_array_empty parsed k base :
  lookup k base = Some (JArr [] []) ->
  take_array (JObj parsed) k (JObj base) = Ok (JObj (update k (taken parsed k) base)).
Proof.
  intros Hb. unfold take_array, taken. cbn [get_prop rbind].
  destruct (is_array (or_undef (lookup k parsed))); cbn [set_prop]; [reflexivity|].
  rewrite Hb. reflexivity.
Qed.

Lemma importDB_replace w parsed :
  adapter w = LocalStorageAdapter ->
  importDB (TJson (JObj parsed)) false w
  = (Ok (JObj (imported w parsed)),
     snd (forEach notify (_watchers w)
            (saved (set_clock_reads w (S (S (S (clock_reads w))))) (imported w parsed)))).
Proof.
  intros Ha. unfold importDB. cbn [negb].
  unfold bind at 1. unfold emptyDB at 1.
  unfold bind at 1. unfold Date_toISOString at 1. cbv iota beta.
  unfold bind at 1. unfold Date_toISOString at 1. cbv iota beta.
  unfold ret at 1. cbv iota beta.
  unfold bind at 1. unfold lift at 1. rewrite take_array_empty by reflexivity. cbv iota beta.
  unfold bind at 1. unfold lift at 1. rewrite take_array_empty by reflexivity. cbv iota beta.
  unfold bind at 1. unfold lift at 1. rewrite take_array_empty by reflexivity. cbv iota beta.
  unfold bind at 1. unfold lift at 1. rewrite take_array_empty by reflexivity. cbv iota beta.
  unfold bind at 1. unfold lift at 1. rewrite take_array_empty by reflexivity. cbv iota beta.
  cbn [update String.eqb Ascii.eqb Bool.eqb].
  unfold bind at 1. unfold lift at 1. cbn [get_prop lookup or_undef String.eqb Ascii.eqb Bool.eqb].
  cbv iota beta.
  unfold bind at 1. unfold lift at 1.
  cbn [set_prop js_or truthy update String.eqb Ascii.eqb Bool.eqb]. cbv iota beta.
  unfold bind at 1. unfold set_nested at 1.
  unfold bind at 1. unfold lift at 1.
  cbn [get_prop lookup or_undef String.eqb Ascii.eqb Bool.eqb]. cbv iota beta.
  unfold bind at 1. unfold bind at 1. unfold nowISO, Date_toISOString at 1. cbv iota beta.
  unfold ret at 1. cbv iota beta.
  unfold bind at 1. unfold lift at 1.
  cbn [set_prop update String.eqb Ascii.eqb Bool.eqb]. cbv iota beta.
  unfold lift at 1. cbv iota beta.
  unfold bind at 1.
  match goal with
  | |- context [saveDB (JObj ?fs) ?w1] => rewrite (saveDB_obj w1 fs Ha)
  end.
  reflexivity.
Qed.

(** The file name [exportDB] makes out of the clock's answer. *)
Definition export_filename (iso : string) : string :=
  ("tile-inventory-db-" ++ dash_colon_T (String.substring 0 19 iso) ++ ".json")%string.

Lemma exportDB_document w fs :
  document w fs ->
  exportDB w
  = (Ok (export_filename (clock w (clock_reads w)), TJson (JObj fs)),
     set_downloads (set_clock_reads w (S (clock_reads w)))
       ((export_filename (clock w (clock_reads w)), TJson (JObj fs)) :: downloads w)).
Proof.
  intros Hd. unfold exportDB.
  rewrite (bind_ok _ _ _ _ _ (loadDB_document w fs Hd)).
  destruct Hd as [_ Hn]. unfold JSON_stringify. rewrite Hn.
  reflexivity.
Qed.

Lemma taken_normal fs k : normal (JObj fs) -> normal (taken fs k).
Proof.
  intros Hn. unfold taken. destruct (lookup k fs) as [x|] eqn:E; simpl.
  - destruct (is_array x); [|reflexivity]. eapply normal_lookup; eassumption.
  - reflexivity.
Qed.

Lemma taken_collection fs k :
  is_array (collection k fs) = true -> taken fs k = collection k fs.
Proof.
  unfold taken, collection, js_or.
  destruct (or_undef (lookup k fs)) as [| |b|x|s|es ps|ps]; simpl; try reflexivity;
    try discriminate.
  - destruct b; [discriminate | reflexivity].
  - destruct (negb (is_nan x || is_zero x)); [discriminate | reflexivity].
  - destruct (negb (s =? "")%string); [discriminate | reflexivity].
Qed.

Lemma imported_lookup w fs k :
  In k ["products"; "sales"; "purchases"; "alerts"; "users"] ->
  lookup k (imported w fs) = Some (taken fs k).
Proof.
  simpl. intros [<- | [<- | [<- | [<- | [<- | []]]]]]; reflexivity.
Qed.

(** C7. On a document held in the cache, [exportDB()] followed by
    [importDB] of the exported text with [merge = false] (through the
    localStorage adapter) succeeds, and each of the collections products,
    sales, purchases and alerts (users too) that [_getCollection] gave as an
    array before the export is the same array afterwards: in the document
    [importDB] returns, in the cache, and in what [_getCollection] gives. *)
Theorem C7_export_import_round_trip :
  forall (w : World) (fs : Props),
    document w fs -> adapter w = LocalStorageAdapter ->
    exists filename text w1 doc w2,
      exportDB w = (Ok (filename, text), w1) /\
      importDB text false w1 = (Ok doc, w2) /\
      forall k,
        In k ["products"; "sales"; "purchases"; "alerts"; "users"] ->
        is_array (collection k fs) = true ->
        get_prop doc k = Ok (collection k fs) /\
        get_prop (_dbCache w2) k = Ok (collection k fs) /\
        _getCollection k w2 = (Ok (collection k fs), w2).
Proof.
  intros w fs Hd Ha.
  rewrite (exportDB_document w fs Hd).
  set (w1 := set_downloads (set_clock_reads w (S (clock_reads w)))
              ((export_filename (clock w (clock_reads w)), TJson (JObj fs)) :: downloads w)).
  exists (export_filename (clock w (clock_reads w))), (TJson (JObj fs)), w1.
  assert (Ha1 : adapter w1 = LocalStorageAdapter) by exact Ha.
  rewrite (importDB_replace w1 fs Ha1).
  set (base := imported w1 fs).
  do 2 eexists. split; [reflexivity|]. split; [reflexivity|].
  intros k Hk Harr.
  assert (Hbase : lookup k base = Some (collection k fs)).
  { unfold base. rewrite imported_lookup by exact Hk. f_equal.
    apply taken_collection. exact Harr. }
  assert (Hnc : normal (collection k fs)).
  { rewrite <- (taken_collection fs k Harr). apply taken_normal. apply Hd. }
  assert (Hstored : lookup k (norm_props base) = Some (collection k fs)).
  { eapply lookup_norm_props_some; [exact Hbase | exact Hnc]. }
  split; [|split].
  - cbn [get_prop]. rewrite Hbase. reflexivity.
  - rewrite saved_cache. cbn [get_prop]. rewrite Hstored. reflexivity.
  - erewrite getCollection_document by apply saved_document.
    f_equal. f_equal. unfold collection at 1. rewrite Hstored. cbn [or_undef].
    unfold js_or. destruct (collection k fs); try discriminate. reflexivity.
Qed.

(** The properties of the cached document. *)
Definition cached_fields (w : World) : Props :=
  match _dbCache w with
  | JObj fs => fs
  | _ => []
  end.

Lemma C7_round_trip_witness :
  exists filename text w1 doc w2,
    exportDB Scenario.stocked = (Ok (filename, text), w1) /\
    importDB text false w1 = (Ok doc, w2) /\
    get_prop doc "products" = fst (getAllProducts Scenario.stocked).
Proof.
  destruct (C7_export_import_round_trip Scenario.stocked (cached_fields Scenario.stocked))
    as (filename & text & w1 & doc & w2 & Hexp & Himp & Hsame).
  - split; vm_compute; reflexivity.
  - reflexivity.
  - exists filename, text, w1, doc, w2. split; [exact Hexp|]. split; [exact Himp|].
    destruct (Hsame "products") as [H _].
    + left; reflexivity.
    + vm_compute. reflexivity.
    + rewrite H. vm_compute. reflexivity.
Defined.

(* ================================================================== *)
(** ** js/utils.js: convertUnits *)
(* ================================================================== *)

Module ConvertSpec.
Import Utils.







(** [roundTo] of a number: the number (0 when it is not finite) plus
    [Number.EPSILON], times 1000, rounded to an integer, over 1000. *)
Definition rounded3 (x : float) : float :=
  Math_round (((if Number_isFinite x then x else 0) + Number_EPSILON) * 1000) / 1000.

Lemma roundTo_number x : roundTo (JNum x) = Ok (rounded3 x).
Proof. reflexivity. Qed.


End ConvertSpec.

Import ConvertSpec.





(* ================================================================== *)
(** ** Reconciliation: which counter a unit type reaches *)
(* ================================================================== *)

Module C4_example.
Import Scenario.

(** [currentStock] of the first product, as [getAllProducts] shows it. *)
Definition stock (w : World) : Result JVal :=
  rbind (value getAllProducts w) (fun products =>
  match products with
  | JArr (p :: _) _ => get_prop p "currentStock"
  | _ => Throw TypeError
  end).

Definition triple (boxes pieces sft : float) : Result JVal :=
  Ok (JObj [("boxes", JNum boxes); ("pieces", JNum pieces); ("sft", JNum sft)]).

End C4_example.

(** C4, evaluated on the code.  The product starts with 5 boxes, 40 pieces
    and 60 sft.  The unit types the two if-chains know are matched without
    regard to case and reach their counter.  "sqft", which
    [normalizeUnitName] of utils.js reads as sft, is not in either chain: a
    sale of 3 "sqft" takes 3 pieces and leaves sft alone, a purchase adds 3
    pieces.  "s.f.t" is in the chain of the sale path only: a sale takes it
    from sft, a purchase adds it to pieces. *)
Theorem C4_sqft_reaches_the_piece_counter :
  Utils.normalizeUnitName (Some "sqft") = "sft" /\
  sale_counter (toLowerCase "sqft") = "pieces" /\
  purchase_counter (toLowerCase "sqft") = "pieces" /\
  sale_counter (toLowerCase "s.f.t") = "sft" /\
  purchase_counter (toLowerCase "s.f.t") = "pieces" /\
  C4_example.stock (Scenario.exec (addSale (Scenario.one_line "p1" "sqft" 3)) Scenario.stocked)
    = C4_example.triple 5 37 60 /\
  C4_example.stock (Scenario.exec (addPurchase (Scenario.one_line "p1" "sqft" 3)) Scenario.stocked)
    = C4_example.triple 5 43 60 /\
  C4_example.stock (Scenario.exec (addSale (Scenario.one_line "p1" "s.f.t" 3)) Scenario.stocked)
    = C4_example.triple 5 40 57 /\
  C4_example.stock (Scenario.exec (addPurchase (Scenario.one_line "p1" "s.f.t" 3)) Scenario.stocked)
    = C4_example.triple 5 43 60 /\
  C4_example.stock (Scenario.exec (addSale (Scenario.one_line "p1" "Square Feet" 3)) Scenario.stocked)
    = C4_example.triple 5 40 57 /\
  C4_example.stock (Scenario.exec (addSale (Scenario.one_line "p1" "BOXES" 3)) Scenario.stocked)
    = C4_example.triple 2 40 60 /\
  C4_example.stock (Scenario.exec (addPurchase (Scenario.one_line "p1" "Pieces" 3)) Scenario.stocked)
    = C4_example.triple 5 43 60 /\
  C4_example.stock (Scenario.exec (addSale (Scenario.one_line "p1" "pallet" 3)) Scenario.stocked)
    = C4_example.triple 5 37 60.
Proof. vm_compute. repeat split; reflexivity. Qed.

(* ================================================================== *)
(** ** Reconciliation: the loop over the line items *)
(* ================================================================== *)

Lemma foldM_app {A B} (f : A -> B -> M A) l1 l2 a w :
  foldM f (l1 ++ l2) a w = (a' <- foldM f l1 a ;; foldM f l2 a') w.
Proof.
  revert a w. induction l1 as [|b r IH]; intros a w; simpl; [reflexivity|].
  unfold bind in *. destruct (f a b w) as [[a'|e] w1]; [|reflexivity].
  apply IH.
Qed.

Lemma set_prop_get_other v k x v' k' :
  set_prop v k x = Ok v' -> String.eqb k' k = false -> get_prop v' k' = get_prop v k'.
Proof.
  intros H Hk. destruct v; simpl in H; try discriminate; injection H as <-; simpl;
    try reflexivity; rewrite (lookup_update_other _ _ _ _ Hk); reflexivity.
Qed.

Lemma rbind_ok {A B} (r : Result A) (f : A -> Result B) b :
  rbind r f = Ok b -> exists a, r = Ok a /\ f a = Ok b.
Proof. destruct r as [a|e]; simpl; [eauto | discriminate]. Qed.

(** The stock arithmetic leaves every property of the product but
    [currentStock] alone. *)
Lemma adjust_counter_get product k f product' k' :
  adjust_counter product k f = Ok product' -> String.eqb k' "currentStock" = false ->
  get_prop product' k' = get_prop product k'.
Proof.
  unfold adjust_counter. intros H Hk.
  apply rbind_ok in H. destruct H as (cs & _ & H).
  apply rbind_ok in H. destruct H as (x & _ & H).
  apply rbind_ok in H. destruct H as (n & _ & H).
  apply rbind_ok in H. destruct H as (cs' & _ & H).
  eapply set_prop_get_other; eassumption.
Qed.

Lemma round_counters_get product product' k' :
  round_counters product = Ok product' -> String.eqb k' "currentStock" = false ->
  get_prop product' k' = get_prop product k'.
Proof.
  unfold round_counters. intros H Hk.
  apply rbind_ok in H. destruct H as (p1 & H1 & H).
  apply rbind_ok in H. destruct H as (p2 & H2 & H3).
  rewrite (adjust_counter_get _ _ _ _ _ H3 Hk), (adjust_counter_get _ _ _ _ _ H2 Hk).
  apply (adjust_counter_get _ _ _ _ _ H1 Hk).
Qed.

Lemma apply_line_get counter delta product item product' k' :
  apply_line counter delta product item = Ok product' ->
  String.eqb k' "currentStock" = false ->
  get_prop product' k' = get_prop product k'.
Proof.
  unfold apply_line. intros H Hk.
  apply rbind_ok in H. destruct H as (qty & _ & H).
  apply rbind_ok in H. destruct H as (u & _ & H).
  apply rbind_ok in H. destruct H as (cs & _ & H).
  apply rbind_ok in H. destruct H as (p1 & H1 & H).
  apply rbind_ok in H. destruct H as (p2 & H2 & H3).
  rewrite (round_counters_get _ _ _ H3 Hk), (adjust_counter_get _ _ _ _ _ H2 Hk).
  apply (set_prop_get_other _ _ _ _ _ H1 Hk).
Qed.

(** Where [find] stops depends on the elements only through the
    predicate. *)
Definition found_index (r : Result (option (nat * JVal))) : Result (option nat) :=
  rbind r (fun o => Ok (option_map fst o)).

Lemma find_from_replace pred es i x x' j :
  nth_error es i = Some x -> pred x' = pred x ->
  found_index (find_from pred (replace_nth i x' es) j)
  = found_index (find_from pred es j).
Proof.
  revert i j. induction es as [|y r IH]; intros i j Hn Hp; [destruct i; discriminate|].
  destruct i as [|i]; simpl in Hn.
  - injection Hn as ->. simpl. rewrite Hp. destruct (pred x) as [[|]|]; reflexivity.
  - simpl. destruct (pred y) as [[|]|]; try reflexivity. apply IH; assumption.
Qed.

Lemma find_from_nth pred es j i x :
  find_from pred es j = Ok (Some (i, x)) ->
  exists n, i = (j + n)%nat /\ nth_error es n = Some x.
Proof.
  revert j. induction es as [|y r IH]; intros j; simpl; [discriminate|].
  destruct (pred y) as [[|]|]; try discriminate.
  - intros H. injection H as <- <-. exists 0%nat. split; [lia | reflexivity].
  - intros H. destruct (IH _ H) as (n & -> & Hn). exists (S n). split; [lia | exact Hn].
Qed.

Lemma found_index_none r : found_index r = Ok None <-> r = Ok None.
Proof.
  unfold found_index. destruct r as [[[i x]|]|]; simpl; split; intros H;
    try discriminate; reflexivity.
Qed.

Lemma matches_item_same_id item p p' :
  get_prop p' "id" = get_prop p "id" -> matches_item item p' = matches_item item p.
Proof. unfold matches_item. intros ->. reflexivity. Qed.

Lemma find_store_at products i product product' item0 item :
  find products (matches_item item0) = Ok (Some (i, product)) ->
  get_prop product' "id" = get_prop product "id" ->
  found_index (find (store_at products i product') (matches_item item))
  = found_index (find products (matches_item item)).
Proof.
  destruct products as [| | | | |es ps|]; try reflexivity.
  cbn [find store_at]. intros Hf Hid.
  destruct (find_from_nth _ _ _ _ _ Hf) as (n & -> & Hn).
  apply find_from_replace with (x := product); [exact Hn|].
  apply matches_item_same_id. exact Hid.
Qed.

(** The ways a round of the sale loop can end well: the array is the one
    it started with, or one product in it has had its stock changed. *)
Lemma sale_item_ok products item w products' w' :
  sale_item products item w = (Ok products', w') ->
  products' = products \/
  exists i product product',
    find products (matches_item item) = Ok (Some (i, product)) /\
    apply_line sale_counter PrimFloat.sub product item = Ok product' /\
    products' = store_at products i product'.
Proof.
  unfold sale_item, bind, lift, console_log, ret.
  destruct (find products (matches_item item)) as [[[i product]|]|] eqn:Ef; try discriminate.
  - destruct (truthy product); cbn [negb].
    + destruct (apply_line sale_counter PrimFloat.sub product item) as [product'|] eqn:Ea;
        try discriminate.
      destruct (number_field product' "minStock") as [min|]; try discriminate.
      destruct (threshold_test PrimFloat.leb product' min) as [low|]; try discriminate.
      destruct ((if low then raise_alert product' min else fun w0 => (Ok tt, w0)) w)
        as [[[]|] w1]; try discriminate.
      intros H. injection H as <- <-. right. exists i, product, product'. auto.
    + intros H. injection H as <- <-. left. reflexivity.
  - intros H. injection H as <- <-. left. reflexivity.
Qed.

Lemma sale_item_keeps_lookup products item w products' w' item0 :
  sale_item products item w = (Ok products', w') ->
  found_index (find products' (matches_item item0))
  = found_index (find products (matches_item item0)).
Proof.
  intros H. destruct (sale_item_ok _ _ _ _ _ H) as [-> | (i & p & p' & Hf & Ha & ->)];
    [reflexivity|].
  eapply find_store_at; [exact Hf|].
  eapply apply_line_get; [exact Ha | reflexivity].
Qed.

Lemma sale_loop_keeps_lookup items products w products' w' item0 :
  foldM sale_item items products w = (Ok products', w') ->
  found_index (find products' (matches_item item0))
  = found_index (find products (matches_item item0)).
Proof.
  revert products w. induction items as [|it r IH]; intros products w; simpl.
  - intros H. injection H as <- <-. reflexivity.
  - unfold bind. destruct (sale_item products it w) as [[p1|e] w1] eqn:E; [|discriminate].
    intros H. rewrite (IH _ _ H). eapply sale_item_keeps_lookup. exact E.
Qed.

(** The world after [console.warn('Product not found for sale item', item)]. *)
Definition warned_missing (w : World) : World :=
  set_console w ((Lwarn, "Product not found for sale item") :: console w).

Lemma sale_item_missing products item w :
  find products (matches_item item) = Ok None ->
  sale_item products item w = (Ok products, warned_missing w).
Proof. intros H. unfold sale_item, bind, lift. rewrite H. reflexivity. Qed.

Module C5_example.
Import Scenario.

(** A sale of four boxes of "p1", with a line before it for a product that
    does not exist. *)
Definition ghost : JVal := line "ghost" "Box" 9.
Definition real : JVal := line "p1" "Box" 4.
Definition sale : JVal := JObj [("items", JArr [ghost; real] [])].

End C5_example.

(** C5. A line item whose [productId] matches no product ([find] goes
    through the products and returns nothing) costs a warning on the
    console and nothing else: its round of the loop throws nothing and
    hands on the very array of products it was given, in a world that
    differs only by the warning; and the reconciliation of a sale that
    holds such an item between the items [pre] and [post] is the
    reconciliation of [pre] and [post] with that warning in between, so the
    items after it are processed and their stock changes are saved. *)
Theorem C5_missing_product_is_skipped :
  forall (w : World) (fs : Props) (sale : JVal) (pre post : list JVal)
         (item : JVal) (ps : Props),
    document w fs ->
    truthy sale = true ->
    get_prop sale "items" = Ok (JArr (pre ++ item :: post) ps) ->
    find (collection "products" fs) (matches_item item) = Ok None ->
    (forall products w0,
        foldM sale_item pre (collection "products" fs) w = (Ok products, w0) ->
        sale_item products item w0 = (Ok products, warned_missing w0)) /\
    _applyStockChangesFromSale sale w
    = (products <- _getCollection "products" ;;
       products <- foldM sale_item pre products ;;
       console_log Lwarn "Product not found for sale item" ;;
       products <- foldM sale_item post products ;;
       _saveCollection "products" products ;; ret tt) w.
Proof.
  intros w fs sale pre post item ps Hd Hs Hitems Hfind.
  assert (Hstep : forall products w0,
             foldM sale_item pre (collection "products" fs) w = (Ok products, w0) ->
             sale_item products item w0 = (Ok products, warned_missing w0)).
  { intros products w0 Hpre. apply sale_item_missing.
    apply found_index_none.
    rewrite (sale_loop_keeps_lookup _ _ _ _ _ item Hpre).
    apply found_index_none. exact Hfind. }
  split; [exact Hstep|].
  unfold _applyStockChangesFromSale. rewrite Hs. cbn [negb].
  unfold bind at 1. unfold lift at 1. rewrite Hitems.
  rewrite !(bind_ok _ _ _ _ _ (getCollection_document w fs "products" Hd)).
  unfold bind. rewrite foldM_app. unfold bind.
  destruct (foldM sale_item pre (collection "products" fs) w) as [[p1|e] w1] eqn:Epre;
    [|reflexivity].
  cbn [foldM]. unfold bind. rewrite (Hstep p1 w1 eq_refl).
  reflexivity.
Qed.

Lemma C5_missing_product_witness :
  fst (_applyStockChangesFromSale C5_example.sale Scenario.stocked) = Ok tt /\
  C4_example.stock
    (Scenario.exec (_applyStockChangesFromSale C5_example.sale) Scenario.stocked)
    = C4_example.triple 1 40 60.
Proof.
  destruct (C5_missing_product_is_skipped Scenario.stocked
              (cached_fields Scenario.stocked) C5_example.sale
              [] [C5_example.real] C5_example.ghost [])
    as [_ H].
  - split; vm_compute; reflexivity.
  - reflexivity.
  - reflexivity.
  - vm_compute. reflexivity.
  - unfold Scenario.exec. rewrite H. vm_compute. split; reflexivity.
Defined.

(* ================================================================== *)
(** ** Invariants of the cached and the stored document *)
(* ================================================================== *)

(** [hoare P m Q E]: started in a world where [P] holds, [m] ends with a
    value [a] in a world where [Q a] holds, or throws in a world where [E]
    holds. *)
Definition hoare {A} (P : World -> Prop) (m : M A)
    (Q : A -> World -> Prop) (E : World -> Prop) : Prop :=
  forall w, P w ->
    match m w with
    | (Ok a, w') => Q a w'
    | (Throw _, w') => E w'
    end.

(** [m] keeps [I], however it ends. *)
Definition preserves {A} (I : World -> Prop) (m : M A) : Prop :=
  hoare I m (fun _ => I) I.

Lemma hoare_bind {A B} P (m : M A) Q (f : A -> M B) R E :
  hoare P m Q E -> (forall a, hoare (Q a) (f a) R E) -> hoare P (x <- m ;; f x) R E.
Proof.
  intros Hm Hf w HP. unfold bind. specialize (Hm w HP).
  destruct (m w) as [[a|e] w1]; [|exact Hm]. apply (Hf a). exact Hm.
Qed.

Lemma preserves_bind {A B} I (m : M A) (f : A -> M B) :
  preserves I m -> (forall a, preserves I (f a)) -> preserves I (x <- m ;; f x).
Proof. intros Hm Hf. eapply hoare_bind; [exact Hm | exact Hf]. Qed.

Lemma preserves_ret {A} I (a : A) : preserves I (ret a).
Proof. intros w H. exact H. Qed.

Lemma preserves_lift {A} I (r : Result A) : preserves I (lift r).
Proof. intros w H. unfold lift. destruct r; exact H. Qed.

Lemma preserves_throw {A} I e : preserves I (@throw A e).
Proof. intros w H. exact H. Qed.

Lemma preserves_try_catch {A} I (m : M A) h :
  preserves I m -> (forall e, preserves I (h e)) -> preserves I (try_catch m h).
Proof.
  intros Hm Hh w H. unfold try_catch. specialize (Hm w H).
  destruct (m w) as [[a|e] w1]; [exact Hm|]. apply (Hh e). exact Hm.
Qed.

Lemma preserves_foldM {A B} I (f : A -> B -> M A) l a :
  (forall a b, preserves I (f a b)) -> preserves I (foldM f l a).
Proof.
  intros Hf. revert a. induction l as [|b r IH]; intros a; simpl.
  - apply preserves_ret.
  - apply preserves_bind; [apply Hf | exact IH].
Qed.

Lemma preserves_if {A} I (b : bool) (m1 m2 : M A) :
  preserves I m1 -> preserves I m2 -> preserves I (if b then m1 else m2).
Proof. destruct b; auto. Qed.

(** The cache holds a document; [Phi] speaks of its properties and of the
    text in localStorage. *)
Definition inv (Phi : Props -> option Text -> Prop) (w : World) : Prop :=
  exists fs, document w fs /\ Phi fs (localStorage w).

Lemma preserves_generateId Phi prefix : preserves (inv Phi) (generateId prefix).
Proof. intros w H. exact H. Qed.

Lemma preserves_nowISO Phi : preserves (inv Phi) nowISO.
Proof. intros w H. exact H. Qed.

Lemma preserves_console_log Phi l msg : preserves (inv Phi) (console_log l msg).
Proof. intros w H. exact H. Qed.

Lemma preserves_getCollection Phi name : preserves (inv Phi) (_getCollection name).
Proof.
  intros w (fs & Hd & H). rewrite (getCollection_document w fs name Hd).
  exists fs. split; assumption.
Qed.

(** How [_saveCollection] ends on a document. *)
Lemma saveCollection_cases w fs name c :
  document w fs ->
  (adapter w = LocalStorageAdapter /\
   _saveCollection name c w
   = (Ok true, snd (forEach notify (_watchers w) (saved w (update name c fs)))))
  \/ (exists e, _saveCollection name c w = (Throw e, w)).
Proof.
  intros Hd. destruct (adapter w) eqn:Ha.
  - left. split; [reflexivity|]. apply (saveCollection_document w fs name c Hd Ha).
  - right. eexists. apply (saveCollection_dummy w fs name c Hd Ha).
Qed.

(** The text that a save writes. *)
Definition saved_text (w : World) (fs : Props) : option Text :=
  Some (JSON_stringify (stamped fs (clock w (clock_reads w)))).

Lemma saved_localStorage ws w fs :
  localStorage (snd (forEach notify ws (saved w fs))) = saved_text w fs.
Proof.
  pose proof (saved_core ws w fs) as H. apply core_fields in H.
  destruct H as (H & _). rewrite H. reflexivity.
Qed.

(** [Phi] survives every save of the collection [name]. *)
Definition save_stable (Phi : Props -> option Text -> Prop) (name : string) : Prop :=
  forall fs ls c w,
    normal (JObj fs) -> Phi fs ls ->
    Phi (norm_props (update name c fs)) (saved_text w (update name c fs)).

Lemma preserves_saveCollection Phi name c :
  save_stable Phi name -> preserves (inv Phi) (_saveCollection name c).
Proof.
  intros Hst w (fs & Hd & H).
  destruct (saveCollection_cases w fs name c Hd) as [[Ha ->] | [e ->]].
  - exists (norm_props (update name c fs)). split; [apply saved_document|].
    rewrite saved_localStorage. apply (Hst fs (localStorage w) c w); [apply Hd | exact H].
  - exists fs. split; assumption.
Qed.

Lemma lookup_norm_props_update_other k k' v ps :
  String.eqb k k' = false ->
  lookup k (norm_props (update k' v ps)) = lookup k (norm_props ps).
Proof.
  intros Hk. induction ps as [|[k1 x] r IH]; simpl.
  - destruct (json_norm v); simpl; [rewrite Hk|]; reflexivity.
  - destruct (String.eqb k' k1) eqn:E; simpl.
    + apply String.eqb_eq in E. subst k1.
      destruct (json_norm v), (json_norm x); simpl; rewrite ?Hk; reflexivity.
    + destruct (json_norm x); simpl; [|exact IH].
      destruct (String.eqb k k1); [reflexivity | exact IH].
Qed.

Lemma norm_props_idem ps : norm_props (norm_props ps) = norm_props ps.
Proof. apply normal_obj. apply (json_norm_normal (JObj ps)). apply json_norm_obj. Qed.

(** The properties of the document that a text holds. *)
Definition text_fields (t : option Text) : Props :=
  match t with
  | Some (TJson (JObj fs)) => fs
  | _ => []
  end.

Lemma saved_text_lookup w fs k :
  String.eqb k "meta" = false ->
  lookup k (text_fields (saved_text w fs)) = lookup k (norm_props fs).
Proof.
  intros Hk. unfold saved_text, stamped, JSON_stringify. rewrite json_norm_obj.
  cbn [text_fields].
  rewrite !(lookup_norm_props_update_other _ _ _ _ Hk).
  rewrite norm_props_idem. reflexivity.
Qed.

(** The collection [k] is [X], in the cache and in localStorage. *)
Definition holds_collection (k : string) (X : JVal) (fs : Props) (ls : option Text) : Prop :=
  lookup k fs = Some X /\ lookup k (text_fields ls) = Some X.

Lemma holds_collection_stable k X name :
  String.eqb k name = false -> String.eqb k "meta" = false ->
  save_stable (holds_collection k X) name.
Proof.
  intros Hk Hm fs ls c w Hn [H1 _].
  assert (H : lookup k (norm_props (update name c fs)) = Some X).
  { rewrite (lookup_norm_props_update_other _ _ _ _ Hk).
    apply normal_obj in Hn. rewrite Hn. exact H1. }
  split; [exact H|]. rewrite (saved_text_lookup _ _ _ Hm). exact H.
Qed.

Ltac preserve_step :=
  first
    [ apply preserves_ret
    | apply preserves_lift
    | apply preserves_throw
    | apply preserves_generateId
    | apply preserves_nowISO
    | apply preserves_console_log
    | apply preserves_getCollection
    | match goal with
      | |- preserves _ (bind _ _) => apply preserves_bind; [|intros]
      | |- preserves _ (if ?b then _ else _) => destruct b
      | |- preserves _ (match ?x with _ => _ end) => destruct x
      end ].

(** A document invariant that survives the saves of products and of alerts
    survives the reconciliation of a sale and of a purchase. *)
Section Reconciliation_preserves.
Variable Phi : Props -> option Text -> Prop.
Hypothesis Hproducts : save_stable Phi "products".
Hypothesis Halerts : save_stable Phi "alerts".

Lemma preserves_raise_alert product min : preserves (inv Phi) (raise_alert product min).
Proof.
  unfold raise_alert.
  repeat first [apply preserves_saveCollection; exact Halerts | preserve_step].
Qed.

Lemma preserves_sale_item products item : preserves (inv Phi) (sale_item products item).
Proof.
  unfold sale_item.
  repeat first [apply preserves_raise_alert | preserve_step].
Qed.

Lemma preserves_sale_reconciliation sale :
  preserves (inv Phi) (_applyStockChangesFromSale sale).
Proof.
  unfold _applyStockChangesFromSale.
  repeat first [apply preserves_foldM; intros; apply preserves_sale_item
               | apply preserves_saveCollection; exact Hproducts
               | preserve_step].
Qed.

Lemma preserves_resolve_if_open product acc a :
  preserves (inv Phi) (resolve_if_open product acc a).
Proof. unfold resolve_if_open. repeat preserve_step. Qed.

Lemma preserves_resolve_alerts product : preserves (inv Phi) (resolve_alerts product).
Proof.
  unfold resolve_alerts.
  repeat first [apply preserves_foldM; intros; apply preserves_resolve_if_open
               | apply preserves_saveCollection; exact Halerts
               | preserve_step].
Qed.

Lemma preserves_purchase_item products item :
  preserves (inv Phi) (purchase_item products item).
Proof.
  unfold purchase_item.
  repeat first [apply preserves_resolve_alerts | preserve_step].
Qed.

Lemma preserves_purchase_reconciliation purchase :
  preserves (inv Phi) (_applyStockChangesFromPurchase purchase).
Proof.
  unfold _applyStockChangesFromPurchase.
  repeat first [apply preserves_foldM; intros; apply preserves_purchase_item
               | apply preserves_saveCollection; exact Hproducts
               | preserve_step].
Qed.

End Reconciliation_preserves.

(* ================================================================== *)
(** ** addSale and addPurchase: the record comes first *)
(* ================================================================== *)

Lemma record_sale_document w fs saleData es :
  document w fs -> adapter w = LocalStorageAdapter ->
  collection "sales" fs = JArr es [] ->
  let sale := JObj (new_sale ("sale_" ++ random w (random_reads w))%string
                             (clock w (clock_reads w)) saleData) in
  record_sale saleData w
  = (Ok sale,
     snd (forEach notify (_watchers w)
            (saved (ticked w) (update "sales" (JArr (es ++ [sale]) []) fs)))).
Proof.
  intros Hd Ha Ec.
  exact (append_record_document (fun id d => new_sale id d saleData)
           "sales" "sale" w fs es Hd Ha Ec).
Qed.

Lemma record_purchase_document w fs purchaseData es :
  document w fs -> adapter w = LocalStorageAdapter ->
  collection "purchases" fs = JArr es [] ->
  let purchase := JObj (new_purchase ("pur_" ++ random w (random_reads w))%string
                                     (clock w (clock_reads w)) purchaseData) in
  record_purchase purchaseData w
  = (Ok purchase,
     snd (forEach notify (_watchers w)
            (saved (ticked w) (update "purchases" (JArr (es ++ [purchase]) []) fs)))).
Proof.
  intros Hd Ha Ec.
  exact (append_record_document (fun id d => new_purchase id d purchaseData)
           "purchases" "pur" w fs es Hd Ha Ec).
Qed.

(** After a record has been appended to the collection [k] and saved, the
    collection is the old one with the record (as JSON keeps it) at its
    end, in the cache and in localStorage. *)
Lemma appended_holds ws w fs k es x :
  normal (JObj fs) -> Forall normal es -> String.eqb k "meta" = false ->
  inv (holds_collection k (JArr (es ++ [norm_elem (JObj x)]) []))
      (snd (forEach notify ws (saved w (update k (JArr (es ++ [JObj x]) []) fs)))).
Proof.
  intros Hn Hes Hm. eexists. split; [apply saved_document|].
  rewrite saved_localStorage.
  assert (H : lookup k (norm_props (update k (JArr (es ++ [JObj x]) []) fs))
              = Some (JArr (es ++ [norm_elem (JObj x)]) [])).
  { apply lookup_saved_push; [exact Hes | apply json_norm_obj]. }
  split.
  - exact H.
  - rewrite (saved_text_lookup _ _ _ Hm). exact H.
Qed.

(** The world after the [console.warn] of the catch block. *)
Definition warned (msg : string) (w : World) : World :=
  set_console w ((Lwarn, msg) :: console w).

(** The shape [addSale] and [addPurchase] share: record, then reconcile
    inside [try]/[catch], then return the record. *)
Lemma record_then_reconcile (record : M JVal) (reconcile : JVal -> M unit) msg
      w x w1 :
  record w = (Ok x, w1) ->
  (x <- record ;;
   try_catch (reconcile x) (fun e => console_log Lwarn msg) ;;
   ret x) w
  = (Ok x, match reconcile x w1 with
           | (Ok _, w2) => w2
           | (Throw _, w2) => warned msg w2
           end).
Proof.
  intros Hr. rewrite (bind_ok _ _ _ _ _ Hr).
  unfold bind, try_catch, console_log, ret, warned.
  destruct (reconcile x w1) as [[[]|e] w2]; reflexivity.
Qed.

Lemma append_record_ok (mk : string -> string -> Props) name prefix w fs x w1 :
  document w fs ->
  (list <- _getCollection name ;;
   id <- generateId prefix ;;
   date <- nowISO ;;
   list <- lift (push list (JObj (mk id date))) ;;
   _saveCollection name list ;;
   ret (JObj (mk id date))) w = (Ok x, w1) ->
  adapter w = LocalStorageAdapter /\ exists es, collection name fs = JArr es [].
Proof.
  intros Hd.
  rewrite (bind_ok _ _ _ _ _ (getCollection_document w fs name Hd)).
  unfold bind at 1. unfold generateId at 1. cbv iota beta.
  unfold bind at 1. unfold nowISO, Date_toISOString at 1. cbv iota beta.
  unfold bind at 1. unfold lift at 1.
  destruct (collection name fs) as [| | | | |es ps|] eqn:Ec; cbn [push]; try discriminate.
  destruct (collection_array w fs name es ps Hd Ec) as [-> _].
  change (set_clock_reads _ _) with (ticked w).
  destruct (adapter w) eqn:Ha.
  - intros _. split; [reflexivity | eauto].
  - unfold bind at 1.
    rewrite (saveCollection_dummy (ticked w) fs name _ (document_ticked w fs Hd) Ha).
    discriminate.
Qed.

Lemma record_sale_ok w fs saleData sale w1 :
  document w fs -> record_sale saleData w = (Ok sale, w1) ->
  exists es,
    Forall normal es /\
    inv (holds_collection "sales" (JArr (es ++ [norm_elem sale]) [])) w1.
Proof.
  intros Hd Hr.
  destruct (append_record_ok (fun id d => new_sale id d saleData) "sales" "sale"
              w fs sale w1 Hd Hr) as (Ha & es & Ec).
  rewrite (record_sale_document w fs saleData es Hd Ha Ec) in Hr.
  injection Hr as <- <-.
  destruct (collection_array w fs "sales" es [] Hd Ec) as [_ Hes].
  exists es. split; [exact Hes|].
  apply appended_holds; [apply Hd | exact Hes | reflexivity].
Qed.

Lemma record_purchase_ok w fs purchaseData purchase w1 :
  document w fs -> record_purchase purchaseData w = (Ok purchase, w1) ->
  exists es,
    Forall normal es /\
    inv (holds_collection "purchases" (JArr (es ++ [norm_elem purchase]) [])) w1.
Proof.
  intros Hd Hr.
  destruct (append_record_ok (fun id d => new_purchase id d purchaseData) "purchases" "pur"
              w fs purchase w1 Hd Hr) as (Ha & es & Ec).
  rewrite (record_purchase_document w fs purchaseData es Hd Ha Ec) in Hr.
  injection Hr as <- <-.
  destruct (collection_array w fs "purchases" es [] Hd Ec) as [_ Hes].
  exists es. split; [exact Hes|].
  apply appended_holds; [apply Hd | exact Hes | reflexivity].
Qed.

Module C3_example.
Import Scenario.

(** A sale whose line has a number where the unit type should be:
    [(5).toLowerCase] is not a function, and the reconciliation throws. *)
Definition bad_sale : Props :=
  [("items", JArr [JObj [("productId", JStr "p1"); ("quantity", JNum 1);
                         ("unitType", JNum 5)]] [])].

Definition recorded : World := exec (record_sale bad_sale) stocked.
Definition the_sale : Result JVal := value (record_sale bad_sale) stocked.

End C3_example.

(** C3. Once the first half of [addSale] has persisted the record, a
    reconciliation that throws does not make [addSale] fail: the exception
    is caught, a warning is written to the console, the sale object is
    returned, and the sales collection, in the cache and in localStorage,
    still ends with the record, after the sales there were before.  The
    same holds of [addPurchase] and the purchases collection. *)
Theorem C3_record_survives_failed_reconciliation :
  forall (w : World) (fs data : Props) (record : JVal) (w1 w2 : World) (e : Exn),
    document w fs ->
    (record_sale data w = (Ok record, w1) ->
     _applyStockChangesFromSale record w1 = (Throw e, w2) ->
     let final := warned "Stock update after sale failed:" w2 in
     addSale data w = (Ok record, final) /\
     console final = (Lwarn, "Stock update after sale failed:") :: console w2 /\
     exists es,
       collection "sales" fs = JArr es [] /\
       lookup "sales" (cached_fields final) = Some (JArr (es ++ [norm_elem record]) []) /\
       lookup "sales" (text_fields (localStorage final))
         = Some (JArr (es ++ [norm_elem record]) []))
    /\
    (record_purchase data w = (Ok record, w1) ->
     _applyStockChangesFromPurchase record w1 = (Throw e, w2) ->
     let final := warned "Stock update after purchase failed:" w2 in
     addPurchase data w = (Ok record, final) /\
     console final = (Lwarn, "Stock update after purchase failed:") :: console w2 /\
     exists es,
       collection "purchases" fs = JArr es [] /\
       lookup "purchases" (cached_fields final)
         = Some (JArr (es ++ [norm_elem record]) []) /\
       lookup "purchases" (text_fields (localStorage final))
         = Some (JArr (es ++ [norm_elem record]) [])).
Proof.
  intros w fs data record w1 w2 e Hd. split.
  - intros Hr Hfail final.
    split.
    { unfold addSale.
      rewrite (record_then_reconcile (record_sale data) _ _ w record w1 Hr).
      rewrite Hfail. reflexivity. }
    split; [reflexivity|].
    destruct (append_record_ok (fun id d => new_sale id d data) "sales" "sale"
                w fs record w1 Hd Hr) as (Ha & es & Ec).
    exists es. split; [exact Ec|].
    assert (Hinv : inv (holds_collection "sales" (JArr (es ++ [norm_elem record]) [])) w1).
    { rewrite (record_sale_document w fs data es Hd Ha Ec) in Hr.
      injection Hr as <- <-.
      destruct (collection_array w fs "sales" es [] Hd Ec) as [_ Hes].
      apply appended_holds; [apply Hd | exact Hes | reflexivity]. }
    pose proof (preserves_sale_reconciliation _
                  (holds_collection_stable "sales" _ "products" eq_refl eq_refl)
                  (holds_collection_stable "sales" _ "alerts" eq_refl eq_refl)
                  record w1 Hinv) as H.
    rewrite Hfail in H. destruct H as (fs2 & [Hc2 _] & H1 & H2).
    unfold final, cached_fields, warned. cbn [_dbCache localStorage set_console].
    rewrite Hc2. split; assumption.
  - intros Hr Hfail final.
    split.
    { unfold addPurchase.
      rewrite (record_then_reconcile (record_purchase data) _ _ w record w1 Hr).
      rewrite Hfail. reflexivity. }
    split; [reflexivity|].
    destruct (append_record_ok (fun id d => new_purchase id d data) "purchases" "pur"
                w fs record w1 Hd Hr) as (Ha & es & Ec).
    exists es. split; [exact Ec|].
    assert (Hinv : inv (holds_collection "purchases"
                          (JArr (es ++ [norm_elem record]) [])) w1).
    { rewrite (record_purchase_document w fs data es Hd Ha Ec) in Hr.
      injection Hr as <- <-.
      destruct (collection_array w fs "purchases" es [] Hd Ec) as [_ Hes].
      apply appended_holds; [apply Hd | exact Hes | reflexivity]. }
    pose proof (preserves_purchase_reconciliation _
                  (holds_collection_stable "purchases" _ "products" eq_refl eq_refl)
                  (holds_collection_stable "purchases" _ "alerts" eq_refl eq_refl)
                  record w1 Hinv) as H.
    rewrite Hfail in H. destruct H as (fs2 & [Hc2 _] & H1 & H2).
    unfold final, cached_fields, warned. cbn [_dbCache localStorage set_console].
    rewrite Hc2. split; assumption.
Qed.

Lemma C3_failed_reconciliation_witness :
  Scenario.value (addSale C3_example.bad_sale) Scenario.stocked = C3_example.the_sale /\
  console (Scenario.exec (addSale C3_example.bad_sale) Scenario.stocked)
    = [(Lwarn, "Stock update after sale failed:")] /\
  rbind (Scenario.value getAllSales
           (Scenario.exec (addSale C3_example.bad_sale) Scenario.stocked))
        (fun sales => Ok (is_array sales))
    = Ok true.
Proof.
  pose (record := match C3_example.the_sale with Ok r => r | Throw _ => JNull end).
  pose (w2 := Scenario.exec (_applyStockChangesFromSale record) C3_example.recorded).
  destruct (C3_record_survives_failed_reconciliation
              Scenario.stocked (cached_fields Scenario.stocked) C3_example.bad_sale
              record C3_example.recorded w2 TypeError) as [Hsale _].
  - split; vm_compute; reflexivity.
  - destruct (Hsale ltac:(vm_compute; reflexivity) ltac:(vm_compute; reflexivity))
      as (Hadd & Hlog & _).
    unfold Scenario.value, Scenario.exec. rewrite Hadd. cbn [fst snd].
    split; [vm_compute; reflexivity|]. split; [vm_compute; reflexivity|].
    vm_compute. reflexivity.
Defined.

(* ================================================================== *)
(** ** Strict equality *)
(* ================================================================== *)

Lemma SFeqb_finite s1 m1 e1 s2 m2 e2 :
  SFeqb (S754_finite s1 m1 e1) (S754_finite s2 m2 e2) = true ->
  s1 = s2 /\ m1 = m2 /\ e1 = e2.
Proof.
  unfold SFeqb, SFcompare.
  change (Pos.compare_cont Eq m1 m2) with (Pos.compare m1 m2).
  destruct s1, s2; try discriminate;
    destruct (Z.compare e1 e2) eqn:Ee; try discriminate;
    destruct (Pos.compare m1 m2) eqn:Em; try discriminate;
    intros _; apply Z.compare_eq in Ee; apply Pos.compare_eq in Em; auto.
Qed.

Lemma SFeqb_finite_refl s m e : SFeqb (S754_finite s m e) (S754_finite s m e) = true.
Proof.
  unfold SFeqb, SFcompare.
  change (Pos.compare_cont Eq m m) with (Pos.compare m m).
  rewrite Z.compare_refl, Pos.compare_refl. destruct s; reflexivity.
Qed.

(** Two spec floats equal to a third are equal to each other. *)
Lemma SFeqb_euclid a b c :
  SFeqb a c = true -> SFeqb b c = true -> SFeqb a b = true.
Proof.
  destruct a as [sa|sa| |sa ma ea], b as [sb|sb| |sb mb eb], c as [sc|sc| |sc mc ec];
    try discriminate; try reflexivity;
    try (destruct sa, sb, sc; discriminate || reflexivity);
    try (destruct sa; discriminate); try (destruct sb; discriminate).
  intros H1 H2. apply SFeqb_finite in H1. apply SFeqb_finite in H2.
  destruct H1 as (-> & -> & ->), H2 as (-> & -> & ->). apply SFeqb_finite_refl.
Qed.

Lemma float_eqb_euclid x y z :
  PrimFloat.eqb x z = true -> PrimFloat.eqb y z = true -> PrimFloat.eqb x y = true.
Proof. rewrite !FloatAxioms.eqb_spec. apply SFeqb_euclid. Qed.

(** [a === p] and [b === p] give [a === b]. *)
Lemma strict_equals_euclid a b p :
  strict_equals a p = true -> strict_equals b p = true -> strict_equals a b = true.
Proof.
  destruct a, b, p; simpl; try discriminate; try reflexivity.
  - destruct b, b0, b1; simpl; discriminate || reflexivity.
  - apply float_eqb_euclid.
  - intros H1 H2. apply String.eqb_eq in H1, H2. subst. apply String.eqb_refl.
Qed.

(* ================================================================== *)
(** ** Alerts: at most one open alert per product *)
(* ================================================================== *)

(** The alert record [a] is unresolved and belongs to the product with
    identifier [pid]. *)
Definition is_open_alert (pid a : JVal) : bool :=
  match a with
  | JObj ps =>
      strict_equals (or_undef (lookup "productId" ps)) pid
      && negb (truthy (or_undef (lookup "resolved" ps)))
  | _ => false
  end.

(** The entries of the alerts collection of a document. *)
Definition alert_list (fs : Props) : list JVal :=
  match or_undef (lookup "alerts" fs) with
  | JArr es _ => es
  | _ => []
  end.

Definition open_count (pid : JVal) (fs : Props) : nat :=
  length (filter (is_open_alert pid) (alert_list fs)).

Definition at_most_one_open (fs : Props) : Prop :=
  forall pid, (open_count pid fs <= 1)%nat.

(** Every entry of the alerts collection is a value that counts as true
    (as every record does), and no product has two open alerts. *)
Definition alert_invariant (fs : Props) (ls : option Text) : Prop :=
  Forall (fun a => truthy a = true) (alert_list fs) /\ at_most_one_open fs.

Lemma alert_list_collection fs es ps :
  collection "alerts" fs = JArr es ps -> alert_list fs = es.
Proof.
  unfold collection, alert_list, js_or.
  destruct (or_undef (lookup "alerts" fs)) as [| |b|x|s|es' ps'|ps'] eqn:E; simpl;
    try (intros H; injection H as <- <-; reflexivity).
  - destruct b; [discriminate|]. intros H; injection H as <- <-; reflexivity.
  - destruct (negb (is_nan x || is_zero x)); [discriminate|].
    intros H; injection H as <- <-; reflexivity.
  - destruct (negb (s =? "")%string); [discriminate|].
    intros H; injection H as <- <-; reflexivity.
  - discriminate.
Qed.

Lemma alert_invariant_products : save_stable alert_invariant "products".
Proof.
  intros fs ls c w Hn H.
  assert (E : alert_list (norm_props (update "products" c fs)) = alert_list fs).
  { unfold alert_list. rewrite lookup_norm_props_update_other by reflexivity.
    apply normal_obj in Hn. rewrite Hn. reflexivity. }
  unfold alert_invariant, at_most_one_open, open_count in *. rewrite E. exact H.
Qed.

Lemma find_from_none pred es j :
  find_from pred es j = Ok None -> Forall (fun a => pred a = Ok false) es.
Proof.
  revert j. induction es as [|y r IH]; intros j; simpl; [constructor|].
  destruct (pred y) as [[|]|] eqn:E; try discriminate.
  intros H. constructor; [exact E | exact (IH _ H)].
Qed.

Lemma find_from_In pred es j i x :
  find_from pred es j = Ok (Some (i, x)) -> In x es.
Proof.
  intros H. destruct (find_from_nth _ _ _ _ _ H) as (n & _ & Hn).
  eapply nth_error_In. exact Hn.
Qed.

(** An identifier that the JSON round trip leaves as it is. *)
Definition stable_id (v : JVal) : Prop := v = JUndef \/ normal v.

Definition id_of (p : JVal) : JVal :=
  match get_prop p "id" with
  | Ok v => v
  | Throw _ => JUndef
  end.

Definition stable_ids (products : JVal) : Prop :=
  match products with
  | JArr es _ => Forall (fun p => stable_id (id_of p)) es
  | _ => True
  end.

Lemma normal_id_of p : normal p -> stable_id (id_of p).
Proof.
  intros Hn. unfold id_of, stable_id.
  destruct p as [| |b|x|s|es ps|ps]; simpl; auto.
  - apply normal_arr in Hn. destruct Hn as [-> _]. auto.
  - destruct (lookup "id" ps) as [v|] eqn:E; simpl; [|auto].
    right. eapply normal_lookup; eassumption.
Qed.

Lemma stable_ids_collection w fs :
  document w fs -> stable_ids (collection "products" fs).
Proof.
  intros Hd. destruct (collection "products" fs) as [| | | | |es ps|] eqn:E; simpl; auto.
  destruct (collection_array w fs _ _ _ Hd E) as [_ Hes].
  eapply Forall_impl; [|exact Hes]. intros p. apply normal_id_of.
Qed.

Lemma replace_nth_Forall (P : JVal -> Prop) i x es :
  Forall P es -> P x -> Forall P (replace_nth i x es).
Proof.
  intros H Hx. revert i. induction H as [|y r Hy Hr IH]; intros i.
  - destruct i; constructor.
  - destruct i; simpl; constructor; auto.
Qed.

Lemma hoare_foldM {A B} (J : A -> World -> Prop) E (f : A -> B -> M A) l a :
  (forall a b, hoare (J a) (f a b) J E) -> hoare (J a) (foldM f l a) J E.
Proof.
  intros Hf. revert a. induction l as [|b r IH]; intros a; simpl.
  - intros w H. exact H.
  - eapply hoare_bind; [apply Hf | exact IH].
Qed.

(** What the new alert record looks like once stored. *)
Lemma new_alert_open id pid pname snapshot min date pid' :
  stable_id pid ->
  is_open_alert pid'
    (norm_elem (JObj [("id", JStr id); ("productId", pid); ("productName", pname);
                      ("currentStock", snapshot); ("minRequired", JNum min);
                      ("alertDate", JStr date); ("resolved", JBool false)]))
  = strict_equals pid pid'.
Proof.
  intros Hs. unfold norm_elem. rewrite json_norm_obj. cbn [norm_props json_norm].
  assert (Hpid : forall rest,
             or_undef (lookup "productId"
                         (match json_norm pid with
                          | Some x' => ("productId", x') :: rest
                          | None => rest
                          end)) = match json_norm pid with
                                  | Some _ => pid
                                  | None => or_undef (lookup "productId" rest)
                                  end).
  { intros rest. destruct Hs as [-> | Hn]; [reflexivity|]. rewrite Hn. reflexivity. }
  destruct (json_norm pname), (json_norm snapshot);
    cbn [is_open_alert lookup String.eqb Ascii.eqb Bool.eqb];
    rewrite Hpid;
    (destruct Hs as [-> | Hn]; [|rewrite Hn]);
    cbn [json_norm lookup String.eqb Ascii.eqb Bool.eqb or_undef truthy negb];
    rewrite ?andb_true_r; reflexivity.
Qed.

Lemma filter_open_none pid es :
  Forall (fun a => is_open_alert pid a = false) es -> filter (is_open_alert pid) es = [].
Proof.
  induction 1 as [|a r Ha _ IH]; simpl; [reflexivity|]. rewrite Ha. exact IH.
Qed.

(** No entry answers the [find] of the sale path: no record is an open
    alert of the product, whichever equal identifier one asks with. *)
Lemma no_open_alert product pid0 pid es :
  get_prop product "id" = Ok pid0 ->
  Forall (fun a => open_alert_of product a = Ok false) es ->
  strict_equals pid0 pid = true ->
  Forall (fun a => is_open_alert pid a = false) es.
Proof.
  intros Hid H Heq. eapply Forall_impl; [|exact H].
  intros a Ha. destruct a as [| | | | | |ps]; try reflexivity.
  unfold open_alert_of in Ha. cbn [get_prop rbind] in Ha. rewrite Hid in Ha.
  cbn [rbind] in Ha. cbn [is_open_alert].
  destruct (strict_equals (or_undef (lookup "productId" ps)) pid) eqn:E1; [|reflexivity].
  rewrite (strict_equals_euclid _ _ _ E1 Heq) in Ha.
  injection Ha as ->. reflexivity.
Qed.

Lemma raise_alert_keeps product min :
  stable_id (id_of product) ->
  preserves (inv alert_invariant) (raise_alert product min).
Proof.
  intros Hs w (fs & Hd & Ht & Hone).
  assert (Hsame : forall w', _dbCache w' = _dbCache w -> localStorage w' = localStorage w ->
                             inv alert_invariant w').
  { intros w' Hc Hl. exists fs. split; [|split; assumption].
    destruct Hd as [Hd1 Hd2]. split; [congruence | exact Hd2]. }
  unfold raise_alert.
  rewrite (bind_ok _ _ _ _ _ (getCollection_document w fs "alerts" Hd)).
  unfold bind at 1. unfold lift at 1.
  destruct (find (collection "alerts" fs) (open_alert_of product)) as [existing|e] eqn:Ef;
    [|apply Hsame; reflexivity].
  destruct (collection "alerts" fs) as [| | | | |es ps|] eqn:Ec; try discriminate.
  cbn [find] in Ef.
  destruct (collection_array w fs _ _ _ Hd Ec) as [-> Hes].
  pose proof (alert_list_collection fs es [] Ec) as Hlist.
  assert (Hnone : existing = None \/
                  truthy (match existing with Some (_, a) => a | None => JUndef end) = true).
  { destruct existing as [[i a]|]; [right | left; reflexivity].
    apply find_from_In in Ef. rewrite Hlist in Ht.
    rewrite Forall_forall in Ht. apply Ht. exact Ef. }
  destruct Hnone as [-> | Htrue];
    [|rewrite Htrue; apply Hsame; reflexivity].
  cbn [truthy negb].
  unfold bind at 1. unfold generateId at 1. cbv iota beta.
  unfold bind at 1. unfold lift at 1.
  destruct (get_prop product "id") as [pid0|] eqn:Eid; [|apply Hsame; reflexivity].
  unfold bind at 1. unfold lift at 1.
  destruct (get_prop product "name") as [pname|]; [|apply Hsame; reflexivity].
  unfold bind at 1. unfold lift at 1.
  destruct (get_prop product "currentStock") as [cs|]; [|apply Hsame; reflexivity].
  unfold bind at 1. unfold lift at 1.
  destruct (deepClone cs) as [snapshot|]; [|apply Hsame; reflexivity].
  unfold bind at 1. unfold nowISO, Date_toISOString at 1. cbv iota beta.
  unfold bind at 1. unfold lift at 1. cbn [push].
  match goal with
  | |- context [_saveCollection "alerts" ?A] => set (alerts := A)
  end.
  match goal with
  | |- match (_ ;; _) ?w3 with _ => _ end =>
      assert (Hd3 : document w3 fs) by exact Hd;
      unfold bind at 1;
      destruct (saveCollection_cases w3 fs "alerts" alerts Hd3) as [[_ ->] | [e ->]];
      [|apply Hsame; reflexivity]
  end.
  cbn [ret].
  eexists. split; [apply saved_document|].
  assert (Hid : id_of product = pid0) by (unfold id_of; rewrite Eid; reflexivity).
  rewrite Hid in Hs.
  unfold alert_invariant, at_most_one_open, open_count, alert_list.
  unfold alerts.
  erewrite lookup_saved_push; [|exact Hes|apply json_norm_obj]. cbn [or_undef].
  rewrite Hlist in Ht. split.
  - apply Forall_app. split; [exact Ht | repeat constructor].
  - intros pid. rewrite filter_app, length_app.
    change (JObj (norm_props ?l)) with (norm_elem (JObj l)).
    cbn [filter]. rewrite (new_alert_open _ _ _ _ _ _ pid Hs).
    destruct (strict_equals pid0 pid) eqn:Heq.
    + rewrite (filter_open_none pid es); [simpl; lia|].
      apply (no_open_alert product pid0 pid es Eid); [|exact Heq].
      eapply find_from_none. exact Ef.
    + specialize (Hone pid). unfold open_count in Hone. rewrite Hlist in Hone.
      simpl. lia.
Qed.

Lemma id_of_apply_line counter delta product item product' :
  apply_line counter delta product item = Ok product' -> id_of product' = id_of product.
Proof.
  intros H. unfold id_of. rewrite (apply_line_get _ _ _ _ _ "id" H eq_refl). reflexivity.
Qed.

Lemma stable_ids_found products pred i product :
  stable_ids products -> find products pred = Ok (Some (i, product)) ->
  stable_id (id_of product).
Proof.
  destruct products as [| | | | |es ps|]; try discriminate.
  cbn [stable_ids find]. intros H Hf. apply find_from_In in Hf.
  rewrite Forall_forall in H. apply H. exact Hf.
Qed.

Lemma stable_ids_store_at products i product :
  stable_ids products -> stable_id (id_of product) ->
  stable_ids (store_at products i product).
Proof.
  destruct products as [| | | | |es ps|]; auto.
  cbn [stable_ids store_at]. intros H Hp. apply replace_nth_Forall; assumption.
Qed.

(** A round of the sale loop keeps the alert invariant, and the
    identifiers in the local array stay what the document has. *)
Lemma sale_item_keeps products item :
  stable_ids products ->
  hoare (inv alert_invariant) (sale_item products item)
        (fun products' w' => stable_ids products' /\ inv alert_invariant w')
        (inv alert_invariant).
Proof.
  intros Hids w Hinv. unfold sale_item.
  unfold bind at 1. unfold lift at 1.
  destruct (find products (matches_item item)) as [[[i product]|]|] eqn:Ef;
    [| split; assumption | exact Hinv].
  destruct (truthy product); cbn [negb]; [|split; assumption].
  unfold bind at 1. unfold lift at 1.
  destruct (apply_line sale_counter PrimFloat.sub product item) as [product'|] eqn:Ea;
    [|exact Hinv].
  unfold bind at 1. unfold lift at 1.
  destruct (number_field product' "minStock") as [min|]; [|exact Hinv].
  unfold bind at 1. unfold lift at 1.
  destruct (threshold_test PrimFloat.leb product' min) as [low|]; [|exact Hinv].
  assert (Hp : stable_id (id_of product')).
  { rewrite (id_of_apply_line _ _ _ _ _ Ea). eapply stable_ids_found; eassumption. }
  unfold bind at 1.
  assert (Hr : preserves (inv alert_invariant)
                 (if low then raise_alert product' min else ret tt)).
  { destruct low; [apply raise_alert_keeps; exact Hp | apply preserves_ret]. }
  specialize (Hr w Hinv).
  destruct ((if low then raise_alert product' min else ret tt) w) as [[[]|e] w1];
    [|exact Hr].
  split; [|exact Hr]. apply stable_ids_store_at; assumption.
Qed.

Lemma sale_reconciliation_keeps sale :
  preserves (inv alert_invariant) (_applyStockChangesFromSale sale).
Proof.
  intros w Hinv. unfold _applyStockChangesFromSale.
  destruct (truthy sale); cbn [negb]; [|exact Hinv].
  unfold bind at 1. unfold lift at 1.
  destruct (get_prop sale "items") as [items|]; [|exact Hinv].
  destruct items as [| | | | |items ps|]; try exact Hinv.
  destruct Hinv as (fs & Hd & Hphi).
  rewrite (bind_ok _ _ _ _ _ (getCollection_document w fs "products" Hd)).
  assert (Hinv : inv alert_invariant w) by (exists fs; split; assumption).
  pose proof (hoare_foldM (fun products w' => stable_ids products /\ inv alert_invariant w')
                (inv alert_invariant) sale_item items (collection "products" fs)) as Hloop.
  unfold bind at 1.
  assert (Hl := Hloop (fun a b w0 H => sale_item_keeps a b (proj1 H) w0 (proj2 H)) w
                  (conj (stable_ids_collection w fs Hd) Hinv)).
  destruct (foldM sale_item items (collection "products" fs) w) as [[products|e] w1];
    [|exact Hl].
  destruct Hl as [_ Hl].
  pose proof (preserves_saveCollection alert_invariant "products" products
                alert_invariant_products w1 Hl) as Hsave.
  unfold bind at 1.
  destruct (_saveCollection "products" products w1) as [[b|e] w2]; exact Hsave.
Qed.

(** The same for [addSale] as a whole. *)
Lemma alert_invariant_sales : save_stable alert_invariant "sales".
Proof.
  intros fs ls c w Hn H.
  assert (E : alert_list (norm_props (update "sales" c fs)) = alert_list fs).
  { unfold alert_list. rewrite lookup_norm_props_update_other by reflexivity.
    apply normal_obj in Hn. rewrite Hn. reflexivity. }
  unfold alert_invariant, at_most_one_open, open_count in *. rewrite E. exact H.
Qed.

Lemma addSale_keeps saleData : preserves (inv alert_invariant) (addSale saleData).
Proof.
  unfold addSale, record_sale.
  repeat first
    [ apply preserves_saveCollection; exact alert_invariant_sales
    | apply preserves_try_catch; [apply sale_reconciliation_keeps | intros]
    | preserve_step ].
Qed.

Module C1_example.
Import Scenario.

(** The product "p1" of [stocked] has 5 boxes and a minimum of 2 (its 40
    pieces and 60 sft are well above it).  A sale of 4 boxes, then a sale
    of 1 more box. *)
Definition after_first : World := exec (addSale (one_line "p1" "Box" 4)) stocked.
Definition after_second : World := exec (addSale (one_line "p1" "Box" 1)) after_first.

(** The product as [stocked] holds it. *)
Definition product : Props :=
  match find (collection "products" (cached_fields stocked))
             (matches_item (line "p1" "Box" 4)) with
  | Ok (Some (_, JObj pf)) => pf
  | _ => []
  end.

End C1_example.

(* ================================================================== *)
(** ** Alerts: a purchase resolves them *)
(* ================================================================== *)

(** How the purchase path leaves an alert entry [a] when it resolves the
    alerts of the product [pid]: an open alert of the product gets
    [resolved = true] and a [resolvedAt] date, every other entry stays as
    it is. *)
Definition resolved_from (pid a a' : JVal) : Prop :=
  if is_open_alert pid a
  then exists t, a' = put (put a "resolved" (JBool true)) "resolvedAt" (JStr t)
  else a' = a.

Lemma resolved_from_not_open pid a a' :
  resolved_from pid a a' -> is_open_alert pid a' = false.
Proof.
  unfold resolved_from. destruct (is_open_alert pid a) eqn:E.
  - intros [t ->]. destruct a as [| | | | | |ps]; try discriminate.
    unfold put. cbn [set_prop is_open_alert].
    rewrite (lookup_update_other "resolved" "resolvedAt") by reflexivity.
    rewrite lookup_update_same. cbn [or_undef truthy negb]. apply andb_false_r.
  - intros ->. exact E.
Qed.

Lemma resolved_from_count pid es es' :
  Forall2 (resolved_from pid) es es' -> filter (is_open_alert pid) es' = [].
Proof.
  induction 1 as [|a a' r r' H _ IH]; simpl; [reflexivity|].
  rewrite (resolved_from_not_open _ _ _ H). exact IH.
Qed.

(** On an entry that counts as true, the test of the [forEach] does not
    throw; on a record it is [is_open_alert]. *)
Definition opens (pid a : JVal) : bool :=
  match get_prop a "productId", get_prop a "resolved" with
  | Ok apid, Ok r => strict_equals apid pid && negb (truthy r)
  | _, _ => false
  end.

Lemma open_alert_of_truthy product pid a :
  get_prop product "id" = Ok pid -> truthy a = true ->
  open_alert_of product a = Ok (opens pid a).
Proof.
  intros Hid Ht. unfold open_alert_of, opens. rewrite Hid.
  destruct a; try discriminate; cbn [get_prop rbind];
    match goal with
    | |- context [strict_equals ?x pid] => destruct (strict_equals x pid)
    end; reflexivity.
Qed.

Lemma opens_record pid ps : opens pid (JObj ps) = is_open_alert pid (JObj ps).
Proof. reflexivity. Qed.

(** The entry as the code leaves it in its local array. *)
Definition resolve_entry (pid : JVal) (t : string) (a : JVal) : JVal :=
  if opens pid a then put (put a "resolved" (JBool true)) "resolvedAt" (JStr t) else a.

Lemma put_truthy a k x : truthy a = true -> truthy (put a k x) = true.
Proof. unfold put. destruct a; simpl; auto. Qed.

Lemma resolve_entry_stored pid t a :
  truthy a = true -> normal a -> resolved_from pid a (norm_elem (resolve_entry pid t a)).
Proof.
  intros Ht Hn. unfold resolved_from, resolve_entry.
  destruct a as [| |b|x|s|es ps|ps]; try discriminate; cbn [is_open_alert].
  - destruct (opens pid (JBool b)); apply norm_elem_fix; exact Hn.
  - destruct (opens pid (JNum x)); apply norm_elem_fix; exact Hn.
  - destruct (opens pid (JStr s)); apply norm_elem_fix; exact Hn.
  - assert (E : forall ps', norm_elem (JArr es ps') = JArr es ps).
    { intros ps'. apply normal_arr in Hn. destruct Hn as [-> Hes].
      unfold norm_elem. rewrite json_norm_arr, (map_norm_elem_normal es Hes). reflexivity. }
    destruct (opens pid (JArr es ps)); unfold put; cbn [set_prop]; apply E.
  - rewrite opens_record. cbn [is_open_alert].
    destruct (strict_equals (or_undef (lookup "productId" ps)) pid
              && negb (truthy (or_undef (lookup "resolved" ps)))).
    + exists t. unfold put. cbn [set_prop]. unfold norm_elem. rewrite json_norm_obj.
      apply normal_obj in Hn.
      rewrite (norm_props_update "resolvedAt" (JStr t) (JStr t)); [reflexivity | reflexivity |].
      apply (norm_props_update "resolved" (JBool true) (JBool true)); [reflexivity | exact Hn].
    + apply norm_elem_fix. exact Hn.
Qed.

(** The world after [n] more readings of the clock. *)
Definition later (w : World) (n : nat) : World := set_clock_reads w (n + clock_reads w).

Lemma later_later w n m : later (later w n) m = later w (m + n).
Proof. unfold later, set_clock_reads. simpl. f_equal. lia. Qed.

Lemma resolve_if_open_truthy product pid acc a w :
  get_prop product "id" = Ok pid -> truthy a = true ->
  exists n,
    resolve_if_open product acc a w
    = (Ok (fst acc ++ [resolve_entry pid (clock w (clock_reads w)) a],
           if opens pid a then true else snd acc),
       later w n).
Proof.
  intros Hid Ht. unfold resolve_if_open.
  unfold bind at 1. unfold lift at 1. rewrite (open_alert_of_truthy _ _ _ Hid Ht).
  unfold resolve_entry. destruct (opens pid a).
  - exists 1%nat.
    unfold bind at 1. unfold lift at 1. rewrite (set_prop_truthy _ _ _ Ht).
    unfold bind at 1. unfold nowISO, Date_toISOString at 1. cbv iota beta.
    unfold bind at 1. unfold lift at 1.
    rewrite (set_prop_truthy _ _ _ (put_truthy _ _ _ Ht)).
    reflexivity.
  - exists 0%nat. unfold ret, later. destruct w; reflexivity.
Qed.

(** The whole [forEach]: it ends well, only the clock has been read, every
    entry has gone through [resolve_entry], and the flag tells whether an
    entry answered the test. *)
Lemma resolve_loop product pid es :
  get_prop product "id" = Ok pid ->
  Forall (fun a => truthy a = true) es ->
  forall acc changed w,
  exists es' n,
    foldM (resolve_if_open product) es (acc, changed) w
    = (Ok (acc ++ es', changed || existsb (opens pid) es), later w n) /\
    Forall2 (fun a a' => exists t, a' = resolve_entry pid t a) es es'.
Proof.
  intros Hid Ht. induction Ht as [|a r Ha Hr IH]; intros acc changed w.
  - exists [], 0%nat. simpl. rewrite app_nil_r, orb_false_r.
    split; [unfold ret, later; destruct w; reflexivity | constructor].
  - destruct (resolve_if_open_truthy product pid (acc, changed) a w Hid Ha) as [n1 E1].
    cbn [foldM]. rewrite (bind_ok _ _ _ _ _ E1). cbn [fst snd].
    destruct (IH (acc ++ [resolve_entry pid (clock w (clock_reads w)) a])
                (if opens pid a then true else changed) (later w n1))
      as (es' & n2 & E2 & HR).
    exists (resolve_entry pid (clock w (clock_reads w)) a :: es'), (n2 + n1)%nat.
    rewrite E2, later_later, <- app_assoc. split.
    + cbn [existsb app]. do 3 f_equal.
      destruct (opens pid a), changed; reflexivity.
    + constructor; [eauto | exact HR].
Qed.

Lemma resolve_entries_stored pid es es' :
  Forall (fun a => truthy a = true) es -> Forall normal es ->
  Forall2 (fun a a' => exists t, a' = resolve_entry pid t a) es es' ->
  Forall2 (resolved_from pid) es (map norm_elem es').
Proof.
  intros Ht Hn H. induction H as [|a a' r r' [t ->] _ IH]; simpl; [constructor|].
  inversion Ht; inversion Hn; subst.
  constructor; [apply resolve_entry_stored; assumption | apply IH; assumption].
Qed.

Lemma resolve_entries_unchanged pid es es' :
  existsb (opens pid) es = false ->
  Forall2 (fun a a' => exists t, a' = resolve_entry pid t a) es es' -> es' = es.
Proof.
  intros He H. induction H as [|a a' r r' [t ->] _ IH]; [reflexivity|].
  simpl in He. apply orb_false_iff in He. destruct He as [Ha Hr].
  unfold resolve_entry. rewrite Ha, (IH Hr). reflexivity.
Qed.

Lemma not_opens_resolved_from pid es :
  existsb (opens pid) es = false -> Forall2 (resolved_from pid) es es.
Proof.
  induction es as [|a r IH]; simpl; [constructor|].
  intros He. apply orb_false_iff in He. destruct He as [Ha Hr].
  constructor; [|exact (IH Hr)].
  unfold resolved_from. destruct a; try reflexivity.
  rewrite <- opens_record, Ha. reflexivity.
Qed.

Lemma later_document w fs n : document w fs -> document (later w n) fs.
Proof. intros H. exact H. Qed.

Lemma saved_adapter ws w fs : adapter (snd (forEach notify ws (saved w fs))) = adapter w.
Proof.
  pose proof (saved_core ws w fs) as H. apply core_fields in H.
  destruct H as (_ & H & _). exact H.
Qed.

(** The block that resolves the alerts of [product], on a document whose
    alert entries are records: it ends well; the alerts are still an
    array, of the old entries, resolved where they were open alerts of the
    product. *)
Lemma resolve_alerts_array product pid w fs es :
  document w fs -> adapter w = LocalStorageAdapter ->
  collection "alerts" fs = JArr es [] ->
  Forall (fun a => truthy a = true) es ->
  get_prop product "id" = Ok pid ->
  exists w' fs' es',
    resolve_alerts product w = (Ok tt, w') /\
    document w' fs' /\ adapter w' = LocalStorageAdapter /\
    collection "alerts" fs' = JArr es' [] /\
    Forall2 (resolved_from pid) es es'.
Proof.
  intros Hd Ha Ec Ht Hid.
  destruct (collection_array w fs _ _ _ Hd Ec) as [_ Hn].
  unfold resolve_alerts.
  rewrite (bind_ok _ _ _ _ _ (getCollection_document w fs "alerts" Hd)). rewrite Ec.
  destruct (resolve_loop product pid es Hid Ht [] false w) as (es' & n & El & HR).
  rewrite (bind_ok _ _ _ _ _ El). cbn [fst snd app orb].
  destruct (existsb (opens pid) es) eqn:Ex.
  - rewrite (bind_ok _ _ _ _ _
               (saveCollection_document (later w n) fs "alerts" (JArr es' [])
                  (later_document w fs n Hd) Ha)).
    eexists _, _, (map norm_elem es'). split; [reflexivity|].
    split; [apply saved_document|]. split; [rewrite saved_adapter; exact Ha|]. split.
    + unfold collection.
      erewrite lookup_norm_props_some;
        [| apply lookup_update_same | apply json_norm_arr].
      reflexivity.
    + apply resolve_entries_stored; assumption.
  - exists (later w n), fs, es. split; [reflexivity|].
    split; [exact Hd|]. split; [exact Ha|]. split; [exact Ec|].
    apply not_opens_resolved_from. exact Ex.
Qed.

Lemma get_prop_truthy v k : truthy v = true -> exists x, get_prop v k = Ok x.
Proof. destruct v; simpl; try discriminate; eauto. Qed.

Lemma id_of_get product : truthy product = true -> get_prop product "id" = Ok (id_of product).
Proof.
  intros H. unfold id_of. destruct (get_prop_truthy product "id" H) as [x ->]. reflexivity.
Qed.

(* ================================================================== *)
(** ** Alerts: a sale that brings the stock low raises one *)
(* ================================================================== *)

Lemma update_update k v v' ps : update k v (update k v' ps) = update k v ps.
Proof.
  induction ps as [|[k1 x] r IH]; simpl.
  - rewrite String.eqb_refl. reflexivity.
  - destruct (String.eqb k k1) eqn:E; simpl.
    + rewrite String.eqb_refl. reflexivity.
    + rewrite E, IH. reflexivity.
Qed.

(** A collection that a save did not write is what it was. *)
Lemma collection_frame fs fs' k :
  lookup k fs' = lookup k fs -> collection k fs' = collection k fs.
Proof. unfold collection. intros ->. reflexivity. Qed.

Lemma collection_alert_list fs :
  is_array (collection "alerts" fs) = true -> normal (JObj fs) ->
  collection "alerts" fs = JArr (alert_list fs) [].
Proof.
  intros Ha Hn. destruct (collection "alerts" fs) as [| | | | |es ps|] eqn:E; try discriminate.
  rewrite (alert_list_collection fs es ps E).
  unfold collection, js_or in E.
  destruct (lookup "alerts" fs) as [c|] eqn:El; cbn [or_undef] in E.
  - destruct (truthy c).
    + subst c. apply (normal_lookup _ _ _ Hn) in El. apply normal_arr in El.
      destruct El as [-> _]. reflexivity.
    + injection E as <- <-. reflexivity.
  - cbn [truthy] in E. injection E as <- <-. reflexivity.
Qed.

(** On the entries of a stored document, the test of the sale path and of
    the purchase path for an identifier that is a string is
    [is_open_alert]. *)
Lemma opens_is_open pid a :
  normal a -> opens (JStr pid) a = is_open_alert (JStr pid) a.
Proof.
  intros Hn. destruct a as [| |b|x|s|es ps|ps]; try reflexivity.
  apply normal_arr in Hn. destruct Hn as [-> _]. reflexivity.
Qed.

Lemma filter_opens pid es :
  Forall normal es -> filter (opens (JStr pid)) es = filter (is_open_alert (JStr pid)) es.
Proof.
  induction 1 as [|a r Ha _ IH]; simpl; [reflexivity|].
  rewrite (opens_is_open pid a Ha), IH. reflexivity.
Qed.

(** [find] with a predicate that does not throw on the entries. *)
Lemma find_from_total pred (p : JVal -> bool) es j :
  Forall (fun a => pred a = Ok (p a)) es ->
  (find_from pred es j = Ok None /\ filter p es = []) \/
  (exists i a, find_from pred es j = Ok (Some (i, a)) /\ In a es /\ filter p es <> []).
Proof.
  intros H. revert j. induction H as [|a r Ha _ IH]; intros j; simpl.
  - left. split; reflexivity.
  - rewrite Ha. cbn [rbind]. destruct (p a).
    + right. exists j, a. split; [reflexivity|]. split; [left; reflexivity | discriminate].
    + destruct (IH (S j)) as [[H1 H2] | (i & x & H1 & H2 & H3)].
      * left. split; assumption.
      * right. exists i, x. split; [exact H1|]. split; [right; exact H2 | exact H3].
Qed.

Lemma find_from_sat pred es j i x :
  find_from pred es j = Ok (Some (i, x)) -> pred x = Ok true.
Proof.
  revert j. induction es as [|y r IH]; intros j; simpl; [discriminate|].
  destruct (pred y) as [[|]|] eqn:E; try discriminate.
  - intros H. injection H as <- <-. exact E.
  - apply IH.
Qed.

Lemma open_count_collection pid fs es ps :
  collection "alerts" fs = JArr es ps ->
  open_count pid fs = length (filter (is_open_alert pid) es).
Proof. intros E. unfold open_count. rewrite (alert_list_collection fs es ps E). reflexivity. Qed.

(** The block of the sale path that raises an alert for [product], on a
    document whose alert entries are records: it ends well; when the
    product has no open alert, one is appended, and when it has one,
    nothing is written; the rest of the document is untouched. *)
Lemma raise_alert_spec product pid min w fs es :
  document w fs -> adapter w = LocalStorageAdapter ->
  collection "alerts" fs = JArr es [] ->
  Forall (fun a => truthy a = true) es ->
  truthy product = true ->
  get_prop product "id" = Ok (JStr pid) ->
  (exists cs snapshot,
      get_prop product "currentStock" = Ok cs /\ json_norm cs = Some snapshot) ->
  exists w' fs',
    raise_alert product min w = (Ok tt, w') /\
    document w' fs' /\ adapter w' = LocalStorageAdapter /\
    (forall k, String.eqb k "alerts" = false -> lookup k fs' = lookup k fs) /\
    is_array (collection "alerts" fs') = true /\
    Forall (fun a => truthy a = true) (alert_list fs') /\
    open_count (JStr pid) fs' = Nat.max 1 (open_count (JStr pid) fs) /\
    (open_count (JStr pid) fs = 0%nat -> length (alert_list fs') = S (length es)) /\
    (open_count (JStr pid) fs <> 0%nat -> alert_list fs' = es).
Proof.
  intros Hd Ha Ec Ht Hp Hid (cs & snapshot & Hcs & Hsnap).
  destruct (collection_array w fs _ _ _ Hd Ec) as [_ Hes].
  pose proof (open_count_collection (JStr pid) fs es [] Ec) as Hcount.
  rewrite <- (filter_opens pid es Hes) in Hcount.
  unfold raise_alert.
  rewrite (bind_ok _ _ _ _ _ (getCollection_document w fs "alerts" Hd)). rewrite Ec.
  unfold bind at 1. unfold lift at 1. cbn [find].
  destruct (find_from_total (open_alert_of product) (opens (JStr pid)) es 0)
    as [[Hf Hnone] | (i & a & Hf & Hin & Hsome)].
  { eapply Forall_impl; [|exact Ht]. intros a. apply open_alert_of_truthy. exact Hid. }
  - rewrite Hf. cbn [truthy negb]. rewrite Hnone in Hcount. cbn [length] in Hcount.
    unfold bind at 1. unfold generateId at 1. cbv iota beta.
    unfold bind at 1. unfold lift at 1. rewrite Hid.
    destruct (get_prop_truthy product "name" Hp) as [pname Hname].
    unfold bind at 1. unfold lift at 1. rewrite Hname.
    unfold bind at 1. unfold lift at 1. rewrite Hcs.
    unfold bind at 1. unfold lift at 1. unfold deepClone, JSON_stringify. rewrite Hsnap.
    cbn [JSON_parse].
    unfold bind at 1. unfold nowISO, Date_toISOString at 1. cbv iota beta.
    unfold bind at 1. unfold lift at 1. cbn [push].
    match goal with
    | |- context [bind (_saveCollection "alerts" ?A) _ ?w3] =>
        assert (Hd3 : document w3 fs) by exact Hd;
        assert (Ha3 : adapter w3 = LocalStorageAdapter) by exact Ha;
        rewrite (bind_ok _ _ _ _ _ (saveCollection_document w3 fs "alerts" A Hd3 Ha3))
    end.
    cbn [ret].
    eexists _, _. split; [reflexivity|].
    split; [apply saved_document|]. split; [rewrite saved_adapter; exact Ha|].
    assert (Hl : forall X, lookup "alerts" (norm_props (update "alerts"
                   (JArr (es ++ [JObj X]) []) fs))
                 = Some (JArr (es ++ [norm_elem (JObj X)]) [])).
    { intros X. erewrite lookup_saved_push; [reflexivity | exact Hes | apply json_norm_obj]. }
    split; [|split; [|split; [|split; [|split]]]].
    + intros k Hk. rewrite (lookup_norm_props_update_other _ _ _ _ Hk).
      destruct Hd as [_ Hnf]. apply normal_obj in Hnf. rewrite Hnf. reflexivity.
    + unfold collection. rewrite Hl. reflexivity.
    + unfold alert_list. rewrite Hl. cbn [or_undef].
      apply Forall_app. split; [exact Ht|]. constructor; [|constructor].
      unfold norm_elem. rewrite json_norm_obj. reflexivity.
    + rewrite Hcount. unfold open_count, alert_list. rewrite Hl. cbn [or_undef].
      rewrite filter_app, length_app.
      rewrite <- (filter_opens pid es Hes), Hnone.
      cbn [filter]. rewrite (new_alert_open _ _ _ _ _ _ (JStr pid)).
      * cbn [strict_equals]. rewrite String.eqb_refl. reflexivity.
      * right. reflexivity.
    + intros _. unfold alert_list. rewrite Hl. cbn [or_undef].
      rewrite length_app. cbn [length]. lia.
    + intros Hne. contradiction.
  - rewrite Hf.
    assert (Hta : truthy a = true).
    { rewrite Forall_forall in Ht. apply Ht. exact Hin. }
    rewrite Hta. cbn [negb ret].
    exists w, fs. split; [reflexivity|]. split; [exact Hd|]. split; [exact Ha|].
    assert (Hpos : open_count (JStr pid) fs <> 0%nat).
    { rewrite Hcount. destruct (filter (opens (JStr pid)) es); [contradiction | discriminate]. }
    split; [reflexivity|]. split; [rewrite Ec; reflexivity|].
    split; [rewrite (alert_list_collection fs es [] Ec); exact Ht|].
    split; [lia|]. split; [intros H0; contradiction|].
    intros _. apply (alert_list_collection fs es [] Ec).
Qed.

(** A stock record with its three counters. *)
Definition counters (boxes pieces sft : JVal) : JVal :=
  JObj [("boxes", boxes); ("pieces", pieces); ("sft", sft)].

Lemma adjust_counter_record pf cf k x n f :
  lookup "currentStock" pf = Some (JObj cf) -> lookup k cf = Some x -> ToNumber x = Ok n ->
  adjust_counter (JObj pf) k f
  = Ok (JObj (update "currentStock" (JObj (update k (JNum (f (num_or_zero n))) cf)) pf)).
Proof.
  intros Hcs Hk Hn. unfold adjust_counter. cbn [get_prop]. rewrite Hcs.
  cbn [or_undef rbind get_prop]. rewrite Hk. cbn [or_undef rbind]. rewrite Hn.
  reflexivity.
Qed.

(** The boxes left by a sale of [q] boxes out of [b], as the code computes
    and rounds them. *)
Definition boxes_after_sale (b q : float) : float :=
  round3 (num_or_zero (num_or_zero b - num_or_zero q)).

(** The stock arithmetic of a line that sells [q] boxes. *)
Lemma apply_line_boxes pf xb xp xs b p s pid q :
  lookup "currentStock" pf = Some (counters xb xp xs) ->
  ToNumber xb = Ok b -> ToNumber xp = Ok p -> ToNumber xs = Ok s ->
  apply_line sale_counter PrimFloat.sub (JObj pf) (Scenario.line pid "Box" q)
  = Ok (JObj (update "currentStock"
                (counters (JNum (boxes_after_sale b q))
                          (JNum (round3 (num_or_zero p)))
                          (JNum (round3 (num_or_zero s)))) pf)).
Proof.
  intros Hcs Hb Hp Hs. unfold apply_line.
  change (number_field (Scenario.line pid "Box" q) "quantity") with (Ok (num_or_zero q)).
  change (lower_unitType (Scenario.line pid "Box" q)) with (Ok "box").
  cbn [rbind get_prop]. rewrite Hcs. cbn [or_undef].
  change (js_or (counters xb xp xs) default_stock) with (counters xb xp xs).
  cbn [set_prop rbind]. rewrite (update_same_value _ _ _ Hcs).
  change (sale_counter "box") with "boxes".
  rewrite (adjust_counter_record pf _ "boxes" xb b _ Hcs eq_refl Hb). cbn [rbind].
  unfold round_counters.
  erewrite adjust_counter_record;
    [| apply lookup_update_same | reflexivity | reflexivity].
  cbn [rbind].
  erewrite adjust_counter_record;
    [| apply lookup_update_same | reflexivity | exact Hp].
  cbn [rbind].
  erewrite adjust_counter_record;
    [| apply lookup_update_same | reflexivity | exact Hs].
  rewrite !update_update. reflexivity.
Qed.

Lemma found_id products pid u q i pf :
  find products (matches_item (Scenario.line pid u q)) = Ok (Some (i, JObj pf)) ->
  lookup "id" pf = Some (JStr pid).
Proof.
  destruct products as [| | | | |es ps|]; try discriminate. cbn [find].
  intros H. apply find_from_sat in H. unfold matches_item in H.
  cbn [get_prop rbind] in H.
  change (or_undef (lookup "productId" _)) with (JStr pid) in H.
  destruct (lookup "id" pf) as [[| | | |s| |]|]; try discriminate.
  injection H as H. apply String.eqb_eq in H. subst s. reflexivity.
Qed.

(** The product as the sale leaves it in the local array: its stock is
    the three counters given. *)
Definition restocked (pf : Props) (boxes pieces sft : float) : JVal :=
  JObj (update "currentStock" (counters (JNum boxes) (JNum pieces) (JNum sft)) pf).

(** One line that sells [q] boxes of a product that is found and ends at
    or below its minimum. *)
Lemma sale_item_low w fs es products pid q i pf xb xp xs b p s m :
  document w fs -> adapter w = LocalStorageAdapter ->
  collection "alerts" fs = JArr es [] ->
  Forall (fun a => truthy a = true) es ->
  find products (matches_item (Scenario.line pid "Box" q)) = Ok (Some (i, JObj pf)) ->
  lookup "currentStock" pf = Some (counters xb xp xs) ->
  ToNumber xb = Ok b -> ToNumber xp = Ok p -> ToNumber xs = Ok s ->
  lookup "minStock" pf = Some (JNum m) ->
  PrimFloat.leb (boxes_after_sale b q) (num_or_zero m) && (0 <? num_or_zero m) = true ->
  let product' :=
    restocked pf (boxes_after_sale b q) (round3 (num_or_zero p)) (round3 (num_or_zero s)) in
  exists w' fs',
    sale_item products (Scenario.line pid "Box" q) w = (Ok (store_at products i product'), w') /\
    document w' fs' /\ adapter w' = LocalStorageAdapter /\
    (forall k, String.eqb k "alerts" = false -> lookup k fs' = lookup k fs) /\
    is_array (collection "alerts" fs') = true /\
    Forall (fun a => truthy a = true) (alert_list fs') /\
    open_count (JStr pid) fs' = Nat.max 1 (open_count (JStr pid) fs) /\
    (open_count (JStr pid) fs = 0%nat -> length (alert_list fs') = S (length es)) /\
    (open_count (JStr pid) fs <> 0%nat -> alert_list fs' = es).
Proof.
  intros Hd Ha Ec Ht Hf Hcs Hb Hp Hs Hm Hlow product'.
  pose proof (found_id _ _ _ _ _ _ Hf) as Hid.
  destruct (raise_alert_spec product' pid (num_or_zero m) w fs es Hd Ha Ec Ht eq_refl)
    as (w' & fs' & Hr & Hrest).
  { unfold product', restocked. cbn [get_prop].
    rewrite (lookup_update_other "id" "currentStock") by reflexivity.
    rewrite Hid. reflexivity. }
  { unfold product', restocked. cbn [get_prop]. rewrite lookup_update_same.
    eexists _, _. split; reflexivity. }
  exists w', fs'. split; [|exact Hrest].
  unfold sale_item, bind, lift. rewrite Hf. cbn [truthy negb].
  rewrite (apply_line_boxes pf xb xp xs b p s pid q Hcs Hb Hp Hs).
  fold (restocked pf (boxes_after_sale b q) (round3 (num_or_zero p)) (round3 (num_or_zero s))).
  fold product'.
  assert (Hmin : number_field product' "minStock" = Ok (num_or_zero m)).
  { unfold number_field, product', restocked. cbn [get_prop].
    rewrite (lookup_update_other "minStock" "currentStock") by reflexivity.
    rewrite Hm. reflexivity. }
  rewrite Hmin.
  assert (Hth : threshold_test PrimFloat.leb product' (num_or_zero m) = Ok true).
  { unfold threshold_test, counter_test, product', restocked. cbn [get_prop].
    rewrite lookup_update_same.
    cbn [or_undef rbind get_prop counters lookup String.eqb Ascii.eqb Bool.eqb ToNumber].
    rewrite Hlow. reflexivity. }
  rewrite Hth, Hr. reflexivity.
Qed.

Lemma map_norm_elem_replace i x es :
  Forall normal es -> map norm_elem (replace_nth i x es) = replace_nth i (norm_elem x) es.
Proof.
  intros H. revert i. induction H as [|y r Hy Hr IH]; intros i; [destruct i; reflexivity|].
  destruct i as [|i]; simpl.
  - rewrite (map_norm_elem_normal r Hr). reflexivity.
  - rewrite (norm_elem_fix y Hy), IH. reflexivity.
Qed.

(** [find] stops where it did when the element it found is replaced by
    one that answers the test. *)
Lemma find_from_replace_found pred es j i x x' :
  find_from pred es j = Ok (Some (i, x)) -> pred x' = Ok true ->
  find_from pred (replace_nth (i - j) x' es) j = Ok (Some (i, x')).
Proof.
  intros H Hx'. revert j H. induction es as [|y r IH]; intros j; simpl; [discriminate|].
  destruct (pred y) as [[|]|] eqn:E; try discriminate.
  - intros H. injection H as <- <-. rewrite Nat.sub_diag. simpl. rewrite Hx'. reflexivity.
  - intros H. destruct (find_from_nth _ _ _ _ _ H) as (n & Hi & _).
    replace (i - j)%nat with (S (i - S j)) by lia.
    simpl. rewrite E. cbn [rbind]. apply IH. exact H.
Qed.

(** The product as the sale leaves it in the stored document. *)
Definition sold_product (pf : Props) (boxes pieces sft : float) : Props :=
  norm_props (update "currentStock" (counters (JNum boxes) (JNum pieces) (JNum sft)) pf).

Lemma sold_product_stock pf b p s :
  lookup "currentStock" (sold_product pf b p s)
  = Some (counters (json_num b) (json_num p) (json_num s)).
Proof.
  unfold sold_product.
  erewrite lookup_norm_props_some; [reflexivity | apply lookup_update_same | reflexivity].
Qed.

Lemma sold_product_other pf b p s k :
  normal (JObj pf) -> String.eqb k "currentStock" = false ->
  lookup k (sold_product pf b p s) = lookup k pf.
Proof.
  intros Hn Hk. unfold sold_product.
  rewrite (lookup_norm_props_update_other _ _ _ _ Hk).
  apply normal_obj in Hn. rewrite Hn. reflexivity.
Qed.

Lemma found_normal w fs pred i x :
  document w fs -> find (collection "products" fs) pred = Ok (Some (i, x)) -> normal x.
Proof.
  intros Hd Hf. destruct (collection "products" fs) as [| | | | |es ps|] eqn:Ec; try discriminate.
  destruct (collection_array w fs _ _ _ Hd Ec) as [_ Hes].
  cbn [find] in Hf. apply find_from_In in Hf.
  rewrite Forall_forall in Hes. apply Hes. exact Hf.
Qed.

(** The reconciliation of a sale of one line, [q] boxes of a product that
    is found and ends at or below its minimum: it ends well; the product
    is stored with its new stock, where it was; the product has an open
    alert, a new one if it had none; nothing else changes. *)
Lemma reconcile_boxes_low w fs es sale ps pid q i pf xb xp xs b p s m :
  document w fs -> adapter w = LocalStorageAdapter ->
  collection "alerts" fs = JArr es [] ->
  Forall (fun a => truthy a = true) es ->
  truthy sale = true ->
  get_prop sale "items" = Ok (JArr [Scenario.line pid "Box" q] ps) ->
  find (collection "products" fs) (matches_item (Scenario.line pid "Box" q))
    = Ok (Some (i, JObj pf)) ->
  lookup "currentStock" pf = Some (counters xb xp xs) ->
  ToNumber xb = Ok b -> ToNumber xp = Ok p -> ToNumber xs = Ok s ->
  lookup "minStock" pf = Some (JNum m) ->
  PrimFloat.leb (boxes_after_sale b q) (num_or_zero m) && (0 <? num_or_zero m) = true ->
  let pf' :=
    sold_product pf (boxes_after_sale b q) (round3 (num_or_zero p)) (round3 (num_or_zero s)) in
  exists w' fs',
    _applyStockChangesFromSale sale w = (Ok tt, w') /\
    document w' fs' /\ adapter w' = LocalStorageAdapter /\
    (forall k, String.eqb k "alerts" = false -> String.eqb k "products" = false ->
               lookup k fs' = lookup k fs) /\
    (forall q', find (collection "products" fs') (matches_item (Scenario.line pid "Box" q'))
                = Ok (Some (i, JObj pf'))) /\
    is_array (collection "alerts" fs') = true /\
    Forall (fun a => truthy a = true) (alert_list fs') /\
    open_count (JStr pid) fs' = Nat.max 1 (open_count (JStr pid) fs) /\
    (open_count (JStr pid) fs = 0%nat -> length (alert_list fs') = S (length es)) /\
    (open_count (JStr pid) fs <> 0%nat -> alert_list fs' = es).
Proof.
  intros Hd Ha Ec Ht Hsale Hitems Hf Hcs Hb Hp Hs Hm Hlow pf'.
  destruct (sale_item_low w fs es (collection "products" fs) pid q i pf xb xp xs b p s m
              Hd Ha Ec Ht Hf Hcs Hb Hp Hs Hm Hlow)
    as (w1 & fs1 & Hstep & Hd1 & Ha1 & Hframe & Harr & Htr & Hcount & Hlen & Hsame).
  set (product' := restocked pf (boxes_after_sale b q) (round3 (num_or_zero p))
                     (round3 (num_or_zero s))) in *.
  set (products' := store_at (collection "products" fs) i product') in *.
  pose proof (found_normal w fs _ _ _ Hd Hf) as Hnpf.
  pose proof (found_id _ _ _ _ _ _ Hf) as Hid.
  destruct (collection "products" fs) as [| | | | |pes pps|] eqn:Ep; try discriminate.
  destruct (collection_array w fs _ _ _ Hd Ep) as [-> Hpes].
  assert (Hstored : lookup "products" (norm_props (update "products" products' fs1))
                    = Some (JArr (replace_nth i (JObj pf') pes) [])).
  { erewrite lookup_norm_props_some; [reflexivity | apply lookup_update_same |].
    unfold products'. cbn [store_at]. rewrite json_norm_arr.
    rewrite (map_norm_elem_replace _ _ _ Hpes). unfold product', restocked, norm_elem.
    rewrite json_norm_obj. reflexivity. }
  assert (Halerts : lookup "alerts" (norm_props (update "products" products' fs1))
                    = lookup "alerts" fs1).
  { rewrite lookup_norm_props_update_other by reflexivity.
    destruct Hd1 as [_ Hn1]. apply normal_obj in Hn1. rewrite Hn1. reflexivity. }
  assert (Hal : alert_list (norm_props (update "products" products' fs1)) = alert_list fs1).
  { unfold alert_list. rewrite Halerts. reflexivity. }
  exists (snd (forEach notify (_watchers w1) (saved w1 (update "products" products' fs1)))),
         (norm_props (update "products" products' fs1)).
  split; [|split; [apply saved_document | split; [rewrite saved_adapter; exact Ha1|]]].
  - unfold _applyStockChangesFromSale. rewrite Hsale. cbn [negb].
    unfold bind at 1. unfold lift at 1. rewrite Hitems.
    rewrite (bind_ok _ _ _ _ _ (getCollection_document w fs "products" Hd)). rewrite Ep.
    cbn [foldM]. unfold bind at 1. unfold bind at 1. rewrite Hstep.
    unfold ret at 1. cbv iota beta.
    rewrite (bind_ok _ _ _ _ _
               (saveCollection_document w1 fs1 "products" products' Hd1 Ha1)).
    reflexivity.
  - split; [|split; [|split; [|split; [|split; [|split]]]]].
    + intros k Hk1 Hk2. rewrite (lookup_norm_props_update_other _ _ _ _ Hk2).
      destruct Hd1 as [_ Hn1]. apply normal_obj in Hn1. rewrite Hn1. apply Hframe. exact Hk1.
    + intros q'. unfold collection. rewrite Hstored. cbn [or_undef js_or truthy find].
      change (matches_item (Scenario.line pid "Box" q'))
        with (matches_item (Scenario.line pid "Box" q)).
      cbn [find] in Hf.
      pose proof (find_from_replace_found _ _ _ _ _ (JObj pf') Hf) as H.
      rewrite Nat.sub_0_r in H. apply H.
      unfold matches_item. cbn [get_prop rbind]. unfold pf'.
      rewrite (sold_product_other _ _ _ _ "id" Hnpf eq_refl), Hid.
      cbn [or_undef].
      change (get_prop (Scenario.line pid "Box" q) "productId") with (Ok (JStr pid)).
      cbn [rbind strict_equals]. rewrite String.eqb_refl. reflexivity.
    + unfold collection. rewrite Halerts. exact Harr.
    + rewrite Hal. exact Htr.
    + unfold open_count. rewrite Hal. exact Hcount.
    + rewrite Hal. exact Hlen.
    + rewrite Hal. exact Hsame.
Qed.

Lemma alert_list_frame fs fs' :
  lookup "alerts" fs' = lookup "alerts" fs -> alert_list fs' = alert_list fs.
Proof. unfold alert_list. intros ->. reflexivity. Qed.

(** [addSale] of one line, [q] boxes of a product that is found and ends
    at or below its minimum. *)
Lemma addSale_boxes_low w fs es pid q i pf xb xp xs b p s m :
  document w fs -> adapter w = LocalStorageAdapter ->
  is_array (collection "sales" fs) = true ->
  collection "alerts" fs = JArr es [] ->
  Forall (fun a => truthy a = true) es ->
  find (collection "products" fs) (matches_item (Scenario.line pid "Box" q))
    = Ok (Some (i, JObj pf)) ->
  lookup "currentStock" pf = Some (counters xb xp xs) ->
  ToNumber xb = Ok b -> ToNumber xp = Ok p -> ToNumber xs = Ok s ->
  lookup "minStock" pf = Some (JNum m) ->
  PrimFloat.leb (boxes_after_sale b q) (num_or_zero m) && (0 <? num_or_zero m) = true ->
  let pf' :=
    sold_product pf (boxes_after_sale b q) (round3 (num_or_zero p)) (round3 (num_or_zero s)) in
  exists sale w' fs',
    addSale (Scenario.one_line pid "Box" q) w = (Ok sale, w') /\
    document w' fs' /\ adapter w' = LocalStorageAdapter /\
    is_array (collection "sales" fs') = true /\
    (forall q', find (collection "products" fs') (matches_item (Scenario.line pid "Box" q'))
                = Ok (Some (i, JObj pf'))) /\
    is_array (collection "alerts" fs') = true /\
    Forall (fun a => truthy a = true) (alert_list fs') /\
    open_count (JStr pid) fs' = Nat.max 1 (open_count (JStr pid) fs) /\
    (open_count (JStr pid) fs = 0%nat -> length (alert_list fs') = S (length es)) /\
    (open_count (JStr pid) fs <> 0%nat -> alert_list fs' = es).
Proof.
  intros Hd Ha Hsales Ec Ht Hf Hcs Hb Hp Hs Hm Hlow pf'.
  destruct (collection "sales" fs) as [| | | | |ss sps|] eqn:Es; try discriminate.
  destruct (collection_array w fs _ _ _ Hd Es) as [-> Hss].
  pose proof (record_sale_document w fs (Scenario.one_line pid "Box" q) ss Hd Ha Es) as Hr.
  cbv zeta in Hr.
  set (sale := JObj (new_sale ("sale_" ++ random w (random_reads w))%string
                       (clock w (clock_reads w)) (Scenario.one_line pid "Box" q))) in *.
  set (fs0 := update "sales" (JArr (ss ++ [sale]) []) fs) in *.
  set (w1 := snd (forEach notify (_watchers w) (saved (ticked w) fs0))) in *.
  assert (Hd1 : document w1 (norm_props fs0)) by apply saved_document.
  assert (Ha1 : adapter w1 = LocalStorageAdapter).
  { unfold w1. rewrite saved_adapter. exact Ha. }
  assert (Hframe : forall k, String.eqb k "sales" = false ->
                             lookup k (norm_props fs0) = lookup k fs).
  { intros k Hk. unfold fs0. rewrite (lookup_norm_props_update_other _ _ _ _ Hk).
    destruct Hd as [_ Hn]. apply normal_obj in Hn. rewrite Hn. reflexivity. }
  assert (Hal : alert_list (norm_props fs0) = alert_list fs).
  { apply alert_list_frame. apply Hframe. reflexivity. }
  assert (Hoc : open_count (JStr pid) (norm_props fs0) = open_count (JStr pid) fs).
  { unfold open_count. rewrite Hal. reflexivity. }
  destruct (reconcile_boxes_low w1 (norm_props fs0) es sale [] pid q i pf xb xp xs b p s m
              Hd1 Ha1)
    as (w2 & fs2 & Hrec & Hd2 & Ha2 & Hframe2 & Hfind & Harr & Htr & Hcount & Hlen & Hsame);
    try assumption; try reflexivity.
  { rewrite (collection_frame fs (norm_props fs0) "alerts") by (apply Hframe; reflexivity).
    exact Ec. }
  { rewrite (collection_frame fs (norm_props fs0) "products") by (apply Hframe; reflexivity).
    exact Hf. }
  exists sale, w2, fs2.
  split; [|split; [exact Hd2 | split; [exact Ha2 | split]]].
  - unfold addSale.
    rewrite (record_then_reconcile (record_sale (Scenario.one_line pid "Box" q)) _ _
               w sale w1 Hr).
    rewrite Hrec. reflexivity.
  - unfold collection. rewrite (Hframe2 "sales") by reflexivity.
    unfold fs0. erewrite lookup_saved_push; [reflexivity | exact Hss | apply json_norm_obj].
  - rewrite Hoc in Hcount, Hlen, Hsame. auto 10.
Qed.

Lemma ToNumber_json_num x : exists n, ToNumber (json_num x) = Ok n.
Proof.
  unfold json_num. destruct (is_nan x || is_infinity x); [eexists; reflexivity|].
  destruct (is_zero x); eexists; reflexivity.
Qed.

(** The boxes in stock of the product [pid], as a document has them. *)
Definition boxes_of (pid : string) (fs : Props) : Result JVal :=
  rbind (find (collection "products" fs) (matches_item (JObj [("productId", JStr pid)])))
        (fun found =>
           match found with
           | Some (_, product) =>
               rbind (get_prop product "currentStock") (fun cs => get_prop cs "boxes")
           | None => Ok JUndef
           end).

Lemma boxes_of_found fs pid q i pf xb xp xs :
  find (collection "products" fs) (matches_item (Scenario.line pid "Box" q))
    = Ok (Some (i, JObj pf)) ->
  lookup "currentStock" pf = Some (counters xb xp xs) ->
  boxes_of pid fs = Ok xb.
Proof.
  intros Hf Hcs. unfold boxes_of.
  change (matches_item (JObj [("productId", JStr pid)]))
    with (matches_item (Scenario.line pid "Box" q)).
  rewrite Hf. cbn [rbind get_prop]. rewrite Hcs. reflexivity.
Qed.

(** C1. A product has 5 boxes in stock, a [minStock] of 2 and no
    unresolved alert, in a document whose sales are an array and whose
    alert entries are records, saved through the localStorage adapter.
    [addSale] of one line, 4 boxes of it, succeeds and leaves it with 1
    box and exactly one unresolved alert, one entry more than the alerts
    had; [addSale] of 1 more box then succeeds and leaves it with 0 boxes
    and still exactly one unresolved alert, the alerts being the same
    entries as after the first sale.  In general, on every document whose
    alert entries are records, no product having two unresolved alerts is
    an invariant of [_applyStockChangesFromSale], whatever the sale and
    however the reconciliation ends, and of [addSale] as a whole. *)
Theorem C1_sale_keeps_one_open_alert_per_product :
  (forall (w : World) (fs : Props) (es : list JVal) (pid : string) (i : nat)
          (pf : Props) (pieces sft : float),
      document w fs -> adapter w = LocalStorageAdapter ->
      is_array (collection "sales" fs) = true ->
      collection "alerts" fs = JArr es [] ->
      Forall (fun a => truthy a = true) es ->
      find (collection "products" fs) (matches_item (Scenario.line pid "Box" 4))
        = Ok (Some (i, JObj pf)) ->
      lookup "currentStock" pf = Some (counters (JNum 5) (JNum pieces) (JNum sft)) ->
      lookup "minStock" pf = Some (JNum 2) ->
      open_count (JStr pid) fs = 0%nat ->
      exists sale1 w1 fs1 sale2 w2 fs2,
        addSale (Scenario.one_line pid "Box" 4) w = (Ok sale1, w1) /\
        document w1 fs1 /\
        boxes_of pid fs1 = Ok (JNum 1) /\
        open_count (JStr pid) fs1 = 1%nat /\
        length (alert_list fs1) = S (length es) /\
        addSale (Scenario.one_line pid "Box" 1) w1 = (Ok sale2, w2) /\
        document w2 fs2 /\
        boxes_of pid fs2 = Ok (JNum 0) /\
        open_count (JStr pid) fs2 = 1%nat /\
        alert_list fs2 = alert_list fs1)
  /\
  (forall (w : World) (sale : JVal),
      inv alert_invariant w ->
      inv alert_invariant (snd (_applyStockChangesFromSale sale w)))
  /\
  (forall (w : World) (saleData : Props),
      inv alert_invariant w ->
      inv alert_invariant (snd (addSale saleData w))).
Proof.
  split; [|split].
  - intros w fs es pid i pf pieces sft Hd Ha Hsales Ec Ht Hf Hcs Hm Hnone.
    pose proof (found_normal w fs _ _ _ Hd Hf) as Hnpf.
    destruct (addSale_boxes_low w fs es pid 4 i pf (JNum 5) (JNum pieces) (JNum sft)
                5 pieces sft 2 Hd Ha Hsales Ec Ht Hf Hcs eq_refl eq_refl eq_refl Hm eq_refl)
      as (sale1 & w1 & fs1 & Hadd1 & Hd1 & Ha1 & Hsales1 & Hf1 & Harr1 & Ht1 & Hc1 & Hl1 & _).
    rewrite Hnone in Hc1. cbn [Nat.max] in Hc1. specialize (Hl1 Hnone).
    set (pf1 := sold_product pf (boxes_after_sale 5 4) (round3 (num_or_zero pieces))
                  (round3 (num_or_zero sft))) in *.
    pose proof (sold_product_stock pf (boxes_after_sale 5 4) (round3 (num_or_zero pieces))
                  (round3 (num_or_zero sft))) as Hcs1.
    fold pf1 in Hcs1. change (json_num (boxes_after_sale 5 4)) with (JNum 1) in Hcs1.
    destruct (ToNumber_json_num (round3 (num_or_zero pieces))) as [p1 Hp1].
    destruct (ToNumber_json_num (round3 (num_or_zero sft))) as [s1 Hs1].
    assert (Hm1 : lookup "minStock" pf1 = Some (JNum 2)).
    { unfold pf1. rewrite (sold_product_other _ _ _ _ "minStock" Hnpf eq_refl). exact Hm. }
    pose proof (collection_alert_list fs1 Harr1 (proj2 Hd1)) as Ec1.
    destruct (addSale_boxes_low w1 fs1 (alert_list fs1) pid 1 i pf1 _ _ _ 1 p1 s1 2
                Hd1 Ha1 Hsales1 Ec1 Ht1 (Hf1 1) Hcs1 eq_refl Hp1 Hs1 Hm1 eq_refl)
      as (sale2 & w2 & fs2 & Hadd2 & Hd2 & _ & _ & Hf2 & _ & _ & Hc2 & _ & Hl2).
    rewrite Hc1 in Hc2. cbn [Nat.max] in Hc2.
    exists sale1, w1, fs1, sale2, w2, fs2.
    split; [exact Hadd1|]. split; [exact Hd1|].
    split; [exact (boxes_of_found fs1 pid 4 i pf1 _ _ _ (Hf1 4) Hcs1)|].
    split; [exact Hc1|]. split; [exact Hl1|].
    split; [exact Hadd2|]. split; [exact Hd2|]. split; [|split; [exact Hc2|]].
    + pose proof (sold_product_stock pf1 (boxes_after_sale 1 1) (round3 (num_or_zero p1))
                    (round3 (num_or_zero s1))) as Hcs2.
      change (json_num (boxes_after_sale 1 1)) with (JNum 0) in Hcs2.
      exact (boxes_of_found fs2 pid 1 i _ _ _ _ (Hf2 1) Hcs2).
    + apply Hl2. rewrite Hc1. discriminate.
  - intros w sale H. pose proof (sale_reconciliation_keeps sale w H) as K.
    destruct (_applyStockChangesFromSale sale w) as [[u|e] w']; exact K.
  - intros w saleData H. pose proof (addSale_keeps saleData w H) as K.
    destruct (addSale saleData w) as [[u|e] w']; exact K.
Qed.

Lemma C1_two_sales_witness :
  open_count (JStr "p1") (cached_fields C1_example.after_first) = 1%nat /\
  boxes_of "p1" (cached_fields C1_example.after_second) = Ok (JNum 0) /\
  open_count (JStr "p1") (cached_fields C1_example.after_second) = 1%nat.
Proof.
  destruct C1_sale_keeps_one_open_alert_per_product as (H & _ & _).
  destruct (H Scenario.stocked (cached_fields Scenario.stocked) [] "p1" 0%nat
              C1_example.product 40 60)
    as (sale1 & w1 & fs1 & sale2 & w2 & fs2
        & Hadd1 & [Hc1 _] & _ & Ho1 & _ & Hadd2 & [Hc2 _] & Hb2 & Ho2 & _).
  - split; vm_compute; reflexivity.
  - reflexivity.
  - vm_compute. reflexivity.
  - vm_compute. reflexivity.
  - constructor.
  - vm_compute. reflexivity.
  - vm_compute. reflexivity.
  - vm_compute. reflexivity.
  - vm_compute. reflexivity.
  - unfold C1_example.after_second, C1_example.after_first, Scenario.exec.
    rewrite Hadd1. cbn [snd]. rewrite Hadd2. cbn [snd].
    unfold cached_fields. rewrite Hc1, Hc2.
    split; [exact Ho1 | split; [exact Hb2 | exact Ho2]].
Defined.

(* ================================================================== *)
(** ** Alerts: recording a purchase *)
(* ================================================================== *)

(** What the reconciliation of a purchase may do to an alert entry [a]:
    leave it as it is or, when it is an open alert of some product, give
    it [resolved = true] and a [resolvedAt] date. *)
Definition kept_or_resolved (a a' : JVal) : Prop :=
  a' = a \/
  ((exists pid, is_open_alert pid a = true) /\
   exists t, a' = put (put a "resolved" (JBool true)) "resolvedAt" (JStr t)).

Lemma resolved_from_kept pid a a' : resolved_from pid a a' -> kept_or_resolved a a'.
Proof.
  unfold resolved_from. destruct (is_open_alert pid a) eqn:E.
  - intros H. right. split; [exists pid; exact E | exact H].
  - intros ->. left. reflexivity.
Qed.

Lemma kept_or_resolved_refl a : kept_or_resolved a a.
Proof. left. reflexivity. Qed.

(** A resolved entry is open for no product: it is not resolved twice. *)
Lemma kept_or_resolved_open pid a a' :
  kept_or_resolved a a' -> is_open_alert pid a' = true -> a' = a.
Proof.
  intros [-> | [[pid0 Ho] [t ->]]] H; [reflexivity|].
  pose proof (resolved_from_not_open pid a
                (put (put a "resolved" (JBool true)) "resolvedAt" (JStr t))) as Hn.
  destruct a as [| | | | | |ps]; try discriminate Ho.
  cbn [is_open_alert] in Ho. apply andb_true_iff in Ho. destruct Ho as [_ Ho].
  unfold put in H. cbn [set_prop is_open_alert] in H.
  rewrite (lookup_update_other "resolved" "resolvedAt") in H by reflexivity.
  rewrite lookup_update_same in H. cbn [or_undef truthy negb] in H.
  rewrite andb_false_r in H. discriminate.
Qed.

Lemma kept_or_resolved_trans a a' a'' :
  kept_or_resolved a a' -> kept_or_resolved a' a'' -> kept_or_resolved a a''.
Proof.
  intros H1 H2. destruct H2 as [-> | [[pid Ho] Ht]]; [exact H1|].
  pose proof (kept_or_resolved_open pid a a' H1 Ho) as E. subst a'.
  right. split; [exists pid; exact Ho | exact Ht].
Qed.

Lemma kept_or_resolved_all_trans es es' es'' :
  Forall2 kept_or_resolved es es' -> Forall2 kept_or_resolved es' es'' ->
  Forall2 kept_or_resolved es es''.
Proof.
  intros H. revert es''. induction H as [|a a' r r' Ha _ IH]; intros es'' H2.
  - inversion H2. constructor.
  - inversion H2 as [|? a'' ? r'' Ha' Hr']; subst.
    constructor; [exact (kept_or_resolved_trans _ _ _ Ha Ha') | exact (IH _ Hr')].
Qed.

Lemma kept_or_resolved_all_refl es : Forall2 kept_or_resolved es es.
Proof. induction es; constructor; [apply kept_or_resolved_refl | assumption]. Qed.

Lemma resolved_from_all_kept pid es es' :
  Forall2 (resolved_from pid) es es' -> Forall2 kept_or_resolved es es'.
Proof.
  induction 1; constructor; [eapply resolved_from_kept; eassumption | assumption].
Qed.

Lemma kept_or_resolved_truthy es es' :
  Forall2 kept_or_resolved es es' ->
  Forall (fun a => truthy a = true) es -> Forall (fun a => truthy a = true) es'.
Proof.
  induction 1 as [|a a' r r' Ha _ IH]; intros Ht; [constructor|].
  inversion Ht; subst. constructor; [|apply IH; assumption].
  destruct Ha as [-> | [_ [t ->]]]; [assumption|].
  apply put_truthy, put_truthy. assumption.
Qed.

(** No product gets an open alert from it. *)
Lemma kept_or_resolved_count pid es es' :
  Forall2 kept_or_resolved es es' ->
  (length (filter (is_open_alert pid) es') <= length (filter (is_open_alert pid) es))%nat.
Proof.
  induction 1 as [|a a' r r' Ha _ IH]; [apply le_n|].
  cbn [filter]. destruct (is_open_alert pid a') eqn:E'.
  - rewrite (kept_or_resolved_open pid a a' Ha E') in E'. rewrite E'. cbn [length]. lia.
  - destruct (is_open_alert pid a); cbn [length]; lia.
Qed.

(** When none of the open alerts of [pid] is left, each of them has been
    resolved. *)
Lemma kept_or_resolved_closed pid es es' :
  Forall2 kept_or_resolved es es' -> filter (is_open_alert pid) es' = [] ->
  Forall2 (fun a a' =>
             is_open_alert pid a = true ->
             exists t, a' = put (put a "resolved" (JBool true)) "resolvedAt" (JStr t))
          es es'.
Proof.
  induction 1 as [|a a' r r' Ha _ IH]; intros Hf; [constructor|].
  cbn [filter] in Hf. destruct (is_open_alert pid a') eqn:E'; [discriminate|].
  constructor; [|exact (IH Hf)].
  intros Ho. destruct Ha as [-> | [_ Ht]]; [congruence | exact Ht].
Qed.

(** [Number(product.currentStock.k)], the counter that the test of the
    purchase path compares with the minimum. *)
Definition counter_number (product : JVal) (k : string) : Result float :=
  rbind (get_prop product "currentStock") (fun cs =>
  rbind (get_prop cs k) ToNumber).

Lemma counter_test_number cmp product k min n :
  counter_number product k = Ok n ->
  counter_test cmp product k min = Ok (cmp n min && (0 <? min)).
Proof.
  unfold counter_number, counter_test. intros H.
  destruct (get_prop product "currentStock") as [cs|]; [|discriminate]. cbn [rbind] in *.
  destruct (get_prop cs k) as [x|]; [|discriminate]. cbn [rbind] in *.
  rewrite H. reflexivity.
Qed.

(** The three tests of the purchase path, on the three counters. *)
Lemma threshold_test_counters cmp product min b p s :
  counter_number product "boxes" = Ok b ->
  counter_number product "pieces" = Ok p ->
  counter_number product "sft" = Ok s ->
  threshold_test cmp product min
  = Ok ((cmp b min || cmp p min || cmp s min) && (0 <? min)).
Proof.
  intros Hb Hp Hs. unfold threshold_test.
  rewrite (counter_test_number _ _ _ _ _ Hb), (counter_test_number _ _ _ _ _ Hp),
          (counter_test_number _ _ _ _ _ Hs).
  cbn [rbind]. destruct (cmp b min), (cmp p min), (cmp s min), (0 <? min); reflexivity.
Qed.

(** The state in which the lines of a purchase run: the localStorage
    adapter, a cached document whose alerts are an array of entries that
    count as true, each the entry of [es0] at its place, kept or
    resolved. *)
Definition purchase_invariant (es0 : list JVal) (w : World) : Prop :=
  adapter w = LocalStorageAdapter /\
  exists fs es,
    document w fs /\ collection "alerts" fs = JArr es [] /\
    Forall (fun a => truthy a = true) es /\
    Forall2 kept_or_resolved es0 es.

Lemma apply_line_id counter delta product item product' :
  truthy product = true ->
  apply_line counter delta product item = Ok product' ->
  get_prop product' "id" = Ok (id_of product).
Proof.
  intros Hp Hline.
  rewrite (apply_line_get _ _ _ _ _ "id" Hline eq_refl). apply id_of_get. exact Hp.
Qed.

(** One line of a purchase keeps the invariant, however it ends. *)
Lemma purchase_item_keeps es0 products item :
  hoare (purchase_invariant es0) (purchase_item products item)
        (fun _ => purchase_invariant es0) (purchase_invariant es0).
Proof.
  intros w Hinv. unfold purchase_item.
  unfold bind at 1. unfold lift at 1.
  destruct (find products (matches_item item)) as [[[i product]|]|e]; [ | | exact Hinv].
  - destruct (truthy product) eqn:Hp; cbn [negb]; [|exact Hinv].
    unfold bind at 1. unfold lift at 1.
    destruct (apply_line purchase_counter PrimFloat.add product item) as [product'|e] eqn:Ea;
      [|exact Hinv].
    unfold bind at 1. unfold lift at 1.
    destruct (number_field product' "minStock") as [min|e]; [|exact Hinv].
    unfold bind at 1. unfold lift at 1.
    destruct (threshold_test (fun x m => PrimFloat.leb m x) product' min) as [enough|e];
      [|exact Hinv].
    destruct enough; [|exact Hinv].
    destruct Hinv as (Ha & fs & es & Hd & Ec & Ht & Hk).
    destruct (resolve_alerts_array product' (id_of product) w fs es Hd Ha Ec Ht
                (apply_line_id _ _ _ _ _ Hp Ea))
      as (w' & fs' & es' & Hr & Hd' & Ha' & Ec' & HR).
    unfold bind, ret. rewrite Hr.
    pose proof (resolved_from_all_kept _ _ _ HR) as HK.
    split; [exact Ha'|]. exists fs', es'.
    split; [exact Hd'|]. split; [exact Ec'|].
    split; [exact (kept_or_resolved_truthy _ _ HK Ht)|].
    exact (kept_or_resolved_all_trans _ _ _ Hk HK).
  - exact Hinv.
Qed.

(** A save of another collection keeps the invariant. *)
Lemma saveCollection_keeps_alerts es0 name c :
  String.eqb "alerts" name = false ->
  preserves (purchase_invariant es0) (_saveCollection name c).
Proof.
  intros Hk w (Ha & fs & es & Hd & Ec & Ht & HK).
  rewrite (saveCollection_document w fs name c Hd Ha).
  split; [rewrite saved_adapter; exact Ha|].
  exists (norm_props (update name c fs)), es.
  split; [apply saved_document|]. split; [|split; assumption].
  rewrite <- Ec. apply collection_frame.
  rewrite (lookup_norm_props_update_other _ _ _ _ Hk).
  destruct Hd as [_ Hn]. apply normal_obj in Hn. rewrite Hn. reflexivity.
Qed.

Lemma purchase_invariant_start w fs es :
  document w fs -> adapter w = LocalStorageAdapter ->
  collection "alerts" fs = JArr es [] ->
  Forall (fun a => truthy a = true) es ->
  purchase_invariant es w.
Proof.
  intros Hd Ha Ec Ht. split; [exact Ha|]. exists fs, es.
  split; [exact Hd|]. split; [exact Ec|]. split; [exact Ht|].
  apply kept_or_resolved_all_refl.
Qed.

(** The reconciliation of a purchase keeps the invariant, whatever the
    purchase and however the reconciliation ends. *)
Lemma purchase_reconciliation_keeps es0 purchase :
  preserves (purchase_invariant es0) (_applyStockChangesFromPurchase purchase).
Proof.
  unfold _applyStockChangesFromPurchase.
  destruct (negb (truthy purchase)); [apply preserves_ret|].
  apply preserves_bind; [apply preserves_lift|]. intros items.
  destruct items as [| | | | |items ps|]; try apply preserves_ret.
  apply preserves_bind.
  { intros w Hinv. pose proof Hinv as (_ & fs & _ & Hd & _).
    rewrite (getCollection_document w fs "products" Hd). exact Hinv. }
  intros products. apply preserves_bind.
  { apply (hoare_foldM (fun _ => purchase_invariant es0)). intros a b.
    apply purchase_item_keeps. }
  intros products'. apply preserves_bind; [|intros; apply preserves_ret].
  apply saveCollection_keeps_alerts. reflexivity.
Qed.

(** What the invariant says of the alerts at the end. *)
Lemma purchase_invariant_alerts es0 w :
  purchase_invariant es0 w ->
  exists fs, document w fs /\ Forall2 kept_or_resolved es0 (alert_list fs).
Proof.
  intros (_ & fs & es & Hd & Ec & _ & HK). exists fs. split; [exact Hd|].
  rewrite (alert_list_collection fs es [] Ec). exact HK.
Qed.

(** A line at any place of a purchase: when the lines before it have
    run, its product is found and, after the increment and the rounding,
    has a counter at or above its positive minimum, then at the end of
    the reconciliation, however the lines after it end, the alerts are
    the entries there were, each kept or resolved, and every open alert of
    the product has been resolved. *)
Lemma reconcile_purchase_line_at :
  forall (w : World) (fs : Props) (es : list JVal) (purchase : JVal)
         (pre post : list JVal) (item : JVal) (ps : Props)
         (products1 : JVal) (w1 : World) (i : nat) (product product' : JVal)
         (b p s min : float),
    document w fs -> adapter w = LocalStorageAdapter ->
    collection "alerts" fs = JArr es [] ->
    Forall (fun a => truthy a = true) es ->
    truthy purchase = true ->
    get_prop purchase "items" = Ok (JArr (pre ++ item :: post) ps) ->
    foldM purchase_item pre (collection "products" fs) w = (Ok products1, w1) ->
    find products1 (matches_item item) = Ok (Some (i, product)) ->
    truthy product = true ->
    apply_line purchase_counter PrimFloat.add product item = Ok product' ->
    counter_number product' "boxes" = Ok b ->
    counter_number product' "pieces" = Ok p ->
    counter_number product' "sft" = Ok s ->
    number_field product' "minStock" = Ok min ->
    (min <=? b) || (min <=? p) || (min <=? s) = true -> (0 <? min) = true ->
    exists fs',
      document (snd (_applyStockChangesFromPurchase purchase w)) fs' /\
      Forall2 kept_or_resolved es (alert_list fs') /\
      Forall2 (fun a a' =>
                 is_open_alert (id_of product) a = true ->
                 exists t, a' = put (put a "resolved" (JBool true)) "resolvedAt" (JStr t))
              es (alert_list fs') /\
      length (alert_list fs') = length es /\
      open_count (id_of product) fs' = 0%nat.
Proof.
  intros w fs es purchase pre post item ps products1 w1 i product product' b p s min
         Hd Ha Ec Ht Hp Hitems Hpre Hf Htp Hline Hb Hpc Hs Hmin Hge Hpos.
  (* the lines before *)
  pose proof (hoare_foldM (fun _ => purchase_invariant es) (purchase_invariant es)
                purchase_item pre (collection "products" fs)
                (fun a b0 => purchase_item_keeps es a b0) w
                (purchase_invariant_start w fs es Hd Ha Ec Ht)) as H1.
  rewrite Hpre in H1. destruct H1 as (Ha1 & fs1 & es1 & Hd1 & Ec1 & Ht1 & HK1).
  (* the line *)
  assert (Hth : threshold_test (fun x m => PrimFloat.leb m x) product' min = Ok true).
  { rewrite (threshold_test_counters _ _ _ _ _ _ Hb Hpc Hs), Hge, Hpos. reflexivity. }
  destruct (resolve_alerts_array product' (id_of product) w1 fs1 es1 Hd1 Ha1 Ec1 Ht1
              (apply_line_id _ _ _ _ _ Htp Hline))
    as (w2 & fs2 & es2 & Hr & Hd2 & Ha2 & Ec2 & HR).
  assert (Hstep : purchase_item products1 item w1 = (Ok (store_at products1 i product'), w2)).
  { unfold purchase_item, bind, lift. rewrite Hf, Htp. cbn [negb].
    rewrite Hline, Hmin, Hth. rewrite Hr. reflexivity. }
  pose proof (resolved_from_all_kept _ _ _ HR) as HK2.
  pose proof (kept_or_resolved_truthy _ _ HK2 Ht1) as Ht2.
  (* the lines after, and the save of the products *)
  assert (Hend : purchase_invariant es2 (snd (_applyStockChangesFromPurchase purchase w))).
  { unfold _applyStockChangesFromPurchase. rewrite Hp. cbn [negb].
    unfold bind at 1. unfold lift at 1. rewrite Hitems.
    rewrite (bind_ok _ _ _ _ _ (getCollection_document w fs "products" Hd)).
    unfold bind at 1. rewrite foldM_app. unfold bind at 1. rewrite Hpre.
    cbn [foldM]. unfold bind at 1. rewrite Hstep.
    pose proof (hoare_foldM (fun _ => purchase_invariant es2) (purchase_invariant es2)
                  purchase_item post (store_at products1 i product')
                  (fun a b0 => purchase_item_keeps es2 a b0) w2
                  (purchase_invariant_start w2 fs2 es2 Hd2 Ha2 Ec2 Ht2)) as H3.
    destruct (foldM purchase_item post (store_at products1 i product') w2)
      as [[products3|e] w3]; [|exact H3].
    pose proof (saveCollection_keeps_alerts es2 "products" products3 eq_refl w3 H3) as H4.
    unfold bind, ret.
    destruct (_saveCollection "products" products3 w3) as [[u|e] w4]; exact H4. }
  destruct (purchase_invariant_alerts _ _ Hend) as (fs' & Hd' & HK3).
  pose proof (kept_or_resolved_all_trans _ _ _
                (kept_or_resolved_all_trans _ _ _ HK1 HK2) HK3) as HK.
  assert (Hnone : filter (is_open_alert (id_of product)) (alert_list fs') = []).
  { pose proof (kept_or_resolved_count (id_of product) _ _ HK3) as Hle.
    rewrite (resolved_from_count _ _ _ HR) in Hle. cbn [length] in Hle.
    destruct (filter (is_open_alert (id_of product)) (alert_list fs'));
      [reflexivity | cbn [length] in Hle; lia]. }
  exists fs'. split; [exact Hd'|]. split; [exact HK|].
  split; [exact (kept_or_resolved_closed _ _ _ HK Hnone)|].
  split; [symmetry; eapply Forall2_length; exact HK|].
  unfold open_count. rewrite Hnone. reflexivity.
Qed.

Lemma record_purchase_keeps es0 purchaseData :
  preserves (purchase_invariant es0) (record_purchase purchaseData).
Proof.
  unfold record_purchase.
  apply preserves_bind.
  { intros w Hinv. pose proof Hinv as (_ & fs & _ & Hd & _).
    rewrite (getCollection_document w fs "purchases" Hd). exact Hinv. }
  intros list. apply preserves_bind; [intros w H; exact H|]. intros id.
  apply preserves_bind; [intros w H; exact H|]. intros dateTime. cbv zeta.
  apply preserves_bind; [apply preserves_lift|]. intros list'.
  apply preserves_bind; [|intros; apply preserves_ret].
  apply saveCollection_keeps_alerts. reflexivity.
Qed.

(** [addPurchase] keeps the invariant, whatever the purchase and however
    the call ends. *)
Lemma addPurchase_keeps es0 purchaseData :
  preserves (purchase_invariant es0) (addPurchase purchaseData).
Proof.
  unfold addPurchase.
  apply preserves_bind; [apply record_purchase_keeps|]. intros purchase.
  apply preserves_bind; [|intros; apply preserves_ret].
  apply preserves_try_catch; [apply purchase_reconciliation_keeps|].
  intros e w H. exact H.
Qed.

(** What a computation that keeps the invariant leaves of the alerts. *)
Lemma alerts_at_the_end {A} (m : M A) w fs es :
  preserves (purchase_invariant es) m ->
  document w fs -> adapter w = LocalStorageAdapter ->
  collection "alerts" fs = JArr es [] ->
  Forall (fun a => truthy a = true) es ->
  exists fs',
    document (snd (m w)) fs' /\
    Forall2 kept_or_resolved es (alert_list fs') /\
    length (alert_list fs') = length es /\
    forall pid, (open_count pid fs' <= open_count pid fs)%nat.
Proof.
  intros Hkeep Hd Ha Ec Ht.
  assert (Hend : purchase_invariant es (snd (m w))).
  { pose proof (Hkeep w (purchase_invariant_start w fs es Hd Ha Ec Ht)) as H.
    destruct (m w) as [[x|e] w']; exact H. }
  destruct (purchase_invariant_alerts _ _ Hend) as (fs' & Hd' & HK).
  exists fs'. split; [exact Hd'|]. split; [exact HK|].
  split; [symmetry; eapply Forall2_length; exact HK|].
  intros pid. unfold open_count. rewrite (alert_list_collection fs es [] Ec).
  apply kept_or_resolved_count. exact HK.
Qed.

(** [addPurchase] with such a line at any place of its [items]. *)
Lemma addPurchase_line_at :
  forall (w : World) (fs : Props) (es : list JVal) (purchaseData : Props)
         (pre post : list JVal) (item : JVal) (ps : Props)
         (products1 : JVal) (w1 : World) (i : nat) (product product' : JVal)
         (b p s min : float),
    document w fs -> adapter w = LocalStorageAdapter ->
    is_array (collection "purchases" fs) = true ->
    collection "alerts" fs = JArr es [] ->
    Forall (fun a => truthy a = true) es ->
    NoDup (map fst purchaseData) ->
    lookup "items" purchaseData = Some (JArr (pre ++ item :: post) ps) ->
    foldM purchase_item pre (collection "products" fs)
          (snd (record_purchase purchaseData w)) = (Ok products1, w1) ->
    find products1 (matches_item item) = Ok (Some (i, product)) ->
    truthy product = true ->
    apply_line purchase_counter PrimFloat.add product item = Ok product' ->
    counter_number product' "boxes" = Ok b ->
    counter_number product' "pieces" = Ok p ->
    counter_number product' "sft" = Ok s ->
    number_field product' "minStock" = Ok min ->
    (min <=? b) || (min <=? p) || (min <=? s) = true -> (0 <? min) = true ->
    exists purchase fs',
      fst (addPurchase purchaseData w) = Ok purchase /\
      fst (record_purchase purchaseData w) = Ok purchase /\
      document (snd (addPurchase purchaseData w)) fs' /\
      Forall2 kept_or_resolved es (alert_list fs') /\
      Forall2 (fun a a' =>
                 is_open_alert (id_of product) a = true ->
                 exists t, a' = put (put a "resolved" (JBool true)) "resolvedAt" (JStr t))
              es (alert_list fs') /\
      length (alert_list fs') = length es /\
      open_count (id_of product) fs' = 0%nat.
Proof.
  intros w fs es purchaseData pre post item ps products1 w1 i product product' b p s min
         Hd Ha Hpur Ec Ht Hnd Hitems Hpre Hf Htp Hline Hb Hpc Hs Hmin Hge Hpos.
  destruct (collection "purchases" fs) as [| | | | |us ups|] eqn:Eu; try discriminate.
  destruct (collection_array w fs _ _ _ Hd Eu) as [-> Hus].
  pose proof (record_purchase_document w fs purchaseData us Hd Ha Eu) as Hr.
  cbv zeta in Hr.
  set (purchase := JObj (new_purchase ("pur_" ++ random w (random_reads w))%string
                           (clock w (clock_reads w)) purchaseData)) in *.
  set (fs0 := update "purchases" (JArr (us ++ [purchase]) []) fs) in *.
  set (w0 := snd (forEach notify (_watchers w) (saved (ticked w) fs0))) in *.
  assert (Hw0 : snd (record_purchase purchaseData w) = w0) by (rewrite Hr; reflexivity).
  rewrite Hw0 in Hpre.
  assert (Hd0 : document w0 (norm_props fs0)) by apply saved_document.
  assert (Ha0 : adapter w0 = LocalStorageAdapter).
  { unfold w0. rewrite saved_adapter. exact Ha. }
  assert (Hframe : forall k, String.eqb k "purchases" = false ->
                             lookup k (norm_props fs0) = lookup k fs).
  { intros k Hk. unfold fs0. rewrite (lookup_norm_props_update_other _ _ _ _ Hk).
    destruct Hd as [_ Hn]. apply normal_obj in Hn. rewrite Hn. reflexivity. }
  assert (Hproducts : collection "products" (norm_props fs0) = collection "products" fs).
  { apply collection_frame. apply Hframe. reflexivity. }
  assert (Halerts : collection "alerts" (norm_props fs0) = JArr es []).
  { rewrite (collection_frame fs (norm_props fs0) "alerts") by (apply Hframe; reflexivity).
    exact Ec. }
  assert (Hitems' : get_prop purchase "items" = Ok (JArr (pre ++ item :: post) ps)).
  { unfold purchase. cbn [get_prop]. unfold new_purchase.
    rewrite (Object_assign_lookup "items" _ _ _ Hnd Hitems). reflexivity. }
  rewrite <- Hproducts in Hpre.
  destruct (reconcile_purchase_line_at w0 (norm_props fs0) es purchase pre post item ps
              products1 w1 i product product' b p s min
              Hd0 Ha0 Halerts Ht eq_refl Hitems' Hpre Hf Htp Hline Hb Hpc Hs Hmin Hge Hpos)
    as (fs' & Hd' & HK & HC & Hlen & Hopen).
  exists purchase, fs'.
  assert (Hadd : addPurchase purchaseData w
                 = (Ok purchase,
                    match _applyStockChangesFromPurchase purchase w0 with
                    | (Ok _, w2) => w2
                    | (Throw _, w2) => warned "Stock update after purchase failed:" w2
                    end)).
  { unfold addPurchase.
    apply (record_then_reconcile (record_purchase purchaseData) _ _ w purchase w0 Hr). }
  rewrite Hadd, Hr. cbn [fst snd].
  split; [reflexivity|]. split; [reflexivity|]. split; [|auto].
  destruct (_applyStockChangesFromPurchase purchase w0) as [[u|e] w2]; exact Hd'.
Qed.

Module C2_example.
Import Scenario.

(** After the two sales of the example of C1 (no box left, one open
    alert), a purchase of three lines: one for a product that does not
    exist, then five boxes of "p1", then one piece of it. *)
Definition before : World := C1_example.after_second.

Definition lines_before : list JVal := [line "p9" "Box" 1].
Definition the_line : JVal := line "p1" "Box" 5.
Definition lines_after : list JVal := [line "p1" "Piece" 1].

Definition purchaseData : Props :=
  [("items", JArr (lines_before ++ the_line :: lines_after) [])].

Definition after : World := exec (addPurchase purchaseData) before.

(** The local array of products and the world when the loop reaches the
    second line. *)
Definition reached : Result JVal * World :=
  foldM purchase_item lines_before (collection "products" (cached_fields before))
        (snd (record_purchase purchaseData before)).

Definition products1 : JVal :=
  match fst reached with Ok ps => ps | Throw _ => JNull end.

Definition product : JVal :=
  match find products1 (matches_item the_line) with
  | Ok (Some (_, p)) => p
  | _ => JNull
  end.

Definition product' : JVal :=
  match apply_line purchase_counter PrimFloat.add product the_line with
  | Ok p => p
  | Throw _ => JNull
  end.

End C2_example.

(** C2. A purchase of any number of lines, on a document whose alert
    entries are records, saved through the localStorage adapter.  Take a
    line at any place of the purchase: when the lines before it have run,
    its product is found and, after the increment and the rounding, one of
    the product's three counters is at or above its [minStock] with
    [minStock > 0], then when the reconciliation is over, however the
    lines after it ended, the alerts collection has the entries it had,
    one for one: every unresolved alert of the product now has
    [resolved = true] and a [resolvedAt] date, every other entry is as it
    was or has been resolved in the same way, none is removed or added,
    and no unresolved alert of the product is left.  This holds of
    [_applyStockChangesFromPurchase] on the purchase object and of
    [addPurchase] as a whole, which returns the purchase it recorded.
    And whatever the purchase and however the call ends, [addPurchase]
    and the reconciliation keep every alert entry, as it was or
    resolved, and give no product an unresolved alert more. *)
Theorem C2_purchase_resolves_open_alerts :
  (forall (w : World) (fs : Props) (es : list JVal) (purchase : JVal)
          (pre post : list JVal) (item : JVal) (ps : Props)
          (products1 : JVal) (w1 : World) (i : nat) (product product' : JVal)
          (b p s min : float),
      document w fs -> adapter w = LocalStorageAdapter ->
      collection "alerts" fs = JArr es [] ->
      Forall (fun a => truthy a = true) es ->
      truthy purchase = true ->
      get_prop purchase "items" = Ok (JArr (pre ++ item :: post) ps) ->
      foldM purchase_item pre (collection "products" fs) w = (Ok products1, w1) ->
      find products1 (matches_item item) = Ok (Some (i, product)) ->
      truthy product = true ->
      apply_line purchase_counter PrimFloat.add product item = Ok product' ->
      counter_number product' "boxes" = Ok b ->
      counter_number product' "pieces" = Ok p ->
      counter_number product' "sft" = Ok s ->
      number_field product' "minStock" = Ok min ->
      (min <=? b) || (min <=? p) || (min <=? s) = true -> (0 <? min) = true ->
      exists fs',
        document (snd (_applyStockChangesFromPurchase purchase w)) fs' /\
        Forall2 kept_or_resolved es (alert_list fs') /\
        Forall2 (fun a a' =>
                   is_open_alert (id_of product) a = true ->
                   exists t,
                     a' = put (put a "resolved" (JBool true)) "resolvedAt" (JStr t))
                es (alert_list fs') /\
        length (alert_list fs') = length es /\
        open_count (id_of product) fs' = 0%nat)
  /\
  (forall (w : World) (fs : Props) (es : list JVal) (purchaseData : Props)
          (pre post : list JVal) (item : JVal) (ps : Props)
          (products1 : JVal) (w1 : World) (i : nat) (product product' : JVal)
          (b p s min : float),
      document w fs -> adapter w = LocalStorageAdapter ->
      is_array (collection "purchases" fs) = true ->
      collection "alerts" fs = JArr es [] ->
      Forall (fun a => truthy a = true) es ->
      NoDup (map fst purchaseData) ->
      lookup "items" purchaseData = Some (JArr (pre ++ item :: post) ps) ->
      foldM purchase_item pre (collection "products" fs)
            (snd (record_purchase purchaseData w)) = (Ok products1, w1) ->
      find products1 (matches_item item) = Ok (Some (i, product)) ->
      truthy product = true ->
      apply_line purchase_counter PrimFloat.add product item = Ok product' ->
      counter_number product' "boxes" = Ok b ->
      counter_number product' "pieces" = Ok p ->
      counter_number product' "sft" = Ok s ->
      number_field product' "minStock" = Ok min ->
      (min <=? b) || (min <=? p) || (min <=? s) = true -> (0 <? min) = true ->
      exists purchase fs',
        fst (addPurchase purchaseData w) = Ok purchase /\
        fst (record_purchase purchaseData w) = Ok purchase /\
        document (snd (addPurchase purchaseData w)) fs' /\
        Forall2 kept_or_resolved es (alert_list fs') /\
        Forall2 (fun a a' =>
                   is_open_alert (id_of product) a = true ->
                   exists t,
                     a' = put (put a "resolved" (JBool true)) "resolvedAt" (JStr t))
                es (alert_list fs') /\
        length (alert_list fs') = length es /\
        open_count (id_of product) fs' = 0%nat)
  /\
  (forall (w : World) (fs : Props) (es : list JVal) (purchase : JVal),
      document w fs -> adapter w = LocalStorageAdapter ->
      collection "alerts" fs = JArr es [] ->
      Forall (fun a => truthy a = true) es ->
      exists fs',
        document (snd (_applyStockChangesFromPurchase purchase w)) fs' /\
        Forall2 kept_or_resolved es (alert_list fs') /\
        length (alert_list fs') = length es /\
        forall pid, (open_count pid fs' <= open_count pid fs)%nat)
  /\
  (forall (w : World) (fs : Props) (es : list JVal) (purchaseData : Props),
      document w fs -> adapter w = LocalStorageAdapter ->
      collection "alerts" fs = JArr es [] ->
      Forall (fun a => truthy a = true) es ->
      exists fs',
        document (snd (addPurchase purchaseData w)) fs' /\
        Forall2 kept_or_resolved es (alert_list fs') /\
        length (alert_list fs') = length es /\
        forall pid, (open_count pid fs' <= open_count pid fs)%nat).
Proof.
  split; [exact reconcile_purchase_line_at|]. split; [exact addPurchase_line_at|].
  split.
  - intros w fs es purchase.
    apply alerts_at_the_end, purchase_reconciliation_keeps.
  - intros w fs es purchaseData.
    apply alerts_at_the_end, addPurchase_keeps.
Qed.

Lemma C2_purchase_witness :
  open_count (JStr "p1") (cached_fields C2_example.before) = 1%nat /\
  open_count (JStr "p1") (cached_fields C2_example.after) = 0%nat /\
  length (alert_list (cached_fields C2_example.after)) = 1%nat.
Proof.
  destruct C2_purchase_resolves_open_alerts as (_ & H & _ & _).
  destruct (H C2_example.before (cached_fields C2_example.before)
              (alert_list (cached_fields C2_example.before))
              C2_example.purchaseData C2_example.lines_before C2_example.lines_after
              C2_example.the_line [] C2_example.products1 (snd C2_example.reached)
              0%nat C2_example.product C2_example.product' 5 40 60 2)
    as (purchase & fs' & _ & _ & Hd' & _ & _ & Hlen & Hopen).
  - split; vm_compute; reflexivity.
  - reflexivity.
  - vm_compute. reflexivity.
  - vm_compute. reflexivity.
  - vm_compute. repeat constructor.
  - repeat constructor. simpl. tauto.
  - reflexivity.
  - vm_compute. reflexivity.
  - vm_compute. reflexivity.
  - vm_compute. reflexivity.
  - vm_compute. reflexivity.
  - vm_compute. reflexivity.
  - vm_compute. reflexivity.
  - vm_compute. reflexivity.
  - vm_compute. reflexivity.
  - vm_compute. reflexivity.
  - vm_compute. reflexivity.
  - split; [vm_compute; reflexivity|].
    assert (E : cached_fields C2_example.after = fs').
    { destruct Hd' as [Hc _]. unfold cached_fields, C2_example.after, Scenario.exec.
      exact (f_equal (fun c => match c with JObj f => f | _ => [] end) Hc). }
    split.
    + exact (eq_trans (f_equal (open_count (JStr "p1")) E) Hopen).
    + exact (eq_trans (f_equal (fun f => length (alert_list f)) E) Hlen).
Defined.

(* ================================================================== *)
(** ** js/storage.js: the rest of the API *)
(* ================================================================== *)

(** [x => x.id === id], the test of every lookup by identifier. *)
Definition has_id (id x : JVal) : Result bool :=
  rbind (get_prop x "id") (fun xid => Ok (strict_equals xid id)).

(** [list.find(x => x.id === id) || null] on the collection [name]: the
    body that [getProductById], [getSaleById] and [getPurchaseById]
    share. *)
Definition find_by_id (name : string) (id : JVal) : M JVal :=
  list <- _getCollection name ;;
  found <- lift (find list (has_id id)) ;;
  ret (js_or (match found with Some (_, x) => x | None => JUndef end) JNull).

(** [getProductById(productId)]. *)
Definition getProductById (productId : JVal) : M JVal := find_by_id "products" productId.

(** [getSaleById(saleId)]. *)
Definition getSaleById (saleId : JVal) : M JVal := find_by_id "sales" saleId.

(** [getPurchaseById(purchaseId)]. *)
Definition getPurchaseById (purchaseId : JVal) : M JVal := find_by_id "purchases" purchaseId.






(** [list.filter(pred)] on the elements. *)
Fixpoint filterM (pred : JVal -> Result bool) (l : list JVal) : Result (list JVal) :=
  match l with
  | [] => Ok []
  | x :: r =>
      rbind (pred x) (fun b =>
      rbind (filterM pred r) (fun r' =>
      Ok (if (b : bool) then x :: r' else r')))
  end.

(** [x => x.id !== id]. *)
Definition other_id (id x : JVal) : Result bool :=
  rbind (has_id id x) (fun b => Ok (negb b)).

(** [deleteProduct(productId)]. *)
Definition deleteProduct (productId : JVal) : M bool :=
  list <- _getCollection "products" ;;
  existing <- lift (find list (has_id productId)) ;;
  if negb (truthy (match existing with Some (_, x) => x | None => JUndef end))
  then throw (JsError "Product not found")
  else
    match list with
    | JArr es _ =>
        kept <- lift (filterM (other_id productId) es) ;;
        _saveCollection "products" (JArr kept []) ;;
        ret true
    | _ => throw TypeError
    end.

(** [alertData.k || d]. *)
Definition given_or (alertData : Props) (k : string) (d : JVal) : JVal :=
  js_or (or_undef (lookup k alertData)) d.

(** The [Object.assign({ id: ..., ... }, alertData)] of addAlert. *)
Definition new_alert (id alertDate : string) (alertData : Props) : Props :=
  Object_assign
    [("id", JStr id);
     ("productId", given_or alertData "productId" JNull);
     ("productName", given_or alertData "productName" (JStr ""));
     ("currentStock", given_or alertData "currentStock" (JNum 0));
     ("minRequired", given_or alertData "minRequired" (JNum 0));
     ("alertDate", JStr alertDate);
     ("resolved", JBool false);
     ("notes", given_or alertData "notes" (JStr ""))]
    alertData.

(** [addAlert(alertData = {})]. *)
Definition addAlert (alertData : Props) : M JVal :=
  list <- _getCollection "alerts" ;;
  id <- generateId "alert" ;;
  alertDate <- nowISO ;;
  let alert := JObj (new_alert id alertDate alertData) in
  list <- lift (push list alert) ;;
  _saveCollection "alerts" list ;;
  ret alert.

(** [resolveAlert(alertId)]. *)
Definition resolveAlert (alertId : JVal) : M JVal :=
  list <- _getCollection "alerts" ;;
  found <- lift (find list (has_id alertId)) ;;
  match found with
  | None => throw (JsError "Alert not found")
  | Some (idx, a) =>
      a <- lift (set_prop a "resolved" (JBool true)) ;;
      t <- nowISO ;;
      a <- lift (set_prop a "resolvedAt" (JStr t)) ;;
      _saveCollection "alerts" (store_at list idx a) ;;
      ret a
  end.

(* ================================================================== *)
(** ** js/utils.js: the box calculators *)
(* ================================================================== *)

(** [Math.ceil]: the least integer not below [x], computed exactly; NaN,
    the infinities and integral values are returned unchanged, and a
    result of zero keeps the sign of [x]. *)
Definition Math_ceil (x : float) : float :=
  match Prim2SF x with
  | S754_finite s m e =>
      if (0 <=? e)%Z then x
      else
        let sm := if s then Z.neg m else Z.pos m in
        (* ceil (sm * 2^e) = - floor (- sm * 2^e) *)
        let n := (- Z.shiftr (- sm) (- e))%Z in
        if (n =? 0)%Z then (if s then neg_zero else PrimFloat.zero)
        else if (n <? 0)%Z then - of_uint63 (Uint63.of_Z (- n))
        else of_uint63 (Uint63.of_Z n)
  | _ => x
  end.

(** [boxesNeededForSft(requiredSft, sftPerBox)]. *)
Definition boxesNeededForSft (requiredSft sftPerBox : JVal) : Result float :=
  rbind (Utils.toNumber requiredSft 0) (fun requiredSft =>
  rbind (Utils.toNumber sftPerBox 0) (fun sftPerBox =>
  if sftPerBox <=? 0 then Ok 0
  else Ok (Math_ceil (requiredSft / sftPerBox)))).

(** [roundTo(v, 4)]: [Math.pow(10, 4)] is 10000. *)
Definition roundTo4 (v : JVal) : Result float :=
  let p := 10000 in
  rbind (Utils.toNumber v 0) (fun n =>
  Ok (Math_round ((n + Utils.Number_EPSILON) * p) / p)).

(** The object that [computeBoxesPiecesSftFromRequiredSft] returns. *)
Record BoxesPlan : Type := mkBoxesPlan {
  boxesNeeded : float;
  boxesRoundedUp : float;
  leftoverSft : float;
  equivalentPieces : float
}.

(** [computeBoxesPiecesSftFromRequiredSft(requiredSft, sftPerBox, piecesPerBox)]. *)
Definition computeBoxesPiecesSftFromRequiredSft (requiredSft sftPerBox piecesPerBox : JVal)
  : Result BoxesPlan :=
  rbind (Utils.toNumber requiredSft 0) (fun requiredSft =>
  rbind (Utils.toNumber sftPerBox 0) (fun sftPerBox =>
  rbind (Utils.toNumber piecesPerBox 0) (fun piecesPerBox =>
  if sftPerBox <=? 0 then Ok (mkBoxesPlan 0 0 requiredSft 0)
  else
    let exactBoxes := requiredSft / sftPerBox in
    let boxesRoundedUp := Math_ceil exactBoxes in
    let boxesNeeded := exactBoxes in
    rbind (Utils.roundTo (JNum (boxesRoundedUp * sftPerBox - requiredSft))) (fun leftoverSft =>
    let equivalentPieces :=
      if 0 <? piecesPerBox then boxesRoundedUp * piecesPerBox else 0 in
    rbind (roundTo4 (JNum boxesNeeded)) (fun boxesNeeded4 =>
    Ok (mkBoxesPlan boxesNeeded4 boxesRoundedUp leftoverSft equivalentPieces)))))).

(* ================================================================== *)
(** ** js/sales.js: the total of a line *)
(* ================================================================== *)

(** [calcLineTotal(qty, unitPrice)]. *)
Definition calcLineTotal (qty unitPrice : JVal) : Result float :=
  rbind (ToNumber qty) (fun q =>
  rbind (ToNumber unitPrice) (fun up =>
  let total := num_or_zero q * num_or_zero up in
  Ok (Math_round ((total + Utils.Number_EPSILON) * 100) / 100))).

(* ================================================================== *)
(** ** Loading: what [LocalStorageAdapter.load] does in every case *)
(* ================================================================== *)

(** The document that [emptyDB()] builds when the clock answers
    [createdAt], then [updatedAt]. *)
Definition empty_document (createdAt updatedAt : string) : JVal :=
  JObj [("meta", JObj [("version", JNum DB_VERSION);
                       ("createdAt", JStr createdAt);
                       ("updatedAt", JStr updatedAt)]);
        ("products", JArr [] []);
        ("sales", JArr [] []);
        ("purchases", JArr [] []);
        ("alerts", JArr [] []);
        ("users", JArr [] [])].

(** The world after a reset: the clock has been read twice and the fresh
    document is in localStorage. *)
Definition reset_world (w : World) : World :=
  set_localStorage (set_clock_reads w (S (S (clock_reads w))))
    (Some (TJson (empty_document (clock w (clock_reads w)) (clock w (S (clock_reads w)))))).

Lemma reset_to_emptyDB_spec w :
  reset_to_emptyDB w
  = (Ok (empty_document (clock w (clock_reads w)) (clock w (S (clock_reads w)))),
     reset_world w).
Proof. reflexivity. Qed.

(** The world after [console.error(msg, ...)]. *)
Definition logged_error (msg : string) (w : World) : World :=
  set_console w ((Lerror, msg) :: console w).

(** The staleness test of [load] comes out false on [v]: [v.meta] counts
    as true and [v.meta.version] is the current version. *)
Definition current (v : JVal) : Prop :=
  exists meta,
    get_prop v "meta" = Ok meta /\ truthy meta = true /\
    exists version, get_prop meta "version" = Ok version /\
                    strict_equals version (JNum DB_VERSION) = true.

(** A parsed value is stale, current, or one whose [meta] cannot be read
    ([null]; a text never parses to [undefined]). *)
Lemma stale_or_current v :
  stale v \/ current v \/ get_prop v "meta" = Throw TypeError.
Proof.
  destruct (get_prop v "meta") as [meta|e] eqn:Em.
  - destruct (truthy meta) eqn:Tm.
    + destruct (get_prop_truthy meta "version" Tm) as [version Hv].
      destruct (strict_equals version (JNum DB_VERSION)) eqn:Ev.
      * right. left. exists meta. split; [exact Em|]. split; [exact Tm|].
        exists version. split; assumption.
      * left. exists meta. split; [exact Em|]. right. exists version. split; assumption.
    + left. exists meta. split; [exact Em|]. left. exact Tm.
  - right. right. rewrite <- Em. destruct v; simpl in Em; try discriminate; reflexivity.
Qed.

Lemma load_missing w :
  localStorage w = None \/ localStorage w = Some TEmpty ->
  LocalStorageAdapter_load w
  = (Ok (empty_document (clock w (clock_reads w)) (clock w (S (clock_reads w)))),
     reset_world w).
Proof.
  intros H. unfold LocalStorageAdapter_load.
  unfold bind at 1. unfold localStorage_getItem at 1.
  destruct H as [-> | ->]; apply reset_to_emptyDB_spec.
Qed.

Lemma load_unreadable w t :
  localStorage w = Some t ->
  t = TInvalid \/ (exists v, t = TJson v /\ get_prop v "meta" = Throw TypeError) ->
  LocalStorageAdapter_load w
  = (Ok (empty_document (clock w (clock_reads w)) (clock w (S (clock_reads w)))),
     reset_world (logged_error "Failed to parse DB from localStorage, resetting DB:" w)).
Proof.
  intros Hls H. unfold LocalStorageAdapter_load.
  unfold bind at 1. unfold localStorage_getItem at 1. rewrite Hls.
  destruct H as [-> | (v & -> & Hv)]; cbv iota beta.
  - reflexivity.
  - unfold try_catch. unfold bind at 1. unfold lift at 1. cbn [JSON_parse]. cbv iota beta.
    unfold bind at 1. unfold lift at 1. rewrite Hv. reflexivity.
Qed.

Lemma load_current w v :
  localStorage w = Some (TJson v) -> current v ->
  LocalStorageAdapter_load w = (Ok (norm_elem v), w).
Proof.
  intros Hls (meta & Hm & Tm & version & Hv & Ev). unfold LocalStorageAdapter_load.
  unfold bind at 1. unfold localStorage_getItem at 1. rewrite Hls. cbv iota beta.
  unfold try_catch. unfold bind at 1. unfold lift at 1. cbn [JSON_parse]. cbv iota beta.
  unfold bind at 1. unfold lift at 1. rewrite Hm. cbv iota beta.
  rewrite Tm. cbn [negb].
  unfold bind at 1. unfold bind at 1. unfold lift at 1. rewrite Hv. cbv iota beta.
  unfold ret at 1. rewrite Ev. cbn [negb]. cbv iota beta.
  unfold lift, deepClone, JSON_stringify, norm_elem.
  destruct v; try discriminate; reflexivity.
Qed.

Lemma carried_normal v k : normal (carried v k).
Proof.
  unfold carried. destruct (get_prop v k) as [x|e]; [|reflexivity].
  destruct (truthy x); [|reflexivity].
  apply norm_elem_normal. intros e'. apply json_norm_normal.
Qed.

Lemma migrated_document_normal w v : normal (migrated_document w v).
Proof.
  unfold normal, migrated_document. rewrite json_norm_obj. cbn [norm_props json_norm].
  rewrite (carried_normal v "products"), (carried_normal v "sales"),
    (carried_normal v "purchases").
  reflexivity.
Qed.

(** X1. [LocalStorageAdapter.load] never throws, whatever localStorage
    holds (nothing, the empty string, a text that is not JSON, any JSON
    value): it returns a value, it leaves a JSON text in localStorage, and
    the value returned is a deep copy of what that text parses to. *)
Theorem load_never_throws :
  forall w : World,
    exists v stored w',
      LocalStorageAdapter_load w = (Ok v, w') /\
      localStorage w' = Some (TJson stored) /\
      json_norm stored = Some v.
Proof.
  intros w.
  destruct (localStorage w) as [[| |x]|] eqn:Hls.
  - eexists _, _, _. split; [apply load_missing; right; exact Hls|].
    split; reflexivity.
  - eexists _, _, _. split; [apply (load_unreadable w TInvalid Hls); left; reflexivity|].
    split; reflexivity.
  - destruct (stale_or_current x) as [Hs | [Hc | Ht]].
    + eexists _, _, _. split; [apply (load_stale w x Hls Hs)|].
      split; [reflexivity | apply migrated_document_normal].
    + exists (norm_elem x), x, w. split; [apply (load_current w x Hls Hc)|].
      split; [exact Hls|].
      destruct Hc as (meta & Hm & _). unfold norm_elem.
      destruct x; try discriminate; reflexivity.
    + eexists _, _, _. split.
      * apply (load_unreadable w (TJson x) Hls). right. exists x. split; [reflexivity | exact Ht].
      * split; reflexivity.
  - eexists _, _, _. split; [apply load_missing; left; exact Hls|].
    split; reflexivity.
Qed.

Module Load_example.

(** A text that is not JSON under the key of the database. *)
Definition corrupt : World := set_localStorage Scenario.stocked (Some TInvalid).

(** The stored document of [stocked]. *)
Definition stored : JVal :=
  match localStorage Scenario.stocked with
  | Some (TJson v) => v
  | _ => JNull
  end.

End Load_example.

(** X2. When localStorage holds nothing or the empty string under the
    key, [load] returns a fresh empty document (current version, the five
    collections empty) and writes it to localStorage; when it holds a text
    that is not JSON, or the JSON text [null], it does the same, whatever
    was stored, after one [console.error]. *)
Theorem load_resets_unreadable_storage :
  forall w : World,
    let fresh := empty_document (clock w (clock_reads w)) (clock w (S (clock_reads w))) in
    (localStorage w = None \/ localStorage w = Some TEmpty ->
     LocalStorageAdapter_load w = (Ok fresh, reset_world w)) /\
    (localStorage w = Some TInvalid \/ localStorage w = Some (TJson JNull) ->
     LocalStorageAdapter_load w
     = (Ok fresh,
        reset_world (logged_error "Failed to parse DB from localStorage, resetting DB:" w))) /\
    localStorage (reset_world w) = Some (TJson fresh) /\
    (forall k, In k ["products"; "sales"; "purchases"; "alerts"; "users"] ->
               get_prop fresh k = Ok (JArr [] [])).
Proof.
  intros w fresh. split; [|split; [|split]].
  - apply load_missing.
  - intros [H | H].
    + apply (load_unreadable w TInvalid H). left. reflexivity.
    + apply (load_unreadable w (TJson JNull) H). right. exists JNull. split; reflexivity.
  - reflexivity.
  - intros k Hk. simpl in Hk. destruct Hk as [<- | [<- | [<- | [<- | [<- | []]]]]]; reflexivity.
Qed.

Lemma load_resets_witness :
  fst (LocalStorageAdapter_load Load_example.corrupt)
    = Ok (empty_document "T04" "T05") /\
  console (snd (LocalStorageAdapter_load Load_example.corrupt))
    = [(Lerror, "Failed to parse DB from localStorage, resetting DB:")].
Proof.
  destruct (load_resets_unreadable_storage Load_example.corrupt) as (_ & H & _).
  rewrite H; [split; vm_compute; reflexivity | left; reflexivity].
Defined.

(** X3. When localStorage holds a document of the current version ([meta]
    counts as true and [meta.version] is 1), [load] returns a deep copy of
    it and changes nothing: nothing is written, no clock is read, nothing
    is logged. *)
Theorem load_of_current_document_reads_only :
  forall (w : World) (v : JVal),
    localStorage w = Some (TJson v) -> current v ->
    LocalStorageAdapter_load w = (Ok (norm_elem v), w).
Proof. exact load_current. Qed.

Lemma load_of_current_document_witness :
  LocalStorageAdapter_load Scenario.stocked = (Ok Load_example.stored, Scenario.stocked).
Proof.
  apply (load_of_current_document_reads_only Scenario.stocked Load_example.stored).
  - reflexivity.
  - exists (JObj [("version", JNum 1); ("createdAt", JStr "T00"); ("updatedAt", JStr "T03")]).
    split; [vm_compute; reflexivity|]. split; [reflexivity|].
    exists (JNum 1). split; reflexivity.
Defined.

(* ================================================================== *)
(** ** Saving: what reaches localStorage, and what a failure leaves *)
(* ================================================================== *)

(** The properties of the document that [LocalStorageAdapter.save] writes
    for an object whose [meta] is the object [m]. *)
Definition stored_fields (fs m : Props) (t : string) : Props :=
  norm_props
    (update "meta" (JObj (update "updatedAt" (JStr t) (norm_props m)))
       (update "meta" (JObj (norm_props m)) (norm_props fs))).

Lemma stringify_stamped fs m t :
  lookup "meta" fs = Some (JObj m) ->
  JSON_stringify (stamped fs t) = TJson (JObj (stored_fields fs m t)).
Proof.
  intros Hm. unfold stamped, JSON_stringify, stored_fields.
  rewrite (lookup_norm_props_some _ _ _ _ Hm (json_norm_obj m)).
  cbn [or_undef js_or truthy]. unfold put. cbn [set_prop].
  rewrite json_norm_obj. reflexivity.
Qed.

Lemma stored_fields_meta fs m t :
  lookup "meta" (stored_fields fs m t)
  = Some (JObj (norm_props (update "updatedAt" (JStr t) (norm_props m)))).
Proof.
  unfold stored_fields.
  erewrite lookup_norm_props_some; [reflexivity | apply lookup_update_same | apply json_norm_obj].
Qed.

Lemma stored_fields_other fs m t k :
  String.eqb k "meta" = false ->
  lookup k (stored_fields fs m t) = lookup k (norm_props fs).
Proof.
  intros Hk. unfold stored_fields.
  rewrite !(lookup_norm_props_update_other _ _ _ _ Hk). apply f_equal. apply norm_props_idem.
Qed.

Lemma stored_fields_normal fs m t : normal (JObj (stored_fields fs m t)).
Proof. unfold stored_fields. eapply json_norm_normal. apply json_norm_obj. Qed.

Lemma stored_fields_current fs m t :
  lookup "version" m = Some (JNum DB_VERSION) -> current (JObj (stored_fields fs m t)).
Proof.
  intros Hv. exists (JObj (norm_props (update "updatedAt" (JStr t) (norm_props m)))).
  split; [cbn [get_prop]; rewrite stored_fields_meta; reflexivity|].
  split; [reflexivity|].
  exists (JNum DB_VERSION). split; [|reflexivity].
  cbn [get_prop or_undef].
  rewrite (lookup_norm_props_some "version" (JNum DB_VERSION) (JNum DB_VERSION));
    [reflexivity | | reflexivity].
  rewrite (lookup_update_other "version" "updatedAt") by reflexivity.
  apply (lookup_norm_props_some _ _ _ _ Hv). reflexivity.
Qed.

(** [loadDB(true)] when localStorage holds a document of the current
    version: the document becomes the cache and is returned. *)
Lemma loadDB_forced_current w S :
  adapter w = LocalStorageAdapter ->
  localStorage w = Some (TJson (JObj S)) -> normal (JObj S) -> current (JObj S) ->
  loadDB true w = (Ok (JObj S), set_dbCache w (JObj S)).
Proof.
  intros Ha Hls Hn Hc. unfold loadDB.
  unfold bind at 1. unfold read_cache at 1. rewrite andb_false_r.
  unfold bind at 1. unfold adapter_load. unfold bind at 1. unfold get_world at 1. rewrite Ha.
  rewrite (load_current w (JObj S) Hls Hc). rewrite (norm_elem_fix _ Hn).
  unfold bind, write_cache, lift. rewrite (deepClone_normal _ Hn). reflexivity.
Qed.

Lemma saved_world_localStorage w fs :
  adapter w = LocalStorageAdapter ->
  localStorage (snd (saveDB (JObj fs) w))
  = Some (JSON_stringify (stamped fs (clock w (clock_reads w)))).
Proof.
  intros Ha. rewrite (saveDB_obj w fs Ha). cbn [snd]. apply saved_localStorage.
Qed.

Lemma saved_world_adapter w fs :
  adapter w = LocalStorageAdapter ->
  adapter (snd (saveDB (JObj fs) w)) = LocalStorageAdapter.
Proof.
  intros Ha. rewrite (saveDB_obj w fs Ha). cbn [snd]. rewrite saved_adapter. exact Ha.
Qed.

Module Save_example.
Import Scenario.

(** A document of the current version with one alert and one user. *)
Definition doc_fields : Props :=
  [("meta", JObj [("version", JNum 1); ("createdAt", JStr "old"); ("updatedAt", JStr "old")]);
   ("products", JArr [JObj [("id", JStr "p1")]] []);
   ("alerts", JArr [JObj [("id", JStr "a1")]] []);
   ("users", JArr [JObj [("id", JStr "u1")]] [])].

(** The same without its [meta]. *)
Definition bare_fields : Props :=
  [("products", JArr [JObj [("id", JStr "p1")]] []);
   ("alerts", JArr [JObj [("id", JStr "a1")]] []);
   ("users", JArr [JObj [("id", JStr "u1")]] [])].

End Save_example.

(** X4. [saveDB(doc)] through the localStorage adapter, then [loadDB(true)],
    for a document whose [meta.version] is the current version: the
    forced load returns the document that was written, makes it the
    cache, and that document has the fresh [meta.updatedAt] and, under
    every other key, what [doc] had (as JSON keeps it). *)
Theorem save_then_forced_load_round_trip :
  forall (w : World) (fs m : Props),
    adapter w = LocalStorageAdapter ->
    lookup "meta" fs = Some (JObj m) ->
    lookup "version" m = Some (JNum DB_VERSION) ->
    let w1 := snd (saveDB (JObj fs) w) in
    exists S,
      localStorage w1 = Some (TJson (JObj S)) /\
      loadDB true w1 = (Ok (JObj S), set_dbCache w1 (JObj S)) /\
      meta_updatedAt (JObj S) = Ok (JStr (clock w (clock_reads w))) /\
      forall k, String.eqb k "meta" = false -> lookup k S = lookup k (norm_props fs).
Proof.
  intros w fs m Ha Hm Hv w1.
  set (t := clock w (clock_reads w)).
  assert (Hls : localStorage w1 = Some (TJson (JObj (stored_fields fs m t)))).
  { unfold w1. rewrite (saved_world_localStorage w fs Ha). fold t.
    rewrite (stringify_stamped fs m t Hm). reflexivity. }
  exists (stored_fields fs m t). split; [exact Hls|]. split; [|split].
  - apply loadDB_forced_current.
    + apply saved_world_adapter. exact Ha.
    + exact Hls.
    + apply stored_fields_normal.
    + apply stored_fields_current. exact Hv.
  - unfold meta_updatedAt. cbn [get_prop]. rewrite stored_fields_meta.
    cbn [or_undef rbind get_prop].
    erewrite lookup_norm_props_some; [reflexivity | apply lookup_update_same | reflexivity].
  - intros k Hk. apply stored_fields_other. exact Hk.
Qed.

Lemma save_then_forced_load_witness :
  rbind (Scenario.value (loadDB true)
           (Scenario.exec (saveDB (JObj Save_example.doc_fields)) Scenario.started))
        (fun d => get_prop d "alerts")
  = Ok (JArr [JObj [("id", JStr "a1")]] []).
Proof.
  destruct (save_then_forced_load_round_trip Scenario.started Save_example.doc_fields
              [("version", JNum 1); ("createdAt", JStr "old"); ("updatedAt", JStr "old")]
              eq_refl eq_refl eq_refl)
    as (S & _ & Hload & _ & Hk).
  unfold Scenario.value, Scenario.exec. rewrite Hload. cbn [fst rbind get_prop].
  rewrite (Hk "alerts" eq_refl). reflexivity.
Defined.

(** X5. [saveDB] does not give a document a [meta.version]: when [doc]
    has no [meta], the text written carries only [meta.updatedAt], so a
    following [loadDB(true)] takes it for a document of another version
    and migrates it.  What it returns and caches then has empty [alerts]
    and [users], whatever [doc] held; the cache that [saveDB] left still
    had them. *)
Theorem save_without_meta_then_forced_load_drops_alerts :
  forall (w : World) (fs : Props),
    adapter w = LocalStorageAdapter ->
    lookup "meta" fs = None ->
    let w1 := snd (saveDB (JObj fs) w) in
    exists D w2,
      loadDB true w1 = (Ok D, w2) /\ _dbCache w2 = D /\
      get_prop D "alerts" = Ok (JArr [] []) /\
      get_prop D "users" = Ok (JArr [] []) /\
      forall k, get_prop (_dbCache w1) k = Ok (or_undef (lookup k (norm_props fs))).
Proof.
  intros w fs Ha Hm w1.
  set (t := clock w (clock_reads w)).
  set (S := norm_props (update "meta" (JObj [("updatedAt", JStr t)])
                          (update "meta" (JObj []) (norm_props fs)))).
  assert (Hls : localStorage w1 = Some (TJson (JObj S))).
  { unfold w1. rewrite (saved_world_localStorage w fs Ha). fold t.
    unfold stamped, JSON_stringify. rewrite (lookup_norm_props_none _ _ Hm).
    cbn [or_undef js_or truthy]. unfold put. cbn [set_prop update].
    rewrite json_norm_obj. reflexivity. }
  assert (Hst : stale (JObj S)).
  { exists (JObj [("updatedAt", JStr t)]). split.
    - cbn [get_prop]. unfold S.
      erewrite lookup_norm_props_some; [reflexivity | apply lookup_update_same | reflexivity].
    - right. exists JUndef. split; reflexivity. }
  assert (Ha1 : adapter w1 = LocalStorageAdapter) by (apply saved_world_adapter; exact Ha).
  pose proof (load_stale w1 (JObj S) Hls Hst) as Hload.
  pose proof (migrated_document_normal w1 (JObj S)) as Hn.
  exists (migrated_document w1 (JObj S)). eexists. split; [|split; [|split; [|split]]].
  - unfold loadDB.
    unfold bind at 1. unfold read_cache at 1. rewrite andb_false_r.
    unfold bind at 1. unfold adapter_load. unfold bind at 1. unfold get_world at 1.
    rewrite Ha1, Hload.
    unfold bind, write_cache, lift. rewrite (deepClone_normal _ Hn). reflexivity.
  - reflexivity.
  - reflexivity.
  - reflexivity.
  - intros k. unfold w1. rewrite (saveDB_obj w fs Ha). cbn [snd]. rewrite saved_cache.
    reflexivity.
Qed.

Lemma save_without_meta_witness :
  rbind (Scenario.value (loadDB true)
           (Scenario.exec (saveDB (JObj Save_example.bare_fields)) Scenario.started))
        (fun d => get_prop d "alerts")
  = Ok (JArr [] []) /\
  get_prop (_dbCache (Scenario.exec (saveDB (JObj Save_example.bare_fields)) Scenario.started))
           "alerts"
  = Ok (JArr [JObj [("id", JStr "a1")]] []).
Proof.
  destruct (save_without_meta_then_forced_load_drops_alerts Scenario.started
              Save_example.bare_fields eq_refl eq_refl)
    as (D & w2 & Hload & _ & Halerts & _ & Hcache).
  unfold Scenario.value, Scenario.exec. rewrite Hload. cbn [fst rbind].
  split; [exact Halerts|]. rewrite Hcache. reflexivity.
Defined.

(** Two worlds that differ at most by how often the clock has been
    read. *)
Definition same_state (w w' : World) : Prop :=
  localStorage w' = localStorage w /\ adapter w' = adapter w /\
  _dbCache w' = _dbCache w /\ _watchers w' = _watchers w /\
  console w' = console w /\ notified w' = notified w /\
  downloads w' = downloads w /\ random_reads w' = random_reads w.

Lemma same_state_refl w : same_state w w.
Proof. repeat split. Qed.

Lemma same_state_clock w n : same_state w (set_clock_reads w n).
Proof. repeat split. Qed.

(** How [LocalStorageAdapter.save] ends: when it throws, nothing has been
    written; when it returns, [deepClone(dbObj)] had succeeded. *)
Lemma LocalStorageAdapter_save_cases dbObj w :
  match LocalStorageAdapter_save dbObj w with
  | (Ok _, _) => exists copy, deepClone dbObj = Ok copy
  | (Throw _, w') => same_state w w'
  end.
Proof.
  unfold LocalStorageAdapter_save, set_nested, bind, lift, nowISO, Date_toISOString,
    localStorage_setItem, ret.
  destruct (deepClone dbObj) as [toSave|e]; [|apply same_state_refl].
  destruct (get_prop toSave "meta") as [meta|e]; [|apply same_state_refl].
  destruct (set_prop toSave "meta" (js_or meta (JObj []))) as [toSave'|e];
    [|apply same_state_refl].
  destruct (get_prop toSave' "meta") as [inner|e]; [|apply same_state_refl].
  destruct (set_prop inner "updatedAt" (JStr (clock w (clock_reads w)))) as [inner'|e];
    [|apply same_state_clock].
  destruct (set_prop toSave' "meta" inner') as [toSave''|e]; [|apply same_state_clock].
  eauto.
Qed.

Lemma saveDB_throws dbObj w e w' :
  saveDB dbObj w = (Throw e, w') -> same_state w w'.
Proof.
  unfold saveDB, adapter_save.
  unfold bind at 1. unfold bind at 1. unfold get_world at 1.
  destruct (adapter w) eqn:Ha.
  - pose proof (LocalStorageAdapter_save_cases dbObj w) as Hs.
    destruct (LocalStorageAdapter_save dbObj w) as [[b|e0] w1].
    + destruct Hs as [copy Hc].
      unfold bind, lift, write_cache, get_world, ret. rewrite Hc.
      match goal with
      | |- context [forEach notify ?ws ?w2] =>
          destruct (forEach_notify_spec ws w2) as [Hok _];
          destruct (forEach notify ws w2) as [r w3]
      end.
      simpl in Hok. subst r. discriminate.
    + intros H. injection H as <- <-. exact Hs.
  - unfold throw. intros H. injection H as <- <-. apply same_state_refl.
Qed.

(** X6. [saveDB] is all or nothing: when it throws (the adapter's [save]
    is not implemented, or [dbObj] is [undefined], [null] or another value
    that cannot carry a [meta]), localStorage, the cache and the watcher
    list are what they were, no watcher has been called and nothing has
    been logged.  Through [DummyRemoteAdapter] it always throws. *)
Theorem saveDB_is_all_or_nothing :
  (forall (dbObj : JVal) (w w' : World) (e : Exn),
      saveDB dbObj w = (Throw e, w') -> same_state w w')
  /\
  (forall (dbObj : JVal) (w : World),
      adapter w = DummyRemoteAdapter ->
      saveDB dbObj w = (Throw (JsError "Remote adapter not implemented."), w)).
Proof.
  split.
  - intros dbObj w w' e. apply saveDB_throws.
  - intros dbObj w. apply saveDB_obj_dummy.
Qed.

Lemma saveDB_is_all_or_nothing_witness :
  fst (saveDB JNull Scenario.stocked) = Throw TypeError /\
  same_state Scenario.stocked (snd (saveDB JNull Scenario.stocked)).
Proof.
  split; [reflexivity|].
  destruct saveDB_is_all_or_nothing as [H _].
  apply (H JNull Scenario.stocked (snd (saveDB JNull Scenario.stocked)) TypeError).
  reflexivity.
Defined.

(** Whether a watcher throws when it is called with [arg]. *)
Definition throws_on (arg : JVal) (fn : Watcher) : bool :=
  match w_throws fn arg with Some _ => true | None => false end.

Lemma forEach_notify_console ws w :
  normal (_dbCache w) ->
  console (snd (forEach notify ws w)) =
  map (fun _ => (Lerror, "watcher error")) (filter (throws_on (_dbCache w)) (rev ws))
  ++ console w.
Proof.
  intros Hn. revert w Hn. induction ws as [|fn r IH]; intros w Hn; simpl; [reflexivity|].
  unfold bind.
  assert (Hstep : console (snd (notify fn w))
                  = (if throws_on (_dbCache w) fn then [(Lerror, "watcher error")] else [])
                    ++ console w).
  { unfold notify, try_catch, bind, read_cache, lift, console_log, throw, ret, throws_on.
    rewrite (deepClone_normal _ Hn). simpl.
    destruct (w_throws fn (_dbCache w)); reflexivity. }
  destruct (notify_spec fn w) as [H1 H2].
  destruct (notify fn w) as [res w1]. simpl in H1, H2, Hstep. subst res.
  apply core_fields in H2. destruct H2 as (_ & _ & Hc & _).
  rewrite IH by (rewrite Hc; exact Hn).
  rewrite Hstep, Hc, filter_app, map_app, <- app_assoc. simpl.
  destruct (throws_on (_dbCache w) fn); reflexivity.
Qed.

Module Watcher_example.
Import Scenario.

(** Three listeners; the second throws whatever it is called with. *)
Definition quiet1 : Watcher := mkWatcher 1 (fun _ => None).
Definition noisy : Watcher := mkWatcher 2 (fun _ => Some (JsError "boom")).
Definition quiet3 : Watcher := mkWatcher 3 (fun _ => None).

Definition watched : World :=
  exec (onChange quiet3) (exec (onChange noisy) (exec (onChange quiet1) started)).

End Watcher_example.

(** X7. A watcher that throws does not break [saveDB] or the watchers
    after it: through the localStorage adapter, [saveDB] of an object
    returns [true]; every registered watcher is called, in the order of
    registration, with a deep copy of the new cache; and the console gets
    one "watcher error" for each watcher that threw, and nothing else. *)
Theorem saveDB_survives_throwing_watchers :
  forall (w : World) (fs : Props),
    adapter w = LocalStorageAdapter ->
    let w' := snd (saveDB (JObj fs) w) in
    let copy := JObj (norm_props fs) in
    fst (saveDB (JObj fs) w) = Ok true /\
    _dbCache w' = copy /\
    notified w' = rev (map (fun fn => (w_id fn, copy)) (_watchers w)) ++ notified w /\
    console w' =
      map (fun _ => (Lerror, "watcher error")) (filter (throws_on copy) (rev (_watchers w)))
      ++ console w.
Proof.
  intros w fs Ha w' copy. unfold w'. rewrite (saveDB_obj w fs Ha). cbn [fst snd].
  assert (Hn : normal (_dbCache (saved w fs))).
  { eapply json_norm_normal. apply json_norm_obj. }
  split; [reflexivity|]. split; [apply saved_cache|]. split.
  - rewrite (forEach_notify_notified _ _ Hn). reflexivity.
  - rewrite (forEach_notify_console _ _ Hn). reflexivity.
Qed.

Lemma saveDB_survives_throwing_watchers_witness :
  fst (saveDB (JObj Save_example.doc_fields) Watcher_example.watched) = Ok true /\
  map fst (notified (snd (saveDB (JObj Save_example.doc_fields) Watcher_example.watched)))
    = [3%nat; 2%nat; 1%nat] /\
  console (snd (saveDB (JObj Save_example.doc_fields) Watcher_example.watched))
    = [(Lerror, "watcher error")].
Proof.
  destruct (saveDB_survives_throwing_watchers Watcher_example.watched
              Save_example.doc_fields eq_refl) as (H1 & _ & H3 & H4).
  split; [exact H1|]. split; [rewrite H3 | rewrite H4]; vm_compute; reflexivity.
Defined.

(* ================================================================== *)
(** ** Watchers, clearing and start-up *)
(* ================================================================== *)

(** The calls that the watchers of [ws] add to the trace are calls to
    watchers of [ws]. *)
Lemma forEach_notify_calls ws w :
  exists calls,
    notified (snd (forEach notify ws w)) = calls ++ notified w /\
    Forall (fun call => In (fst call) (map w_id ws)) calls.
Proof.
  revert w. induction ws as [|fn r IH]; intros w; simpl.
  - exists []. split; [reflexivity | constructor].
  - unfold bind.
    assert (Hstep : exists c1, notified (snd (notify fn w)) = c1 ++ notified w /\
                               Forall (fun call => fst call = w_id fn) c1).
    { unfold notify, try_catch, bind, read_cache, lift, console_log, throw, ret.
      destruct (deepClone (_dbCache w)) as [arg|e]; simpl.
      - exists [(w_id fn, arg)]. split; [|repeat constructor].
        destruct (w_throws fn arg); reflexivity.
      - exists []. split; [reflexivity | constructor]. }
    destruct Hstep as (c1 & Hc1 & Hf1).
    destruct (notify_spec fn w) as [H1 _].
    destruct (notify fn w) as [res w1]. simpl in H1, Hc1. subst res.
    destruct (IH w1) as (c2 & Hc2 & Hf2).
    exists (c2 ++ c1). split.
    + rewrite Hc2, Hc1, app_assoc. reflexivity.
    + apply Forall_app. split.
      * eapply Forall_impl; [|exact Hf2]. intros call H. right. exact H.
      * eapply Forall_impl; [|exact Hf1]. intros call H. left. symmetry. exact H.
Qed.

Lemma LocalStorageAdapter_save_traces dbObj w :
  notified (snd (LocalStorageAdapter_save dbObj w)) = notified w /\
  _watchers (snd (LocalStorageAdapter_save dbObj w)) = _watchers w.
Proof.
  unfold LocalStorageAdapter_save, set_nested, bind, lift, nowISO, Date_toISOString,
    localStorage_setItem, ret.
  destruct (deepClone dbObj) as [toSave|e]; [|split; reflexivity].
  destruct (get_prop toSave "meta") as [meta|e]; [|split; reflexivity].
  destruct (set_prop toSave "meta" (js_or meta (JObj []))) as [toSave'|e];
    [|split; reflexivity].
  destruct (get_prop toSave' "meta") as [inner|e]; [|split; reflexivity].
  destruct (set_prop inner "updatedAt" (JStr (clock w (clock_reads w)))) as [inner'|e];
    [|split; reflexivity].
  destruct (set_prop toSave' "meta" inner') as [toSave''|e]; split; reflexivity.
Qed.

(** Whatever [saveDB] is given and however it ends, the calls it adds to
    the trace are calls to watchers that were registered. *)
Lemma saveDB_calls dbObj w :
  exists calls,
    notified (snd (saveDB dbObj w)) = calls ++ notified w /\
    Forall (fun call => In (fst call) (map w_id (_watchers w))) calls.
Proof.
  unfold saveDB, adapter_save.
  unfold bind at 1. unfold bind at 1. unfold get_world at 1.
  destruct (adapter w).
  - destruct (LocalStorageAdapter_save_traces dbObj w) as [Hn Hw].
    destruct (LocalStorageAdapter_save dbObj w) as [[b|e] w1]; simpl in Hn, Hw.
    + unfold bind, lift, write_cache, get_world, ret.
      destruct (deepClone dbObj) as [copy|e].
      * change (_watchers (set_dbCache w1 copy)) with (_watchers w1). rewrite Hw.
        destruct (forEach_notify_calls (_watchers w) (set_dbCache w1 copy))
          as (calls & Hc & Hf).
        destruct (forEach notify (_watchers w) (set_dbCache w1 copy)) as [[[]|e] w2];
          simpl in Hc; exists calls; (split; [|exact Hf]);
          cbn [snd]; rewrite Hc; cbn [notified set_dbCache]; rewrite Hn; reflexivity.
      * exists []. split; [cbn [snd app]; exact Hn | constructor].
    + exists []. split; [cbn [snd app]; exact Hn | constructor].
  - exists []. split; [reflexivity | constructor].
Qed.

Definition calls_to (fn : Watcher) (trace : list (nat * JVal)) : list (nat * JVal) :=
  filter (fun call => Nat.eqb (fst call) (w_id fn)) trace.

(** X8. Once the function that [onChange(callback)] returned has been
    called, no [saveDB] calls [callback] any more, whatever is saved and
    however the save ends; the other watchers stay registered, in their
    order. *)
Theorem unsubscribed_watcher_is_not_called :
  forall (w : World) (callback : Watcher) (dbObj : JVal),
    let w1 := snd (unsubscribe callback w) in
    calls_to callback (notified (snd (saveDB dbObj w1))) = calls_to callback (notified w) /\
    _watchers w1
    = filter (fun fn => negb (Nat.eqb (w_id fn) (w_id callback))) (_watchers w) /\
    (forall fn, In fn (_watchers w) -> w_id fn <> w_id callback -> In fn (_watchers w1)).
Proof.
  intros w callback dbObj w1. split; [|split].
  - destruct (saveDB_calls dbObj w1) as (calls & Hc & Hf).
    rewrite Hc. unfold calls_to. rewrite filter_app.
    assert (Hnone : filter (fun call => Nat.eqb (fst call) (w_id callback)) calls = []).
    { clear Hc. induction Hf as [|call r Hcall _ IH]; simpl; [reflexivity|].
      rewrite IH. unfold w1, unsubscribe in Hcall. cbn [snd _watchers set_watchers] in Hcall.
      apply in_map_iff in Hcall. destruct Hcall as (fn & Hid & Hin).
      apply filter_In in Hin. destruct Hin as [_ Hne].
      rewrite <- Hid. apply negb_true_iff in Hne. rewrite Hne. reflexivity. }
    rewrite Hnone. reflexivity.
  - reflexivity.
  - intros fn Hin Hne. unfold w1, unsubscribe. cbn [snd _watchers set_watchers].
    apply filter_In. split; [exact Hin|].
    apply negb_true_iff. apply Nat.eqb_neq. exact Hne.
Qed.

(** The watchers of [Watcher_example.watched] with the noisy one taken
    out again. *)
Lemma unsubscribed_watcher_witness :
  map fst (notified (snd (saveDB (JObj Save_example.doc_fields)
                            (snd (unsubscribe Watcher_example.noisy
                                    Watcher_example.watched)))))
    = [3%nat; 1%nat] /\
  calls_to Watcher_example.noisy
    (notified (snd (saveDB (JObj Save_example.doc_fields)
                      (snd (unsubscribe Watcher_example.noisy Watcher_example.watched)))))
    = [].
Proof.
  split; [vm_compute; reflexivity|].
  destruct (unsubscribed_watcher_is_not_called Watcher_example.watched Watcher_example.noisy
              (JObj Save_example.doc_fields)) as (H & _).
  rewrite H. reflexivity.
Defined.

(** X9. [clearDB()] through the localStorage adapter, whatever the cache
    and localStorage held: it returns a fresh empty document (current
    version, every collection empty), which is then both the cache and
    the text in localStorage.  Through [DummyRemoteAdapter] it throws and
    changes nothing. *)
Theorem clearDB_resets_to_empty_document :
  (forall w : World,
      adapter w = LocalStorageAdapter ->
      let fresh := empty_document (clock w (clock_reads w)) (clock w (S (clock_reads w))) in
      fst (clearDB w) = Ok fresh /\
      _dbCache (snd (clearDB w)) = fresh /\
      localStorage (snd (clearDB w)) = Some (TJson fresh) /\
      same_state (set_localStorage (set_dbCache w fresh) (Some (TJson fresh)))
                 (snd (clearDB w)))
  /\
  (forall w : World,
      adapter w = DummyRemoteAdapter ->
      clearDB w = (Throw (JsError "Remote adapter not implemented."), w)).
Proof.
  split.
  - intros w Ha fresh.
    assert (H : clearDB w
                = (Ok fresh,
                   set_dbCache (reset_world (set_dbCache (set_localStorage w None) JNull))
                     fresh)).
    { unfold clearDB, adapter_clear, LocalStorageAdapter_clear, localStorage_removeItem.
      unfold bind at 1. unfold bind at 1. unfold get_world at 1. rewrite Ha.
      unfold bind at 1. unfold ret at 1. cbv iota beta.
      unfold bind at 1. unfold write_cache at 1. cbv iota beta.
      unfold loadDB. unfold bind at 1. unfold read_cache at 1. cbv iota beta.
      cbn [_dbCache set_dbCache truthy andb].
      unfold bind at 1. unfold adapter_load. unfold bind at 1. unfold get_world at 1.
      cbv iota beta. cbn [adapter set_dbCache set_localStorage]. rewrite Ha.
      rewrite load_missing by (left; reflexivity).
      reflexivity. }
    rewrite H. cbn [fst snd]. repeat split.
  - intros w Ha. unfold clearDB, adapter_clear, bind, get_world, throw. rewrite Ha. reflexivity.
Qed.

Lemma clearDB_witness :
  fst (clearDB Scenario.stocked) = Ok (empty_document "T04" "T05") /\
  Scenario.value getAllProducts (snd (clearDB Scenario.stocked)) = Ok (JArr [] []).
Proof.
  destruct clearDB_resets_to_empty_document as [H _].
  destruct (H Scenario.stocked eq_refl) as (H1 & _).
  split; [exact H1 | vm_compute; reflexivity].
Defined.

(** [typeof v === 'object' && v !== null]. *)
Definition is_object (v : JVal) : bool :=
  match v with
  | JObj _ | JArr _ _ => true
  | _ => false
  end.

Lemma current_is_object v : current v -> is_object (norm_elem v) = true.
Proof.
  intros (meta & Hm & Tm & _).
  destruct v as [| | | | |es ps|fs]; simpl in Hm; try discriminate;
    try (injection Hm as <-; discriminate).
  - unfold norm_elem. rewrite json_norm_arr. reflexivity.
  - unfold norm_elem. rewrite json_norm_obj. reflexivity.
Qed.

(** [load] returns an object that the JSON round trip leaves as it is,
    whatever localStorage holds. *)
Lemma load_returns_object w :
  exists v w',
    LocalStorageAdapter_load w = (Ok v, w') /\ normal v /\ is_object v = true.
Proof.
  destruct (localStorage w) as [[| |x]|] eqn:Hls.
  - eexists _, _. split; [apply load_missing; right; exact Hls | split; reflexivity].
  - eexists _, _.
    split; [apply (load_unreadable w TInvalid Hls); left; reflexivity | split; reflexivity].
  - destruct (stale_or_current x) as [Hs | [Hc | Ht]].
    + eexists _, _. split; [apply (load_stale w x Hls Hs)|].
      split; [apply migrated_document_normal | reflexivity].
    + exists (norm_elem x), w. split; [apply (load_current w x Hls Hc)|].
      split; [|apply current_is_object; exact Hc].
      apply norm_elem_normal. intros e'. apply json_norm_normal.
    + eexists _, _. split;
        [apply (load_unreadable w (TJson x) Hls); right; exists x;
         split; [reflexivity | exact Ht]
        | split; reflexivity].
  - eexists _, _. split; [apply load_missing; left; exact Hls | split; reflexivity].
Qed.

Lemma is_object_truthy v : is_object v = true -> truthy v = true.
Proof. destruct v; try discriminate; reflexivity. Qed.

Lemma initialize_local w :
  adapter w = LocalStorageAdapter -> _dbCache w = JNull ->
  exists v w1,
    LocalStorageAdapter_load w = (Ok v, w1) /\ normal v /\ is_object v = true /\
    initialize w = (Ok tt, set_dbCache w1 v).
Proof.
  intros Ha Hc.
  destruct (load_returns_object w) as (v & w1 & Hload & Hn & Ho).
  exists v, w1. split; [exact Hload|]. split; [exact Hn|]. split; [exact Ho|].
  unfold initialize, try_catch, loadDB.
  unfold bind at 1. unfold bind at 1. unfold read_cache at 1. rewrite Hc.
  cbn [truthy andb].
  unfold bind at 1. unfold adapter_load. unfold bind at 1. unfold get_world at 1.
  rewrite Ha, Hload.
  unfold bind, write_cache, lift. rewrite (deepClone_normal _ Hn). reflexivity.
Qed.

(** The world after a start-up through an adapter whose [load] is not
    implemented. *)
Definition started_remote (w : World) : World :=
  let w1 := logged_error "Failed to initialize storage layer:" w in
  let fresh := empty_document (clock w (clock_reads w)) (clock w (S (clock_reads w))) in
  snd (LocalStorageAdapter_save fresh
         (set_dbCache (set_clock_reads w1 (S (S (clock_reads w)))) fresh)).

Lemma initialize_remote w :
  adapter w = DummyRemoteAdapter -> _dbCache w = JNull ->
  initialize w = (Ok tt, started_remote w).
Proof.
  intros Ha Hc.
  unfold initialize, try_catch, loadDB.
  unfold bind at 1. unfold bind at 1. unfold read_cache at 1. rewrite Hc.
  cbn [truthy andb].
  unfold bind at 1. unfold adapter_load. unfold bind at 1. unfold get_world at 1.
  rewrite Ha. reflexivity.
Qed.

Lemma started_remote_fields w :
  _dbCache (started_remote w)
  = empty_document (clock w (clock_reads w)) (clock w (S (clock_reads w))) /\
  localStorage (started_remote w)
  = Some (TJson (empty_document (clock w (clock_reads w))
                                (clock w (S (S (clock_reads w)))))) /\
  console (started_remote w)
  = (Lerror, "Failed to initialize storage layer:") :: console w /\
  adapter (started_remote w) = adapter w /\ _watchers (started_remote w) = _watchers w /\
  notified (started_remote w) = notified w.
Proof.
  unfold started_remote, empty_document. cbv zeta. rewrite LocalStorageAdapter_save_obj.
  repeat split.
Qed.

(** X10. When the script is loaded (the cache is still [null]), the
    initialisation ends well and leaves an object in the cache, one that
    the JSON round trip leaves as it is, so that [loadDB()] answers from
    the cache from then on: whatever localStorage holds under the key, and
    with either adapter.  Through the localStorage adapter the cache is
    what [load] returned and the rest is as [load] left it.  When [load]
    is not implemented, the failure is logged with one [console.error], a
    fresh empty document is cached, and it is written to localStorage
    (with the date of the write as [meta.updatedAt]); no watcher is
    called. *)
Theorem initialize_always_caches_a_document :
  forall w : World,
    _dbCache w = JNull ->
    let w' := snd (initialize w) in
    fst (initialize w) = Ok tt /\
    is_object (_dbCache w') = true /\ normal (_dbCache w') /\
    loadDB false w' = (Ok (_dbCache w'), w') /\
    (adapter w = LocalStorageAdapter ->
     exists v w1,
       LocalStorageAdapter_load w = (Ok v, w1) /\ w' = set_dbCache w1 v) /\
    (adapter w = DummyRemoteAdapter ->
     _dbCache w'
     = empty_document (clock w (clock_reads w)) (clock w (S (clock_reads w))) /\
     localStorage w'
     = Some (TJson (empty_document (clock w (clock_reads w))
                                   (clock w (S (S (clock_reads w)))))) /\
     console w' = (Lerror, "Failed to initialize storage layer:") :: console w /\
     notified w' = notified w).
Proof.
  intros w Hc w'.
  assert (H : fst (initialize w) = Ok tt /\
              is_object (_dbCache w') = true /\ normal (_dbCache w')).
  { unfold w'. destruct (adapter w) eqn:Ha.
    - destruct (initialize_local w Ha Hc) as (v & w1 & _ & Hn & Ho & ->).
      split; [reflexivity | split; assumption].
    - rewrite (initialize_remote w Ha Hc). cbn [fst snd].
      destruct (started_remote_fields w) as (-> & _). repeat split. }
  destruct H as (H1 & H2 & H3).
  split; [exact H1|]. split; [exact H2|]. split; [exact H3|]. split; [|split].
  - apply loadDB_cached; [apply is_object_truthy; exact H2 | exact H3].
  - intros Ha. destruct (initialize_local w Ha Hc) as (v & w1 & Hl & _ & _ & Hi).
    exists v, w1. split; [exact Hl|]. unfold w'. rewrite Hi. reflexivity.
  - intros Ha. unfold w'. rewrite (initialize_remote w Ha Hc). cbn [snd].
    destruct (started_remote_fields w) as (E1 & E2 & E3 & _ & _ & E4).
    repeat split; assumption.
Qed.

Lemma initialize_witness :
  fst (initialize (set_dbCache Load_example.corrupt JNull)) = Ok tt /\
  is_object (_dbCache (snd (initialize (set_dbCache Load_example.corrupt JNull)))) = true.
Proof.
  destruct (initialize_always_caches_a_document (set_dbCache Load_example.corrupt JNull))
    as (H1 & H2 & _); [reflexivity|].
  split; [exact H1 | exact H2].
Defined.

(* ================================================================== *)
(** ** Import with merge *)
(* ================================================================== *)

(** [undefined] or [null]: the values whose properties cannot be read. *)
Definition is_nullish (v : JVal) : bool :=
  match v with
  | JUndef | JNull => true
  | _ => false
  end.

Lemma id_of_readable x : is_nullish x = false -> get_prop x "id" = Ok (id_of x).
Proof. unfold id_of. destruct x; simpl; try discriminate; reflexivity. Qed.

Lemma ids_of_readable l :
  Forall (fun x => is_nullish x = false) l -> ids_of l = Ok (map id_of l).
Proof.
  induction 1 as [|x r Hx _ IH]; simpl; [reflexivity|].
  rewrite (id_of_readable x Hx), IH. reflexivity.
Qed.

(** The record [it] of an import is taken: its [id] counts as true and is
    not the [id] of a record that was there. *)
Definition is_new (existing : list JVal) (it : JVal) : bool :=
  truthy (id_of it) && negb (existsb (same_value_zero (id_of it)) (map id_of existing)).

Lemma merge_incoming_readable existing incoming target :
  Forall (fun x => is_nullish x = false) incoming ->
  merge_incoming (map id_of existing) incoming target
  = Ok (target ++ filter (is_new existing) incoming).
Proof.
  intros H. revert target. induction H as [|it r Hit _ IH]; intros target; simpl.
  - rewrite app_nil_r. reflexivity.
  - rewrite (id_of_readable it Hit). cbn [rbind].
    assert (E : is_new existing it
                = truthy (id_of it)
                  && negb (existsb (same_value_zero (id_of it)) (map id_of existing)))
      by reflexivity.
    destruct (truthy (id_of it)); cbn [negb orb andb] in *.
    + destruct (existsb (same_value_zero (id_of it)) (map id_of existing));
        cbn [negb] in *; rewrite E.
      * apply IH.
      * rewrite IH, <- app_assoc. reflexivity.
    + rewrite E. apply IH.
Qed.

(** X11. [mergeArray(targetArr, incomingArr)] of [importDB], on arrays
    whose elements are neither [null] nor [undefined]: the result is
    [targetArr], unchanged and in its order, followed by the incoming
    records whose [id] counts as true and is not the [id] of a record of
    [targetArr], in their order (two incoming records with the same new
    [id] are both taken: the identifiers are collected before the loop).
    When [incomingArr] is not an array the target comes back as it is,
    whatever it is; when only the target is not an array, a TypeError is
    thrown. *)
Theorem mergeArray_appends_the_new_records :
  (forall (target incoming : list JVal) (ps ips : Props),
      Forall (fun x => is_nullish x = false) target ->
      Forall (fun x => is_nullish x = false) incoming ->
      mergeArray (JArr target ps) (JArr incoming ips)
      = Ok (JArr (target ++ filter (is_new target) incoming) ps))
  /\
  (forall targetArr incomingArr : JVal,
      is_array incomingArr = false -> mergeArray targetArr incomingArr = Ok targetArr)
  /\
  (forall targetArr incomingArr : JVal,
      is_array incomingArr = true -> is_array targetArr = false ->
      mergeArray targetArr incomingArr = Throw TypeError).
Proof.
  split; [|split].
  - intros target incoming ps ips Ht Hi. unfold mergeArray.
    rewrite (ids_of_readable target Ht). cbn [rbind].
    rewrite (merge_incoming_readable target incoming target Hi). reflexivity.
  - intros t i Hi. destruct i; try discriminate; reflexivity.
  - intros t i Hi Ht. destruct i; try discriminate. destruct t; try discriminate; reflexivity.
Qed.

Lemma mergeArray_witness :
  mergeArray (JArr [JObj [("id", JStr "a")]; JObj [("id", JStr "b")]] [])
             (JArr [JObj [("id", JStr "b"); ("n", JNum 1)]; JObj [("id", JStr "c")];
                    JObj [("n", JNum 2)]; JObj [("id", JStr "c")]] [])
  = Ok (JArr [JObj [("id", JStr "a")]; JObj [("id", JStr "b")];
              JObj [("id", JStr "c")]; JObj [("id", JStr "c")]] []).
Proof.
  destruct mergeArray_appends_the_new_records as [H _].
  rewrite H; [reflexivity | repeat constructor | repeat constructor].
Defined.

(** An array or an object: two of them are never the same one when they
    come out of two parses. *)
Definition is_reference (v : JVal) : bool :=
  match v with
  | JArr _ _ | JObj _ => true
  | _ => false
  end.

Lemma same_value_zero_refl v : is_reference v = false -> same_value_zero v v = true.
Proof.
  destruct v as [| |b|x|s| |]; simpl; try discriminate; intros _; try reflexivity.
  - destruct b; reflexivity.
  - unfold is_nan. destruct (PrimFloat.eqb x x); reflexivity.
  - apply String.eqb_refl.
Qed.

(** A record whose properties can be read and whose [id] is not an
    object. *)
Definition plain_record (x : JVal) : bool :=
  negb (is_nullish x) && negb (is_reference (id_of x)).

Lemma plain_records_readable es :
  Forall (fun x => plain_record x = true) es -> Forall (fun x => is_nullish x = false) es.
Proof.
  apply Forall_impl. intros x H. unfold plain_record in H.
  apply andb_true_iff in H. destruct H as [H _]. apply negb_true_iff. exact H.
Qed.

Lemma none_is_new existing es :
  incl es existing -> Forall (fun x => plain_record x = true) es ->
  filter (is_new existing) es = [].
Proof.
  intros Hin H. induction H as [|x r Hx _ IH]; simpl; [reflexivity|].
  assert (Hnew : is_new existing x = false).
  { unfold is_new. destruct (truthy (id_of x)); [|reflexivity]. cbn [andb].
    apply negb_false_iff. apply existsb_exists. exists (id_of x). split.
    - apply in_map. apply Hin. left. reflexivity.
    - apply same_value_zero_refl. unfold plain_record in Hx.
      apply andb_true_iff in Hx. destruct Hx as [_ Hx]. apply negb_true_iff. exact Hx. }
  rewrite Hnew. apply IH. intros y Hy. apply Hin. right. exact Hy.
Qed.

(** Merging a collection into itself gives it back. *)
Lemma mergeArray_self t :
  (forall es ps, t = JArr es ps -> Forall (fun x => plain_record x = true) es) ->
  mergeArray t t = Ok t.
Proof.
  intros H. destruct t as [| | | | |es ps|]; try reflexivity.
  specialize (H es ps eq_refl).
  pose proof (plain_records_readable es H) as Hr.
  unfold mergeArray. rewrite (ids_of_readable es Hr). cbn [rbind].
  rewrite (merge_incoming_readable es es es Hr).
  rewrite (none_is_new es es (incl_refl es) H), app_nil_r. reflexivity.
Qed.

Lemma norm_props_update_undef k ps :
  lookup k ps = None -> norm_props (update k JUndef ps) = norm_props ps.
Proof.
  induction ps as [|[k' x] r IH]; simpl; [reflexivity|].
  destruct (String.eqb k k'); [discriminate|]. intros H. simpl.
  rewrite (IH H). reflexivity.
Qed.

(** [db.k = mergeArray(db.k, parsed.k)] when [parsed] holds under [k]
    what [db] holds: the document that will be stored is unchanged. *)
Lemma merge_collection_self fs fs' k :
  lookup k fs' = lookup k fs ->
  (forall es ps, lookup k fs = Some (JArr es ps) -> Forall (fun x => plain_record x = true) es) ->
  exists fs'',
    merge_collection (JObj fs) k (JObj fs') = Ok (JObj fs'') /\
    norm_props fs'' = norm_props fs' /\
    (forall k', String.eqb k' k = false -> lookup k' fs'' = lookup k' fs').
Proof.
  intros Hk Hplain. unfold merge_collection. cbn [get_prop rbind]. rewrite Hk.
  rewrite mergeArray_self.
  - cbn [rbind set_prop]. eexists. split; [reflexivity|]. split.
    + destruct (lookup k fs) as [t|] eqn:E; cbn [or_undef].
      * rewrite (update_same_value k t fs') by (rewrite Hk; reflexivity). reflexivity.
      * apply norm_props_update_undef. exact Hk.
    + intros k' Hk'. apply lookup_update_other. exact Hk'.
  - intros es ps Ht. apply (Hplain es ps).
    destruct (lookup k fs) as [t|]; cbn [or_undef] in Ht; [rewrite Ht; reflexivity | discriminate].
Qed.

(** Every record of the five collections of a document can be read and
    has an [id] that is not an object. *)
Definition plain_records (fs : Props) : Prop :=
  forall k es ps,
    In k ["products"; "sales"; "purchases"; "alerts"; "users"] ->
    lookup k fs = Some (JArr es ps) -> Forall (fun x => plain_record x = true) es.

Lemma importDB_merge_self w fs :
  document w fs -> adapter w = LocalStorageAdapter -> plain_records fs ->
  exists doc,
    importDB (TJson (JObj fs)) true w
    = (Ok (JObj doc), snd (forEach notify (_watchers w) (saved w doc))) /\
    norm_props doc = fs.
Proof.
  intros Hd Ha Hp. unfold importDB. cbn [negb].
  rewrite (bind_ok _ _ _ _ _ (loadDB_document w fs Hd)).
  destruct (merge_collection_self fs fs "products" eq_refl) as (f1 & E1 & N1 & L1).
  { intros es ps. apply (Hp "products"). simpl. tauto. }
  unfold bind at 1. unfold lift at 1. rewrite E1.
  destruct (merge_collection_self fs f1 "sales") as (f2 & E2 & N2 & L2).
  { apply L1. reflexivity. }
  { intros es ps. apply (Hp "sales"). simpl. tauto. }
  unfold bind at 1. unfold lift at 1. rewrite E2.
  destruct (merge_collection_self fs f2 "purchases") as (f3 & E3 & N3 & L3).
  { rewrite L2, L1 by reflexivity. reflexivity. }
  { intros es ps. apply (Hp "purchases"). simpl. tauto. }
  unfold bind at 1. unfold lift at 1. rewrite E3.
  destruct (merge_collection_self fs f3 "alerts") as (f4 & E4 & N4 & L4).
  { rewrite L3, L2, L1 by reflexivity. reflexivity. }
  { intros es ps. apply (Hp "alerts"). simpl. tauto. }
  unfold bind at 1. unfold lift at 1. rewrite E4.
  destruct (merge_collection_self fs f4 "users") as (f5 & E5 & N5 & L5).
  { rewrite L4, L3, L2, L1 by reflexivity. reflexivity. }
  { intros es ps. apply (Hp "users"). simpl. tauto. }
  unfold bind at 1. unfold lift at 1. rewrite E5.
  unfold bind at 1. rewrite (saveDB_obj w f5 Ha).
  exists f5. split; [reflexivity|].
  rewrite N5, N4, N3, N2, N1. destruct Hd as [_ Hn]. apply normal_obj. exact Hn.
Qed.

(** X12. Merging a database into itself changes nothing: on a document
    whose records can be read and have identifiers that are not objects,
    [exportDB()] followed by [importDB] of the exported text with
    [merge = true] (through the localStorage adapter) succeeds and leaves
    in the cache the very document that was there; no record is added
    twice. *)
Theorem export_then_merge_import_changes_nothing :
  forall (w : World) (fs : Props),
    document w fs -> adapter w = LocalStorageAdapter -> plain_records fs ->
    exists filename text w1 doc w2,
      exportDB w = (Ok (filename, text), w1) /\
      importDB text true w1 = (Ok doc, w2) /\
      _dbCache w2 = JObj fs /\
      norm_elem doc = JObj fs.
Proof.
  intros w fs Hd Ha Hp.
  rewrite (exportDB_document w fs Hd).
  set (w1 := set_downloads (set_clock_reads w (S (clock_reads w)))
              ((export_filename (clock w (clock_reads w)), TJson (JObj fs)) :: downloads w)).
  destruct (importDB_merge_self w1 fs Hd Ha Hp) as (doc & Himp & Hnorm).
  exists (export_filename (clock w (clock_reads w))), (TJson (JObj fs)), w1, (JObj doc).
  eexists. split; [reflexivity|]. split; [exact Himp|]. split.
  - rewrite saved_cache, Hnorm. reflexivity.
  - unfold norm_elem. rewrite json_norm_obj, Hnorm. reflexivity.
Qed.

Lemma export_then_merge_import_witness :
  exists filename text w1 doc w2,
    exportDB Scenario.stocked = (Ok (filename, text), w1) /\
    importDB text true w1 = (Ok doc, w2) /\
    _dbCache w2 = _dbCache Scenario.stocked.
Proof.
  destruct (export_then_merge_import_changes_nothing Scenario.stocked
              (cached_fields Scenario.stocked))
    as (filename & text & w1 & doc & w2 & Hexp & Himp & Hc & _).
  - split; vm_compute; reflexivity.
  - reflexivity.
  - intros k es ps Hk. simpl in Hk.
    destruct Hk as [<- | [<- | [<- | [<- | [<- | []]]]]]; intros H;
      vm_compute in H; injection H as <- <-; repeat constructor.
  - exists filename, text, w1, doc, w2. split; [exact Hexp|]. split; [exact Himp|].
    rewrite Hc. vm_compute. reflexivity.
Defined.

(* ================================================================== *)
(** ** Import: what a failure leaves *)
(* ================================================================== *)

Lemma same_state_trans w1 w2 w3 : same_state w1 w2 -> same_state w2 w3 -> same_state w1 w3.
Proof.
  unfold same_state. intros (A1 & A2 & A3 & A4 & A5 & A6 & A7 & A8)
                            (B1 & B2 & B3 & B4 & B5 & B6 & B7 & B8).
  repeat split; congruence.
Qed.

(** The state is that of [w0], whose cache holds a document. *)
Definition unchanged (w0 : World) (w : World) : Prop :=
  same_state w0 w /\ exists fs, document w0 fs.

Lemma unchanged_document w0 w : unchanged w0 w -> exists fs, document w fs.
Proof.
  intros [(_ & _ & Hc & _) [fs [Hd Hn]]]. exists fs. split; [congruence | exact Hn].
Qed.

Lemma preserves_unchanged_clock w0 : preserves (unchanged w0) Date_toISOString.
Proof.
  intros w [Hs Hd]. split; [|exact Hd].
  eapply same_state_trans; [exact Hs | apply same_state_clock].
Qed.

Lemma preserves_unchanged_emptyDB w0 : preserves (unchanged w0) emptyDB.
Proof.
  unfold emptyDB.
  apply preserves_bind; [apply preserves_unchanged_clock | intros].
  apply preserves_bind; [apply preserves_unchanged_clock | intros].
  apply preserves_ret.
Qed.

Lemma preserves_unchanged_loadDB w0 : preserves (unchanged w0) (loadDB false).
Proof.
  intros w H. destruct (unchanged_document w0 w H) as [fs Hd].
  rewrite (loadDB_document w fs Hd). exact H.
Qed.

Lemma preserves_unchanged_set_nested w0 target o k :
  preserves (unchanged w0) (set_nested target o k (t <- nowISO ;; ret (JStr t))).
Proof.
  unfold set_nested.
  apply preserves_bind; [apply preserves_lift | intros].
  apply preserves_bind.
  - apply preserves_bind; [apply preserves_unchanged_clock | intros; apply preserves_ret].
  - intros. apply preserves_bind; [apply preserves_lift | intros; apply preserves_lift].
Qed.

(** [saveDB] followed by a [return]: a throw can only come from [saveDB],
    which has then changed nothing. *)
Lemma save_and_return_unchanged {A} w0 dbObj (a : A) :
  hoare (unchanged w0) (saveDB dbObj ;; ret a) (fun _ _ => True) (unchanged w0).
Proof.
  intros w [Hs Hd]. unfold bind.
  destruct (saveDB dbObj w) as [[b|e] w'] eqn:E; [exact I|].
  split; [|exact Hd]. eapply same_state_trans; [exact Hs|].
  eapply saveDB_throws. exact E.
Qed.

Lemma importDB_failure_unchanged w0 text merge :
  hoare (unchanged w0) (importDB text merge) (fun _ _ => True) (unchanged w0).
Proof.
  unfold importDB. destruct text as [| |parsed]; try (intros w H; exact H).
  destruct merge; cbn [negb].
  - eapply hoare_bind; [apply preserves_unchanged_loadDB | intros].
    do 5 (eapply hoare_bind; [apply preserves_lift | intros]).
    apply save_and_return_unchanged.
  - eapply hoare_bind; [apply preserves_unchanged_emptyDB | intros].
    do 7 (eapply hoare_bind; [apply preserves_lift | intros]).
    eapply hoare_bind; [apply preserves_unchanged_set_nested | intros].
    apply save_and_return_unchanged.
Qed.

(** X13. An import that fails changes nothing: when [importDB] throws on
    a cached document (no text, a text that is not JSON, a value whose
    collections cannot be read or merged, an adapter whose [save] is not
    implemented), the cache, localStorage and the watcher list are what
    they were, no watcher has been called and nothing has been logged.
    With no text the error is "No JSON provided for import", with a text
    that is not JSON "Invalid JSON provided". *)
Theorem failed_import_changes_nothing :
  (forall (w : World) (fs : Props) (text : Text) (merge : bool) (e : Exn) (w' : World),
      document w fs ->
      importDB text merge w = (Throw e, w') ->
      same_state w w')
  /\
  (forall (w : World) (merge : bool),
      importDB TEmpty merge w = (Throw (JsError "No JSON provided for import"), w) /\
      importDB TInvalid merge w = (Throw (JsError "Invalid JSON provided"), w)).
Proof.
  split.
  - intros w fs text merge e w' Hd Himp.
    pose proof (importDB_failure_unchanged w text merge w
                  (conj (same_state_refl w) (ex_intro _ fs Hd))) as H.
    rewrite Himp in H. apply H.
  - intros w merge. split; reflexivity.
Qed.

Lemma failed_import_witness :
  fst (importDB (TJson JNull) true Scenario.stocked) = Throw TypeError /\
  same_state Scenario.stocked (snd (importDB (TJson JNull) true Scenario.stocked)).
Proof.
  split; [reflexivity|].
  destruct failed_import_changes_nothing as [H _].
  apply (H Scenario.stocked (cached_fields Scenario.stocked) (TJson JNull) true TypeError).
  - split; vm_compute; reflexivity.
  - reflexivity.
Defined.

(* ================================================================== *)
(** ** Looking a record up by its identifier *)
(* ================================================================== *)

(** The first record of [es] whose [id] is [id]. *)
Definition first_with_id (id : JVal) (es : list JVal) : option JVal :=
  List.find (fun x => strict_equals (id_of x) id) es.

Lemma has_id_readable id x :
  is_nullish x = false -> has_id id x = Ok (strict_equals (id_of x) id).
Proof. intros H. unfold has_id. rewrite (id_of_readable x H). reflexivity. Qed.

Lemma find_from_has_id id es j :
  Forall (fun x => is_nullish x = false) es ->
  rbind (find_from (has_id id) es j) (fun o => Ok (option_map snd o))
  = Ok (first_with_id id es).
Proof.
  intros H. revert j. induction H as [|x r Hx _ IH]; intros j; simpl; [reflexivity|].
  rewrite (has_id_readable id x Hx). cbn [rbind].
  destruct (strict_equals (id_of x) id); [reflexivity | apply IH].
Qed.

(** What a lookup returns: the record found, or [null] when there is none
    (or when the record found counts as false). *)
Definition found_or_null (o : option JVal) : JVal :=
  js_or (match o with Some x => x | None => JUndef end) JNull.

Lemma find_by_id_document w fs name id es ps :
  document w fs -> collection name fs = JArr es ps ->
  Forall (fun x => is_nullish x = false) es ->
  find_by_id name id w = (Ok (found_or_null (first_with_id id es)), w).
Proof.
  intros Hd Ec Hr. unfold find_by_id.
  rewrite (bind_ok _ _ _ _ _ (getCollection_document w fs name Hd)). rewrite Ec.
  pose proof (find_from_has_id id es 0 Hr) as Hf.
  unfold bind, lift, ret. cbn [find].
  destruct (find_from (has_id id) es 0) as [[[i x]|]|e]; simpl in Hf; try discriminate;
    injection Hf as <-; reflexivity.
Qed.

(** X14. [getProductById], [getSaleById] and [getPurchaseById] on a cached
    document whose collection is an array of records that can be read
    (none is [null]): they change nothing, and they return the first
    record of the collection whose [id] is [===] the one asked for, or
    [null] when no record has it. *)
Theorem lookup_by_id_returns_the_first_match :
  forall (w : World) (fs : Props) (id : JVal),
    document w fs ->
    (forall es ps, collection "products" fs = JArr es ps ->
       Forall (fun x => is_nullish x = false) es ->
       getProductById id w = (Ok (found_or_null (first_with_id id es)), w)) /\
    (forall es ps, collection "sales" fs = JArr es ps ->
       Forall (fun x => is_nullish x = false) es ->
       getSaleById id w = (Ok (found_or_null (first_with_id id es)), w)) /\
    (forall es ps, collection "purchases" fs = JArr es ps ->
       Forall (fun x => is_nullish x = false) es ->
       getPurchaseById id w = (Ok (found_or_null (first_with_id id es)), w)) /\
    (forall es, first_with_id id es = None -> found_or_null (first_with_id id es) = JNull).
Proof.
  intros w fs id Hd. split; [|split; [|split]].
  - intros es ps. apply find_by_id_document. exact Hd.
  - intros es ps. apply find_by_id_document. exact Hd.
  - intros es ps. apply find_by_id_document. exact Hd.
  - intros es ->. reflexivity.
Qed.

Module Lookup_example.

(** The products of [stocked]. *)
Definition products : list JVal :=
  match collection "products" (cached_fields Scenario.stocked) with
  | JArr es _ => es
  | _ => []
  end.

End Lookup_example.

Lemma lookup_by_id_witness :
  rbind (Scenario.value (getProductById (JStr "p1")) Scenario.stocked)
        (fun p => get_prop p "name") = Ok (JStr "Tile").
Proof.
  destruct (lookup_by_id_returns_the_first_match Scenario.stocked
              (cached_fields Scenario.stocked) (JStr "p1")) as (H1 & _).
  { split; vm_compute; reflexivity. }
  unfold Scenario.value.
  rewrite (H1 Lookup_example.products []).
  - vm_compute. reflexivity.
  - vm_compute. reflexivity.
  - vm_compute. repeat constructor.
Defined.

Lemma first_with_id_app id es x :
  first_with_id id (es ++ [x])
  = match first_with_id id es with
    | Some y => Some y
    | None => if strict_equals (id_of x) id then Some x else None
    end.
Proof.
  unfold first_with_id. induction es as [|y r IH]; simpl.
  - destruct (strict_equals (id_of x) id); reflexivity.
  - destruct (strict_equals (id_of y) id); [reflexivity | exact IH].
Qed.

Lemma id_of_norm_string pf s :
  lookup "id" pf = Some (JStr s) -> id_of (norm_elem (JObj pf)) = JStr s.
Proof.
  intros H. unfold norm_elem. rewrite json_norm_obj. unfold id_of. cbn [get_prop].
  rewrite (lookup_norm_props_some "id" (JStr s) (JStr s)); [reflexivity | exact H | reflexivity].
Qed.

(** X15. Insert, then look up: after [addProduct(productData)] has stored
    a product whose [id] is the string [s] (generated, or given by the
    caller), [getProductById(s)] returns that product, as JSON keeps it,
    provided no product of the collection had that [id] before; when one
    had, the lookup still returns the older product, and the new one
    cannot be reached by its [id]. *)
Theorem addProduct_then_getProductById :
  forall (w : World) (fs productData : Props) (es : list JVal) (s : string),
    document w fs -> adapter w = LocalStorageAdapter ->
    collection "products" fs = JArr es [] ->
    Forall (fun x => is_nullish x = false) es ->
    let id := ("prod_" ++ random w (random_reads w))%string in
    let product := new_product id (clock w (clock_reads w)) productData in
    lookup "id" product = Some (JStr s) ->
    let w' := snd (addProduct productData w) in
    fst (addProduct productData w) = Ok (JObj product) /\
    (first_with_id (JStr s) es = None ->
     getProductById (JStr s) w' = (Ok (norm_elem (JObj product)), w')) /\
    (forall old, first_with_id (JStr s) es = Some old ->
     getProductById (JStr s) w' = (Ok (found_or_null (Some old)), w')).
Proof.
  intros w fs productData es s Hd Ha Ec Hr id product Hid w'.
  pose proof (addProduct_document w fs productData es Hd Ha Ec) as Hadd. cbv zeta in Hadd.
  fold id in Hadd. fold product in Hadd.
  destruct (collection_array w fs _ _ _ Hd Ec) as [_ Hes].
  unfold w'. rewrite Hadd. cbn [fst snd].
  set (fs' := norm_props (update "products" (JArr (es ++ [JObj product]) []) fs)).
  assert (Hd' : document (snd (forEach notify (_watchers w)
                                 (saved (ticked w)
                                    (update "products" (JArr (es ++ [JObj product]) []) fs))))
                         fs') by apply saved_document.
  assert (Ec' : collection "products" fs' = JArr (es ++ [norm_elem (JObj product)]) []).
  { unfold collection, fs'.
    erewrite lookup_saved_push; [reflexivity | exact Hes | apply json_norm_obj]. }
  assert (Hr' : Forall (fun x => is_nullish x = false) (es ++ [norm_elem (JObj product)])).
  { apply Forall_app. split; [exact Hr|]. constructor; [|constructor].
    unfold norm_elem. rewrite json_norm_obj. reflexivity. }
  pose proof (find_by_id_document _ fs' "products" (JStr s) _ [] Hd' Ec' Hr') as Hget.
  rewrite first_with_id_app, (id_of_norm_string product s Hid) in Hget.
  cbn [strict_equals] in Hget. rewrite String.eqb_refl in Hget.
  split; [reflexivity|]. split.
  - intros Hnone. rewrite Hnone in Hget. unfold getProductById. rewrite Hget.
    unfold norm_elem. rewrite json_norm_obj. reflexivity.
  - intros old Hold. rewrite Hold in Hget. exact Hget.
Qed.

Lemma addProduct_then_getProductById_witness :
  rbind (fst (getProductById (JStr "p2")
                (snd (addProduct [("id", JStr "p2"); ("name", JStr "Slab")] Scenario.stocked))))
        (fun p => get_prop p "name")
  = Ok (JStr "Slab").
Proof.
  destruct (addProduct_then_getProductById Scenario.stocked (cached_fields Scenario.stocked)
              [("id", JStr "p2"); ("name", JStr "Slab")]
              Lookup_example.products "p2") as (_ & H & _).
  - split; vm_compute; reflexivity.
  - reflexivity.
  - vm_compute. reflexivity.
  - vm_compute. repeat constructor.
  - vm_compute. reflexivity.
  - rewrite H by (vm_compute; reflexivity). vm_compute. reflexivity.
Defined.

(* ================================================================== *)
(** ** Updating and deleting a product *)
(* ================================================================== *)







Module Update_example.


Definition tile : Props :=
  match Lookup_example.products with
  | JObj pf :: _ => pf
  | _ => []
  end.

End Update_example.



(** [x.id !== id], on a record that can be read. *)
Definition other_record (id x : JVal) : bool := negb (strict_equals (id_of x) id).

Lemma filterM_other_id id es :
  Forall (fun x => is_nullish x = false) es ->
  filterM (other_id id) es = Ok (filter (other_record id) es).
Proof.
  induction 1 as [|x r Hx _ IH]; simpl; [reflexivity|].
  unfold other_id at 1. rewrite (has_id_readable id x Hx). cbn [rbind].
  rewrite IH. reflexivity.
Qed.

Lemma first_with_id_filtered id es : first_with_id id (filter (other_record id) es) = None.
Proof.
  unfold first_with_id, other_record. induction es as [|x r IH]; simpl; [reflexivity|].
  destruct (strict_equals (id_of x) id) eqn:E; simpl; [exact IH|].
  rewrite E. exact IH.
Qed.

Lemma find_has_id_element id es :
  Forall (fun x => is_nullish x = false) es ->
  exists o, find (JArr es []) (has_id id) = Ok o /\ option_map snd o = first_with_id id es.
Proof.
  intros Hr. pose proof (find_from_has_id id es 0 Hr) as H. cbn [find].
  destruct (find_from (has_id id) es 0) as [o|e]; simpl in H; [|discriminate].
  exists o. split; [reflexivity|]. injection H as H. exact H.
Qed.

Lemma Forall_filter {A} (P : A -> Prop) (f : A -> bool) l :
  Forall P l -> Forall P (filter f l).
Proof.
  induction 1 as [|x r Hx _ IH]; simpl; [constructor|].
  destruct (f x); [constructor; assumption | exact IH].
Qed.

Lemma deleteProduct_found w fs id es x :
  document w fs -> adapter w = LocalStorageAdapter ->
  collection "products" fs = JArr es [] ->
  Forall (fun x => is_nullish x = false) es ->
  first_with_id id es = Some x -> truthy x = true ->
  deleteProduct id w
  = (Ok true,
     snd (forEach notify (_watchers w)
            (saved w (update "products" (JArr (filter (other_record id) es) []) fs)))).
Proof.
  intros Hd Ha Ec Hr Hx Ht. unfold deleteProduct.
  rewrite (bind_ok _ _ _ _ _ (getCollection_document w fs "products" Hd)). rewrite Ec.
  destruct (find_has_id_element id es Hr) as (o & Hf & Ho).
  unfold bind at 1. unfold lift at 1. rewrite Hf. cbv iota beta.
  rewrite Hx in Ho. destruct o as [[i y]|]; simpl in Ho; [|discriminate].
  injection Ho as ->. rewrite Ht. cbn [negb].
  unfold bind at 1. unfold lift at 1. rewrite (filterM_other_id id es Hr). cbv iota beta.
  rewrite (bind_ok _ _ _ _ _
             (saveCollection_document w fs "products" _ Hd Ha)).
  reflexivity.
Qed.

(** X17. [deleteProduct(productId)] on a cached document whose products
    can be read.  When no product has the identifier, it throws "Product
    not found" and changes nothing.  When one has, it succeeds (through
    the localStorage adapter) and removes every product with that
    identifier, not only the first; the products with another identifier
    stay, in their order; and [getProductById(productId)] then returns
    [null]. *)
Theorem deleteProduct_removes_every_match :
  forall (w : World) (fs : Props) (id : JVal) (es : list JVal),
    document w fs ->
    collection "products" fs = JArr es [] ->
    Forall (fun x => is_nullish x = false) es ->
    (first_with_id id es = None ->
     deleteProduct id w = (Throw (JsError "Product not found"), w))
    /\
    (forall x,
       adapter w = LocalStorageAdapter ->
       first_with_id id es = Some x -> truthy x = true ->
       let w' := snd (deleteProduct id w) in
       fst (deleteProduct id w) = Ok true /\
       collection "products" (cached_fields w') = JArr (filter (other_record id) es) [] /\
       getProductById id w' = (Ok JNull, w')).
Proof.
  intros w fs id es Hd Ec Hr. split.
  - intros Hnone. unfold deleteProduct.
    rewrite (bind_ok _ _ _ _ _ (getCollection_document w fs "products" Hd)). rewrite Ec.
    destruct (find_has_id_element id es Hr) as (o & Hf & Ho).
    unfold bind, lift. rewrite Hf. rewrite Hnone in Ho.
    destruct o as [[i y]|]; [discriminate | reflexivity].
  - intros x Ha Hx Ht w'. unfold w'.
    rewrite (deleteProduct_found w fs id es x Hd Ha Ec Hr Hx Ht). cbn [fst snd].
    destruct (collection_array w fs _ _ _ Hd Ec) as [_ Hes].
    set (kept := filter (other_record id) es).
    assert (Hk : lookup "products" (norm_props (update "products" (JArr kept []) fs))
                 = Some (JArr kept [])).
    { erewrite lookup_norm_props_some; [| apply lookup_update_same | apply json_norm_arr].
      rewrite (map_norm_elem_normal kept) by (apply Forall_filter; exact Hes). reflexivity. }
    assert (Ec' : collection "products" (norm_props (update "products" (JArr kept []) fs))
                  = JArr kept []).
    { unfold collection. rewrite Hk. reflexivity. }
    split; [reflexivity|]. split.
    + unfold cached_fields. rewrite saved_cache. exact Ec'.
    + unfold getProductById.
      erewrite find_by_id_document;
        [| apply saved_document | exact Ec' | apply Forall_filter; exact Hr].
      unfold kept. rewrite first_with_id_filtered. reflexivity.
Qed.

Module Delete_example.
Import Scenario.

(** Two products under the identifier "dup", with "p1" between them. *)
Definition crowded : World :=
  exec (addProduct [("id", JStr "dup"); ("name", JStr "second")])
    (exec (addProduct [("id", JStr "dup"); ("name", JStr "first")]) stocked).

Definition products : list JVal :=
  match collection "products" (cached_fields crowded) with
  | JArr es _ => es
  | _ => []
  end.

Definition names (w : World) : list JVal :=
  match collection "products" (cached_fields w) with
  | JArr es _ => map (fun p => or_undef (lookup "name" (match p with JObj pf => pf | _ => [] end))) es
  | _ => []
  end.

End Delete_example.

Lemma deleteProduct_witness :
  Delete_example.names Delete_example.crowded = [JStr "Tile"; JStr "first"; JStr "second"] /\
  Delete_example.names (snd (deleteProduct (JStr "dup") Delete_example.crowded))
    = [JStr "Tile"].
Proof.
  split; [vm_compute; reflexivity|].
  destruct (deleteProduct_removes_every_match Delete_example.crowded
              (cached_fields Delete_example.crowded) (JStr "dup") Delete_example.products)
    as [_ H].
  - split; vm_compute; reflexivity.
  - vm_compute. reflexivity.
  - vm_compute. repeat constructor.
  - destruct (H (match first_with_id (JStr "dup") Delete_example.products with
                 | Some x => x
                 | None => JNull
                 end)) as (_ & Hc & _).
    + reflexivity.
    + vm_compute. reflexivity.
    + vm_compute. reflexivity.
    + unfold Delete_example.names. rewrite Hc. vm_compute. reflexivity.
Defined.

(* ================================================================== *)
(** ** Alerts added and resolved by hand *)
(* ================================================================== *)

Lemma addAlert_document w fs alertData es :
  document w fs -> adapter w = LocalStorageAdapter ->
  collection "alerts" fs = JArr es [] ->
  let a := JObj (new_alert ("alert_" ++ random w (random_reads w))%string
                           (clock w (clock_reads w)) alertData) in
  addAlert alertData w
  = (Ok a,
     snd (forEach notify (_watchers w)
            (saved (ticked w) (update "alerts" (JArr (es ++ [a]) []) fs)))).
Proof.
  intros Hd Ha Ec.
  exact (append_record_document (fun id d => new_alert id d alertData)
           "alerts" "alert" w fs es Hd Ha Ec).
Qed.

Lemma new_alert_is_open id date alertData pid :
  NoDup (map fst alertData) ->
  lookup "productId" alertData = Some (JStr pid) ->
  lookup "resolved" alertData = None ->
  is_open_alert (JStr pid) (norm_elem (JObj (new_alert id date alertData))) = true.
Proof.
  intros Hnd Hp Hr. unfold norm_elem. rewrite json_norm_obj. cbn [is_open_alert].
  rewrite (lookup_norm_props_some "productId" (JStr pid) (JStr pid));
    [| unfold new_alert; apply Object_assign_lookup; assumption | reflexivity].
  rewrite (lookup_norm_props_some "resolved" (JBool false) (JBool false));
    [| unfold new_alert; rewrite (Object_assign_other _ _ _ Hr); reflexivity | reflexivity].
  cbn [or_undef strict_equals truthy negb]. rewrite String.eqb_refl. reflexivity.
Qed.

Module Alert_example.

(** The world after the first sale of the example of C1: "p1" has one
    open alert. *)
Definition alerted : World := C1_example.after_first.

Definition by_hand : Props := [("productId", JStr "p1"); ("notes", JStr "by hand")].

Definition alerts (w : World) : list JVal := alert_list (cached_fields w).

End Alert_example.

(** X18. [addAlert(alertData)] does not look for an alert that is already
    open: on a cached document whose alerts are an array (through the
    localStorage adapter), for an [alertData] that names the product in
    [productId] and does not set [resolved], it appends one alert to the
    collection and the product has one unresolved alert more than before.
    So a product that had one has two afterwards: the bound of one
    unresolved alert per product, which the reconciliation of sales
    keeps, is not kept by [addAlert]. *)
Theorem addAlert_adds_an_open_alert_unconditionally :
  forall (w : World) (fs alertData : Props) (es : list JVal) (pid : string),
    document w fs -> adapter w = LocalStorageAdapter ->
    collection "alerts" fs = JArr es [] ->
    NoDup (map fst alertData) ->
    lookup "productId" alertData = Some (JStr pid) ->
    lookup "resolved" alertData = None ->
    exists alert,
      fst (addAlert alertData w) = Ok alert /\
      alert_list (cached_fields (snd (addAlert alertData w))) = es ++ [norm_elem alert] /\
      open_count (JStr pid) (cached_fields (snd (addAlert alertData w)))
      = S (open_count (JStr pid) fs) /\
      (1 <= open_count (JStr pid) fs ->
       ~ at_most_one_open (cached_fields (snd (addAlert alertData w))))%nat.
Proof.
  intros w fs alertData es pid Hd Ha Ec Hnd Hp Hr.
  pose proof (addAlert_document w fs alertData es Hd Ha Ec) as H. cbv zeta in H.
  rewrite H. cbn [fst snd].
  destruct (collection_array w fs _ _ _ Hd Ec) as [_ Hes].
  eexists. split; [reflexivity|].
  unfold cached_fields. rewrite saved_cache.
  assert (Hl : alert_list (norm_props (update "alerts"
                 (JArr (es ++ [JObj (new_alert ("alert_" ++ random w (random_reads w))
                                       (clock w (clock_reads w)) alertData)]) []) fs))
               = es ++ [norm_elem (JObj (new_alert ("alert_" ++ random w (random_reads w))
                                           (clock w (clock_reads w)) alertData))]).
  { unfold alert_list.
    erewrite lookup_saved_push; [reflexivity | exact Hes | apply json_norm_obj]. }
  assert (Hc : open_count (JStr pid) (norm_props (update "alerts"
                 (JArr (es ++ [JObj (new_alert ("alert_" ++ random w (random_reads w))
                                       (clock w (clock_reads w)) alertData)]) []) fs))
               = S (open_count (JStr pid) fs)).
  { unfold open_count. rewrite Hl, filter_app, length_app.
    rewrite (alert_list_collection fs es [] Ec). cbn [filter].
    rewrite (new_alert_is_open _ _ _ _ Hnd Hp Hr). cbn [length]. lia. }
  split; [exact Hl|]. split; [exact Hc|].
  intros Hone Hinv. specialize (Hinv (JStr pid)). rewrite Hc in Hinv. lia.
Qed.

Lemma addAlert_witness :
  open_count (JStr "p1") (cached_fields Alert_example.alerted) = 1%nat /\
  open_count (JStr "p1")
    (cached_fields (snd (addAlert Alert_example.by_hand Alert_example.alerted))) = 2%nat.
Proof.
  split; [vm_compute; reflexivity|].
  destruct (addAlert_adds_an_open_alert_unconditionally Alert_example.alerted
              (cached_fields Alert_example.alerted) Alert_example.by_hand
              (Alert_example.alerts Alert_example.alerted) "p1")
    as (alert & _ & _ & Hc & _).
  - split; vm_compute; reflexivity.
  - reflexivity.
  - vm_compute. reflexivity.
  - repeat constructor; simpl; intuition discriminate.
  - reflexivity.
  - reflexivity.
  - rewrite Hc. vm_compute. reflexivity.
Defined.

Lemma set_prop_readable v k x : is_nullish v = false -> set_prop v k x = Ok (put v k x).
Proof. unfold put. destruct v; simpl; try discriminate; reflexivity. Qed.

Lemma put_readable v k x : is_nullish v = false -> is_nullish (put v k x) = false.
Proof. unfold put. destruct v; simpl; try discriminate; reflexivity. Qed.

Lemma has_id_true_readable id a : has_id id a = Ok true -> is_nullish a = false.
Proof. unfold has_id. destruct a; simpl; try discriminate; reflexivity. Qed.

(** The alert as [resolveAlert] leaves it at time [t]. *)
Definition resolved_at (t : string) (a : JVal) : JVal :=
  put (put a "resolved" (JBool true)) "resolvedAt" (JStr t).

Lemma resolved_at_not_open t a pid : is_open_alert pid (norm_elem (resolved_at t a)) = false.
Proof.
  unfold resolved_at, put, norm_elem.
  destruct a as [| |b|x|s|es ps|ps]; cbn [set_prop json_norm]; try reflexivity.
  - unfold json_num. destruct (is_nan x || is_infinity x); [reflexivity|].
    destruct (is_zero x); reflexivity.
  - change (json_norm (JObj ?l)) with (Some (JObj (norm_props l))).
    cbn [is_open_alert].
    rewrite (lookup_norm_props_some "resolved" (JBool true) (JBool true));
      [| rewrite (lookup_update_other "resolved" "resolvedAt") by reflexivity;
         apply lookup_update_same
       | reflexivity].
    cbn [or_undef truthy negb]. apply andb_false_r.
Qed.

Lemma filter_replace_le (p : JVal -> bool) i x es :
  p x = false ->
  (length (filter p (replace_nth i x es)) <= length (filter p es))%nat.
Proof.
  intros Hx. revert i. induction es as [|y r IH]; intros i; [destruct i; simpl; lia|].
  destruct i as [|i]; simpl.
  - rewrite Hx. destruct (p y); simpl; lia.
  - specialize (IH i). destruct (p y); simpl; lia.
Qed.

Lemma replace_nth_length i x (es : list JVal) : length (replace_nth i x es) = length es.
Proof.
  revert i. induction es as [|y r IH]; intros i; [destruct i; reflexivity|].
  destruct i; simpl; [reflexivity | rewrite IH; reflexivity].
Qed.

Lemma resolveAlert_found w fs id es i a :
  document w fs -> adapter w = LocalStorageAdapter ->
  collection "alerts" fs = JArr es [] ->
  find (JArr es []) (has_id id) = Ok (Some (i, a)) ->
  let a' := resolved_at (clock w (clock_reads w)) a in
  resolveAlert id w
  = (Ok a',
     snd (forEach notify (_watchers w)
            (saved (set_clock_reads w (S (clock_reads w)))
               (update "alerts" (JArr (replace_nth i a' es) []) fs)))).
Proof.
  intros Hd Ha Ec Hf a'. unfold resolveAlert.
  rewrite (bind_ok _ _ _ _ _ (getCollection_document w fs "alerts" Hd)). rewrite Ec.
  unfold bind at 1. unfold lift at 1. rewrite Hf. cbv iota beta.
  cbn [find] in Hf. apply find_from_sat in Hf. apply has_id_true_readable in Hf.
  unfold bind at 1. unfold lift at 1. rewrite (set_prop_readable _ _ _ Hf). cbv iota beta.
  unfold bind at 1. unfold nowISO, Date_toISOString at 1. cbv iota beta.
  unfold bind at 1. unfold lift at 1.
  rewrite (set_prop_readable _ _ _ (put_readable _ _ _ Hf)). cbv iota beta.
  fold (resolved_at (clock w (clock_reads w)) a). fold a'. cbn [store_at].
  assert (Hd1 : document (set_clock_reads w (S (clock_reads w))) fs) by exact Hd.
  rewrite (bind_ok _ _ _ _ _
             (saveCollection_document _ fs "alerts" (JArr (replace_nth i a' es) []) Hd1 Ha)).
  reflexivity.
Qed.

(** X19. [resolveAlert(alertId)] on a cached document.  When no alert has
    the identifier, it throws "Alert not found" and changes nothing.
    When the first alert with it is at index [i], it succeeds (through the
    localStorage adapter) and returns that alert with [resolved = true]
    and [resolvedAt] set to the current time; the stored collection is
    the old one with that alert at index [i], every other entry
    untouched; the alert is unresolved for no product any more, so no
    product has more unresolved alerts than before. *)
Theorem resolveAlert_resolves_one_alert :
  forall (w : World) (fs : Props) (id : JVal),
    document w fs ->
    (find (collection "alerts" fs) (has_id id) = Ok None ->
     resolveAlert id w = (Throw (JsError "Alert not found"), w))
    /\
    (forall (es : list JVal) (i : nat) (a : JVal),
       adapter w = LocalStorageAdapter ->
       collection "alerts" fs = JArr es [] ->
       find (JArr es []) (has_id id) = Ok (Some (i, a)) ->
       let a' := resolved_at (clock w (clock_reads w)) a in
       let fs' := cached_fields (snd (resolveAlert id w)) in
       fst (resolveAlert id w) = Ok a' /\
       alert_list fs' = replace_nth i (norm_elem a') es /\
       length (alert_list fs') = length es /\
       (forall pid, is_open_alert pid (norm_elem a') = false) /\
       (forall pid, open_count pid fs' <= open_count pid fs)%nat).
Proof.
  intros w fs id Hd. split.
  - intros Hf. unfold resolveAlert.
    rewrite (bind_ok _ _ _ _ _ (getCollection_document w fs "alerts" Hd)).
    unfold bind, lift. rewrite Hf. reflexivity.
  - intros es i a Ha Ec Hf a' fs'.
    pose proof (resolveAlert_found w fs id es i a Hd Ha Ec Hf) as H. cbv zeta in H.
    fold a' in H. unfold fs'. rewrite H. cbn [fst snd].
    destruct (collection_array w fs _ _ _ Hd Ec) as [_ Hes].
    assert (Hl : alert_list (cached_fields
                   (snd (forEach notify (_watchers w)
                           (saved (set_clock_reads w (S (clock_reads w)))
                              (update "alerts" (JArr (replace_nth i a' es) []) fs)))))
                 = replace_nth i (norm_elem a') es).
    { unfold cached_fields. rewrite saved_cache. unfold alert_list.
      erewrite lookup_norm_props_some; [| apply lookup_update_same | apply json_norm_arr].
      cbn [or_undef]. apply map_norm_elem_replace. exact Hes. }
    split; [reflexivity|]. split; [exact Hl|].
    split; [rewrite Hl; apply replace_nth_length|].
    split; [intros pid; apply resolved_at_not_open|].
    intros pid. unfold open_count. rewrite Hl, (alert_list_collection fs es [] Ec).
    apply filter_replace_le. apply resolved_at_not_open.
Qed.

Module Resolve_example.

(** The identifier of the alert that the first sale of C1 raised. *)
Definition alert_id : JVal :=
  match Alert_example.alerts Alert_example.alerted with
  | a :: _ => id_of a
  | [] => JNull
  end.

Definition the_alert : JVal :=
  match Alert_example.alerts Alert_example.alerted with
  | a :: _ => a
  | [] => JNull
  end.

End Resolve_example.

Lemma resolveAlert_witness :
  open_count (JStr "p1") (cached_fields Alert_example.alerted) = 1%nat /\
  open_count (JStr "p1")
    (cached_fields (snd (resolveAlert Resolve_example.alert_id Alert_example.alerted)))
  = 0%nat /\
  length (alert_list
            (cached_fields (snd (resolveAlert Resolve_example.alert_id Alert_example.alerted))))
  = 1%nat.
Proof.
  split; [vm_compute; reflexivity|].
  destruct (resolveAlert_resolves_one_alert Alert_example.alerted
              (cached_fields Alert_example.alerted) Resolve_example.alert_id) as [_ H].
  { split; vm_compute; reflexivity. }
  destruct (H (Alert_example.alerts Alert_example.alerted) 0%nat Resolve_example.the_alert)
    as (_ & Hl & Hlen & _).
  - reflexivity.
  - vm_compute. reflexivity.
  - vm_compute. reflexivity.
  - split; [|exact Hlen]. unfold open_count. rewrite Hl. vm_compute. reflexivity.
Defined.

(* ================================================================== *)
(** ** A recorded sale or purchase can be read back *)
(* ================================================================== *)

Lemma inv_warned Phi msg w : inv Phi w -> inv Phi (warned msg w).
Proof. intros H. exact H. Qed.

(** After the record [x] has been appended to the collection [name] and
    the reconciliation [reconcile] has run inside [try]/[catch], the
    collection still ends with the record. *)
Lemma recorded_then_held (record : M JVal) (reconcile : JVal -> M unit) msg name
      w x w1 X :
  record w = (Ok x, w1) ->
  inv (holds_collection name X) w1 ->
  preserves (inv (holds_collection name X)) (reconcile x) ->
  inv (holds_collection name X)
      (snd ((x <- record ;;
             try_catch (reconcile x) (fun e => console_log Lwarn msg) ;;
             ret x) w)).
Proof.
  intros Hr Hinv Hp.
  rewrite (record_then_reconcile record reconcile msg w x w1 Hr). cbn [snd].
  specialize (Hp w1 Hinv).
  destruct (reconcile x w1) as [[u|e] w2]; [exact Hp | apply inv_warned; exact Hp].
Qed.

Lemma lookup_held w name X id es :
  inv (holds_collection name X) w -> X = JArr es [] ->
  Forall (fun x => is_nullish x = false) es ->
  find_by_id name id w = (Ok (found_or_null (first_with_id id es)), w).
Proof.
  intros (fs & Hd & Hl & _) -> Hr.
  apply (find_by_id_document w fs name id es []); [exact Hd | | exact Hr].
  unfold collection. rewrite Hl. reflexivity.
Qed.

Lemma appended_readable es x :
  Forall (fun y => is_nullish y = false) es ->
  Forall (fun y => is_nullish y = false) (es ++ [norm_elem (JObj x)]).
Proof.
  intros H. apply Forall_app. split; [exact H|]. constructor; [|constructor].
  unfold norm_elem. rewrite json_norm_obj. reflexivity.
Qed.

Lemma found_appended es x s :
  first_with_id (JStr s) es = None -> lookup "id" x = Some (JStr s) ->
  found_or_null (first_with_id (JStr s) (es ++ [norm_elem (JObj x)])) = norm_elem (JObj x).
Proof.
  intros Hnone Hid. rewrite first_with_id_app, Hnone, (id_of_norm_string x s Hid).
  cbn [strict_equals]. rewrite String.eqb_refl.
  unfold norm_elem. rewrite json_norm_obj. reflexivity.
Qed.

(** X20. Record, then look up: [addSale(saleData)] on a cached document
    whose sales can be read (through the localStorage adapter) returns
    the sale it recorded, and [getSaleById] of the sale's [id] (a string,
    generated or given) then returns that sale, as JSON keeps it,
    provided no sale had that [id] before: whatever the reconciliation of
    the stock did afterwards, and whether it succeeded or threw.  The
    same holds of [addPurchase] and [getPurchaseById]. *)
Theorem recorded_transaction_can_be_read_back :
  forall (w : World) (fs data : Props) (es : list JVal) (s : string),
    document w fs -> adapter w = LocalStorageAdapter ->
    Forall (fun x => is_nullish x = false) es ->
    first_with_id (JStr s) es = None ->
    (collection "sales" fs = JArr es [] ->
     let sale := new_sale ("sale_" ++ random w (random_reads w))%string
                          (clock w (clock_reads w)) data in
     lookup "id" sale = Some (JStr s) ->
     let w' := snd (addSale data w) in
     fst (addSale data w) = Ok (JObj sale) /\
     getSaleById (JStr s) w' = (Ok (norm_elem (JObj sale)), w'))
    /\
    (collection "purchases" fs = JArr es [] ->
     let purchase := new_purchase ("pur_" ++ random w (random_reads w))%string
                                  (clock w (clock_reads w)) data in
     lookup "id" purchase = Some (JStr s) ->
     let w' := snd (addPurchase data w) in
     fst (addPurchase data w) = Ok (JObj purchase) /\
     getPurchaseById (JStr s) w' = (Ok (norm_elem (JObj purchase)), w')).
Proof.
  intros w fs data es s Hd Ha Hr Hnone. split.
  - intros Ec sale Hid w'.
    pose proof (record_sale_document w fs data es Hd Ha Ec) as Hrec. cbv zeta in Hrec.
    fold sale in Hrec.
    destruct (collection_array w fs "sales" es [] Hd Ec) as [_ Hes].
    assert (Hheld : inv (holds_collection "sales" (JArr (es ++ [norm_elem (JObj sale)]) []))
                        w').
    { unfold w', addSale.
      eapply recorded_then_held; [exact Hrec | |].
      - apply appended_holds; [apply Hd | exact Hes | reflexivity].
      - apply preserves_sale_reconciliation; apply holds_collection_stable; reflexivity. }
    split.
    + unfold addSale.
      rewrite (record_then_reconcile (record_sale data) _ _ w (JObj sale) _ Hrec).
      reflexivity.
    + unfold getSaleById.
      rewrite (lookup_held w' "sales" _ (JStr s) _ Hheld eq_refl (appended_readable es sale Hr)).
      rewrite (found_appended es sale s Hnone Hid). reflexivity.
  - intros Ec purchase Hid w'.
    pose proof (record_purchase_document w fs data es Hd Ha Ec) as Hrec. cbv zeta in Hrec.
    fold purchase in Hrec.
    destruct (collection_array w fs "purchases" es [] Hd Ec) as [_ Hes].
    assert (Hheld : inv (holds_collection "purchases"
                           (JArr (es ++ [norm_elem (JObj purchase)]) [])) w').
    { unfold w', addPurchase.
      eapply recorded_then_held; [exact Hrec | |].
      - apply appended_holds; [apply Hd | exact Hes | reflexivity].
      - apply preserves_purchase_reconciliation; apply holds_collection_stable; reflexivity. }
    split.
    + unfold addPurchase.
      rewrite (record_then_reconcile (record_purchase data) _ _ w (JObj purchase) _ Hrec).
      reflexivity.
    + unfold getPurchaseById.
      rewrite (lookup_held w' "purchases" _ (JStr s) _ Hheld eq_refl
                 (appended_readable es purchase Hr)).
      rewrite (found_appended es purchase s Hnone Hid). reflexivity.
Qed.

Lemma recorded_transaction_witness :
  rbind (fst (getSaleById (JStr "sale_r01")
                (snd (addSale (Scenario.one_line "p1" "Box" 4) Scenario.stocked))))
        (fun sale => get_prop sale "paymentMethod")
  = Ok (JStr "Cash").
Proof.
  destruct (recorded_transaction_can_be_read_back Scenario.stocked
              (cached_fields Scenario.stocked) (Scenario.one_line "p1" "Box" 4) []
              "sale_r01") as [H _].
  - split; vm_compute; reflexivity.
  - reflexivity.
  - constructor.
  - reflexivity.
  - destruct H as [_ H]; [vm_compute; reflexivity | vm_compute; reflexivity |].
    rewrite H. vm_compute. reflexivity.
Defined.

(* ================================================================== *)
(** ** Binary64 arithmetic: which operations can give NaN *)
(* ================================================================== *)

Module FloatFacts.

Local Open Scope Z_scope.

Lemma shr_1_nonneg r : 0 <= shr_m r -> 0 <= shr_m (shr_1 r).
Proof.
  destruct r as [m r s]. cbn [shr_m]. intros H.
  destruct m as [|[p|p|]|p]; cbn; lia.
Qed.

Lemma iter_pos_shr_1_nonneg p : forall r,
  0 <= shr_m r -> 0 <= shr_m (iter_pos shr_1 p r).
Proof.
  induction p as [p IH|p IH|]; intros r H; cbn [iter_pos].
  - apply IH, IH, shr_1_nonneg, H.
  - apply IH, IH, H.
  - apply shr_1_nonneg, H.
Qed.

Lemma shr_nonneg r e n : 0 <= shr_m r -> 0 <= shr_m (fst (shr r e n)).
Proof.
  intros H. destruct n; cbn [shr fst]; [exact H | | exact H].
  apply iter_pos_shr_1_nonneg, H.
Qed.

Lemma shr_record_of_loc_m m l : shr_m (shr_record_of_loc m l) = m.
Proof. destruct l as [|[]]; reflexivity. Qed.

Lemma shr_fexp_nonneg prec emax m e l :
  0 <= m -> 0 <= shr_m (fst (shr_fexp prec emax m e l)).
Proof.
  intros H. unfold shr_fexp. apply shr_nonneg. rewrite shr_record_of_loc_m. exact H.
Qed.

Lemma round_nearest_even_nonneg m l : 0 <= m -> 0 <= round_nearest_even m l.
Proof.
  intros H. destruct l as [|[]]; cbn [round_nearest_even]; try lia.
  destruct (Z.even m); lia.
Qed.

(** Rounding a non-negative mantissa gives a zero, a finite number or an
    infinity. *)
Lemma binary_round_aux_not_nan prec emax sx mx ex lx :
  0 <= mx -> binary_round_aux prec emax sx mx ex lx <> S754_nan.
Proof.
  intros H. unfold binary_round_aux.
  pose proof (shr_fexp_nonneg prec emax mx ex lx H) as H1.
  destruct (shr_fexp prec emax mx ex lx) as [mrs' e']. cbn [fst] in H1.
  pose proof (shr_fexp_nonneg prec emax _ e' loc_Exact
                (round_nearest_even_nonneg _ (loc_of_shr_record mrs') H1)) as H2.
  destruct (shr_fexp prec emax _ e' loc_Exact) as [mrs'' e'']. cbn [fst] in H2.
  destruct (shr_m mrs'') as [|m|m]; [discriminate | | lia].
  destruct (e'' <=? emax - prec); discriminate.
Qed.

Lemma binary_round_not_nan prec emax sx mx ex :
  binary_round prec emax sx mx ex <> S754_nan.
Proof.
  unfold binary_round. destruct (shl_align _ _ _) as [mz ez].
  apply binary_round_aux_not_nan. lia.
Qed.

Lemma binary_normalize_not_nan prec emax m e szero :
  binary_normalize prec emax m e szero <> S754_nan.
Proof.
  destruct m; cbn [binary_normalize]; [discriminate | |]; apply binary_round_not_nan.
Qed.

Definition is_inf (x : spec_float) : bool :=
  match x with S754_infinity _ => true | _ => false end.

Definition is_zero_sf (x : spec_float) : bool :=
  match x with S754_zero _ => true | _ => false end.

(** A sum is NaN only from a NaN or from two infinities. *)
Lemma SFadd_not_nan prec emax x y :
  x <> S754_nan -> y <> S754_nan -> is_inf x && is_inf y = false ->
  SFadd prec emax x y <> S754_nan.
Proof.
  intros Hx Hy Hi.
  destruct x as [sx|sx| |sx mx ex], y as [sy|sy| |sy my ey];
    cbn [SFadd]; try congruence; try discriminate.
  - destruct sx, sy; discriminate.
  - apply binary_normalize_not_nan.
Qed.

(** A difference is NaN only from a NaN or from two infinities. *)
Lemma SFsub_not_nan prec emax x y :
  x <> S754_nan -> y <> S754_nan -> is_inf x && is_inf y = false ->
  SFsub prec emax x y <> S754_nan.
Proof.
  intros Hx Hy Hi.
  destruct x as [sx|sx| |sx mx ex], y as [sy|sy| |sy my ey];
    cbn [SFsub]; try congruence; try discriminate.
  - destruct sx, sy; discriminate.
  - apply binary_normalize_not_nan.
Qed.

(** A product is NaN only from a NaN or from zero times infinity. *)
Lemma SFmul_not_nan prec emax x y :
  x <> S754_nan -> y <> S754_nan ->
  is_inf x && is_zero_sf y = false -> is_zero_sf x && is_inf y = false ->
  SFmul prec emax x y <> S754_nan.
Proof.
  intros Hx Hy H1 H2.
  destruct x as [sx|sx| |sx mx ex], y as [sy|sy| |sy my ey];
    cbn [SFmul]; try congruence; try discriminate.
  apply binary_round_aux_not_nan. lia.
Qed.

Lemma SFdiv_core_binary_nonneg prec emax m1 e1 m2 e2 :
  0 <= fst (fst (SFdiv_core_binary prec emax (Zpos m1) e1 (Zpos m2) e2)).
Proof.
  unfold SFdiv_core_binary.
  set (s := _ - _ - Z.min _ _).
  set (m' := match s with Z0 => Zpos m1 | Zpos _ => Z.shiftl (Zpos m1) s | Zneg _ => 0 end).
  assert (Hm : 0 <= m').
  { unfold m'. destruct s; [lia | | lia]. apply Z.shiftl_nonneg. lia. }
  pose proof (Z.div_pos m' (Zpos m2) Hm ltac:(lia)) as Hq.
  unfold Z.div in Hq. destruct (Z.div_eucl m' (Zpos m2)) as [q r]. exact Hq.
Qed.

(** A quotient is NaN only from a NaN, from two infinities or from two
    zeros. *)
Lemma SFdiv_not_nan prec emax x y :
  x <> S754_nan -> y <> S754_nan ->
  is_inf x && is_inf y = false -> is_zero_sf x && is_zero_sf y = false ->
  SFdiv prec emax x y <> S754_nan.
Proof.
  intros Hx Hy H1 H2.
  destruct x as [sx|sx| |sx mx ex], y as [sy|sy| |sy my ey];
    cbn [SFdiv]; try congruence; try discriminate.
  pose proof (SFdiv_core_binary_nonneg prec emax mx ex my ey) as H.
  destruct (SFdiv_core_binary prec emax (Zpos mx) ex (Zpos my) ey) as [[mz ez] lz].
  apply binary_round_aux_not_nan. exact H.
Qed.

Local Open Scope float_scope.

Lemma SFeqb_refl x : x <> S754_nan -> SFeqb x x = true.
Proof.
  intros H. destruct x as [s|s| |s m e]; [reflexivity | | congruence |].
  - destruct s; reflexivity.
  - unfold SFeqb, SFcompare. rewrite Z.compare_refl.
    assert (E : Pos.compare_cont Eq m m = Eq) by apply Pos.compare_refl.
    rewrite E. destruct s; reflexivity.
Qed.

(** [isNaN(x)] in terms of the value of [x]. *)
Lemma is_nan_Prim2SF x : is_nan x = true <-> Prim2SF x = S754_nan.
Proof.
  unfold is_nan. rewrite FloatAxioms.eqb_spec. split.
  - intros H. destruct (Prim2SF x) eqn:E; try reflexivity;
      rewrite SFeqb_refl in H by discriminate; discriminate.
  - intros ->. reflexivity.
Qed.

Lemma is_nan_false x : is_nan x = false <-> Prim2SF x <> S754_nan.
Proof.
  rewrite <- is_nan_Prim2SF. destruct (is_nan x); split; congruence.
Qed.

Lemma is_nan_eq x : is_nan x = true <-> x = nan.
Proof.
  rewrite is_nan_Prim2SF. split.
  - intros H. apply Prim2SF_inj. rewrite H. reflexivity.
  - intros ->. reflexivity.
Qed.

(** A finite number is a zero or has a mantissa: [Number.isFinite]. *)
Lemma is_finite_Prim2SF x :
  is_finite x = true <->
  (exists s, Prim2SF x = S754_zero s) \/ (exists s m e, Prim2SF x = S754_finite s m e).
Proof.
  unfold is_finite, is_nan, is_infinity.
  rewrite !FloatAxioms.eqb_spec, FloatAxioms.abs_spec.
  change (Prim2SF infinity) with (S754_infinity false).
  destruct (Prim2SF x) as [s|s| |s m e] eqn:E.
  - split; [eauto | reflexivity].
  - split; [destruct s; discriminate | intros [[? H]|(? & ? & ? & H)]; discriminate].
  - split; [discriminate | intros [[? H]|(? & ? & ? & H)]; discriminate].
  - split; [eauto 6 | intros _].
    rewrite SFeqb_refl by discriminate. reflexivity.
Qed.

Lemma of_uint63_not_nan n : Prim2SF (of_uint63 n) <> S754_nan.
Proof. rewrite FloatAxioms.of_uint63_spec. apply binary_normalize_not_nan. Qed.

Lemma opp_not_nan x : Prim2SF x <> S754_nan -> Prim2SF (- x) <> S754_nan.
Proof.
  intros H. rewrite FloatAxioms.opp_spec. destruct (Prim2SF x); [discriminate.. | congruence | discriminate].
Qed.

(** [Math.round] and [Math.ceil] give NaN only for NaN. *)
Lemma Math_round_not_nan x : Prim2SF x <> S754_nan -> Prim2SF (Math_round x) <> S754_nan.
Proof.
  intros H. unfold Math_round.
  destruct (Prim2SF x) as [s|s| |s m e] eqn:E; try (rewrite E; discriminate); [congruence|].
  destruct (0 <=? e)%Z; [rewrite E; discriminate|].
  cbv zeta. destruct (_ =? 0)%Z; [destruct s; discriminate|].
  destruct (_ <? 0)%Z; [apply opp_not_nan|]; apply of_uint63_not_nan.
Qed.

Lemma Math_ceil_not_nan x : Prim2SF x <> S754_nan -> Prim2SF (Math_ceil x) <> S754_nan.
Proof.
  intros H. unfold Math_ceil.
  destruct (Prim2SF x) as [s|s| |s m e] eqn:E; try (rewrite E; discriminate); [congruence|].
  destruct (0 <=? e)%Z; [rewrite E; discriminate|].
  cbv zeta. destruct (_ =? 0)%Z; [destruct s; discriminate|].
  destruct (_ <? 0)%Z; [apply opp_not_nan|]; apply of_uint63_not_nan.
Qed.

End FloatFacts.

(* ================================================================== *)
(** ** js/utils.js: [roundTo] and [convertUnits] and NaN *)
(* ================================================================== *)

Import FloatFacts.

(** What [roundTo] computes from the number [n] that [toNumber] read, for
    the power of ten [p]. *)
Definition rounded (p n : float) : float :=
  Math_round ((n + Utils.Number_EPSILON) * p) / p.

Definition plain_finite (x : spec_float) : Prop :=
  match x with S754_finite _ _ _ => True | _ => False end.

(** Rounding to the power of ten [p] gives NaN only for NaN. *)
Lemma rounded_number p n :
  Prim2SF n <> S754_nan -> plain_finite (Prim2SF p) -> is_nan (rounded p n) = false.
Proof.
  intros Hn Hp. apply is_nan_false. unfold rounded.
  rewrite FloatAxioms.div_spec.
  assert (Hp' : Prim2SF p <> S754_nan /\ is_inf (Prim2SF p) = false
                /\ is_zero_sf (Prim2SF p) = false).
  { destruct (Prim2SF p); try contradiction. repeat split. discriminate. }
  destruct Hp' as (Hp1 & Hp2 & Hp3).
  apply SFdiv_not_nan; [ | exact Hp1 | rewrite Hp2; apply andb_false_r
                         | rewrite Hp3; apply andb_false_r].
  apply Math_round_not_nan. rewrite FloatAxioms.mul_spec.
  apply SFmul_not_nan; [ | exact Hp1 | rewrite Hp3; apply andb_false_r
                         | rewrite Hp2; apply andb_false_r].
  rewrite FloatAxioms.add_spec.
  apply SFadd_not_nan; [exact Hn | discriminate | apply andb_false_r].
Qed.

Lemma rounded_not_nan p n :
  is_finite n = true -> plain_finite (Prim2SF p) -> is_nan (rounded p n) = false.
Proof.
  intros Hn. apply rounded_number. apply is_finite_Prim2SF in Hn.
  destruct Hn as [[s ->]|(s & m & e & ->)]; discriminate.
Qed.

Lemma finite_or_zero x : is_finite (if Number_isFinite x then x else 0) = true.
Proof.
  unfold Number_isFinite. destruct (is_finite x) eqn:E; [exact E | reflexivity].
Qed.

Lemma rounded3_not_nan x : is_nan (rounded3 x) = false.
Proof.
  apply (rounded_not_nan 1000 _ (finite_or_zero x)). exact I.
Qed.

Lemma toNumber_finite v n : Utils.toNumber v 0 = Ok n -> is_finite n = true.
Proof.
  unfold Utils.toNumber. destruct (ToNumber v) as [x|e]; [|discriminate].
  cbn [rbind]. intros H. injection H as <-. apply finite_or_zero.
Qed.

(** X21. [roundTo(v)] (three decimals) never gives NaN: whenever it
    returns, the result is a number, and for a value that is not a finite
    number (NaN, an infinity, [undefined], a string that is no number) the
    result is 0. *)
Theorem roundTo_never_gives_NaN :
  forall (v : JVal) (r : float),
    Utils.roundTo v = Ok r ->
    is_nan r = false /\
    (forall x, ToNumber v = Ok x -> is_finite x = false -> r = 0).
Proof.
  intros v r H. unfold Utils.roundTo in H. cbv zeta in H.
  destruct (Utils.toNumber v 0) as [n|e] eqn:En; [|discriminate].
  cbn [rbind] in H. injection H as <-. split.
  - apply (rounded_not_nan 1000 n (toNumber_finite v n En)). exact I.
  - intros x Hx Hf. unfold Utils.toNumber in En. rewrite Hx in En. cbn [rbind] in En.
    unfold Number_isFinite in En. rewrite Hf in En. injection En as <-.
    vm_compute. reflexivity.
Qed.

Lemma roundTo_witness :
  Utils.roundTo (JStr "two") = Ok 0 /\ is_nan 0 = false.
Proof.
  split; [vm_compute; reflexivity|].
  apply (roundTo_never_gives_NaN (JStr "two") 0). vm_compute. reflexivity.
Defined.



(* ================================================================== *)
(** ** js/utils.js: the box calculators *)
(* ================================================================== *)

(** A finite number that is not [<= 0] is a positive number with a
    mantissa. *)
Lemma positive_finite x :
  is_finite x = true -> (x <=? 0) = false ->
  exists m e, Prim2SF x = S754_finite false m e.
Proof.
  intros Hf Hl. rewrite FloatAxioms.leb_spec in Hl.
  change (Prim2SF 0) with (S754_zero false) in Hl.
  apply is_finite_Prim2SF in Hf.
  destruct Hf as [[s E]|(s & m & e & E)]; rewrite E in Hl.
  - discriminate.
  - destruct s; [discriminate | eauto].
Qed.

Lemma positive_finite' x :
  is_finite x = true -> (0 <? x) = true ->
  exists m e, Prim2SF x = S754_finite false m e.
Proof.
  intros Hf Hl. rewrite FloatAxioms.ltb_spec in Hl.
  change (Prim2SF 0) with (S754_zero false) in Hl.
  apply is_finite_Prim2SF in Hf.
  destruct Hf as [[s E]|(s & m & e & E)]; rewrite E in Hl.
  - discriminate.
  - destruct s; [discriminate | eauto].
Qed.

(** The number of boxes, for a positive [sftPerBox]: never NaN. *)
Lemma boxes_up_not_nan r s :
  is_finite r = true -> is_finite s = true -> (s <=? 0) = false ->
  Prim2SF (Math_ceil (r / s)) <> S754_nan.
Proof.
  intros Hr Hs Hl. apply Math_ceil_not_nan. rewrite FloatAxioms.div_spec.
  destruct (positive_finite s Hs Hl) as (m & e & Es). rewrite Es.
  apply is_finite_Prim2SF in Hr.
  destruct Hr as [[sr ->]|(sr & mr & er & ->)];
    (apply SFdiv_not_nan; [discriminate | discriminate | reflexivity | reflexivity]).
Qed.

Lemma roundTo4_number x :
  roundTo4 (JNum x) = Ok (rounded 10000 (if Number_isFinite x then x else 0)).
Proof. reflexivity. Qed.

(** X23. The two box calculators agree and never give NaN.  For
    arguments that [toNumber] can read, [boxesNeededForSft] returns a
    number [n] that is not NaN, [computeBoxesPiecesSftFromRequiredSft]
    returns an object whose [boxesRoundedUp] is the same [n] and whose
    other three fields are not NaN either; and when [sftPerBox] is
    missing, not a finite number, zero or negative, [n] is 0 and the
    object reports no boxes, no pieces and the whole requirement as
    left over. *)
Theorem box_calculators_agree_and_never_give_NaN :
  forall (requiredSft sftPerBox piecesPerBox : JVal) (r s p : float),
    Utils.toNumber requiredSft 0 = Ok r ->
    Utils.toNumber sftPerBox 0 = Ok s ->
    Utils.toNumber piecesPerBox 0 = Ok p ->
    exists (n : float) (plan : BoxesPlan),
      boxesNeededForSft requiredSft sftPerBox = Ok n /\
      computeBoxesPiecesSftFromRequiredSft requiredSft sftPerBox piecesPerBox = Ok plan /\
      boxesRoundedUp plan = n /\
      is_nan n = false /\
      is_nan (boxesNeeded plan) = false /\
      is_nan (leftoverSft plan) = false /\
      is_nan (equivalentPieces plan) = false /\
      ((s <=? 0) = true -> n = 0 /\ plan = mkBoxesPlan 0 0 r 0).
Proof.
  intros requiredSft sftPerBox piecesPerBox r s p Hr Hs Hp.
  pose proof (toNumber_finite _ _ Hr) as Fr.
  pose proof (toNumber_finite _ _ Hs) as Fs.
  pose proof (toNumber_finite _ _ Hp) as Fp.
  unfold boxesNeededForSft, computeBoxesPiecesSftFromRequiredSft.
  rewrite Hr, Hs, Hp. cbn [rbind].
  destruct (s <=? 0) eqn:Hl.
  - exists 0, (mkBoxesPlan 0 0 r 0). cbn [boxesRoundedUp boxesNeeded leftoverSft equivalentPieces].
    repeat split; try reflexivity.
    apply is_nan_false. apply is_finite_Prim2SF in Fr.
    destruct Fr as [[sr ->]|(sr & mr & er & ->)]; discriminate.
  - cbv zeta. rewrite roundTo_number, roundTo4_number. cbn [rbind].
    eexists _, _. split; [reflexivity|]. split; [reflexivity|].
    cbn [boxesRoundedUp boxesNeeded leftoverSft equivalentPieces].
    pose proof (boxes_up_not_nan r s Fr Fs Hl) as Hn.
    split; [reflexivity|]. split; [apply is_nan_false, Hn|].
    split; [apply (rounded_not_nan 10000 _ (finite_or_zero _)); exact I|].
    split; [apply rounded3_not_nan|]. split; [|discriminate].
    destruct (0 <? p) eqn:Lp; [|reflexivity].
    apply is_nan_false. rewrite FloatAxioms.mul_spec.
    destruct (positive_finite' p Fp Lp) as (m & e & ->).
    apply SFmul_not_nan; [exact Hn | discriminate | apply andb_false_r | apply andb_false_r].
Qed.

Lemma box_calculators_witness :
  boxesNeededForSft (JNum 105) (JStr "10") = Ok 11 /\
  rbind (computeBoxesPiecesSftFromRequiredSft (JNum 105) (JStr "10") JNull)
        (fun plan => Ok (boxesRoundedUp plan)) = Ok 11.
Proof.
  destruct (box_calculators_agree_and_never_give_NaN (JNum 105) (JStr "10") JNull 105 10 0)
    as (n & plan & H1 & H2 & H3 & _); [vm_compute; reflexivity.. |].
  rewrite H2. cbn [rbind]. rewrite H3.
  assert (E : n = 11).
  { assert (H : Ok n = Ok 11) by (rewrite <- H1; vm_compute; reflexivity).
    injection H as ->. reflexivity. }
  rewrite H1, E. split; reflexivity.
Defined.

(* ================================================================== *)
(** ** js/sales.js: [calcLineTotal] and NaN *)
(* ================================================================== *)

Lemma is_zero_Prim2SF x : is_zero x = is_zero_sf (Prim2SF x).
Proof.
  unfold is_zero. rewrite FloatAxioms.eqb_spec.
  change (Prim2SF PrimFloat.zero) with (S754_zero false).
  destruct (Prim2SF x) as [s|s| |s m e]; try reflexivity; destruct s; reflexivity.
Qed.

Lemma is_infinity_Prim2SF x : is_infinity x = is_inf (Prim2SF x).
Proof.
  unfold is_infinity. rewrite FloatAxioms.eqb_spec, FloatAxioms.abs_spec.
  change (Prim2SF infinity) with (S754_infinity false).
  destruct (Prim2SF x) as [s|s| |s m e]; reflexivity.
Qed.

(** [Number(v) || 0] is a number: never NaN. *)
Lemma num_or_zero_Prim2SF x :
  Prim2SF (num_or_zero x)
  = if is_nan x || is_zero x then S754_zero false else Prim2SF x.
Proof. unfold num_or_zero. destruct (is_nan x || is_zero x); reflexivity. Qed.

(** X24. [calcLineTotal(qty, unitPrice)] gives NaN exactly when one of
    the two is an infinity and the other is zero or not a number (which
    [|| 0] turns into zero): for every other pair that converts to numbers,
    and so for every pair of finite numbers, the total is a number. *)
Theorem calcLineTotal_gives_NaN_only_for_zero_times_infinity :
  forall (qty unitPrice : JVal) (q up : float),
    ToNumber qty = Ok q -> ToNumber unitPrice = Ok up ->
    exists t,
      calcLineTotal qty unitPrice = Ok t /\
      is_nan t = is_infinity q && (is_nan up || is_zero up)
                 || (is_nan q || is_zero q) && is_infinity up.
Proof.
  intros qty unitPrice q up Hq Hup. unfold calcLineTotal. rewrite Hq, Hup. cbn [rbind].
  cbv zeta. eexists. split; [reflexivity|].
  fold (rounded 100 (num_or_zero q * num_or_zero up)).
  set (total := num_or_zero q * num_or_zero up).
  assert (Ht : Prim2SF total
               = SFmul prec emax (Prim2SF (num_or_zero q)) (Prim2SF (num_or_zero up))).
  { apply FloatAxioms.mul_spec. }
  clearbody total.
  rewrite !num_or_zero_Prim2SF in Ht.
  rewrite !is_infinity_Prim2SF, !is_zero_Prim2SF.
  rewrite !is_zero_Prim2SF in Ht.
  destruct (is_nan q) eqn:Nq, (is_nan up) eqn:Nup.
  - apply is_nan_Prim2SF in Nq, Nup. rewrite Nq, Nup. cbn.
    apply (rounded_number 100); [rewrite Ht; discriminate | exact I].
  - apply is_nan_Prim2SF in Nq. apply is_nan_false in Nup. rewrite Nq. cbn [orb andb is_inf] in *.
    destruct (Prim2SF up) as [s|s| |s m e] eqn:Eu; cbn [is_zero_sf is_inf] in *; try congruence.
    + apply (rounded_number 100); [rewrite Ht; discriminate | exact I].
    + assert (E : total = nan) by (apply Prim2SF_inj; rewrite Ht; reflexivity).
      rewrite E. reflexivity.
    + apply (rounded_number 100); [rewrite Ht; discriminate | exact I].
  - apply is_nan_Prim2SF in Nup. apply is_nan_false in Nq. rewrite Nup.
    cbn [orb andb is_inf] in *.
    destruct (Prim2SF q) as [s|s| |s m e] eqn:Eu; cbn [is_zero_sf is_inf andb orb] in *;
      try congruence.
    + apply (rounded_number 100); [rewrite Ht; discriminate | exact I].
    + assert (E : total = nan) by (apply Prim2SF_inj; rewrite Ht; reflexivity).
      rewrite E. reflexivity.
    + apply (rounded_number 100); [rewrite Ht; discriminate | exact I].
  - apply is_nan_false in Nq, Nup. cbn [orb] in *.
    destruct (Prim2SF q) as [s|s| |s m e] eqn:Eq1; try congruence;
      destruct (Prim2SF up) as [s'|s'| |s' m' e'] eqn:Eq2; try congruence;
      cbn [is_zero_sf is_inf andb orb] in *;
      try (apply (rounded_number 100); [rewrite Ht; discriminate | exact I]);
      try (assert (E : total = nan) by (apply Prim2SF_inj; rewrite Ht; reflexivity);
           rewrite E; reflexivity).
    apply (rounded_number 100); [|exact I]. rewrite Ht.
    apply SFmul_not_nan; try discriminate; reflexivity.
Qed.

Lemma calcLineTotal_witness :
  exists t, calcLineTotal (JStr "2.5") (JNum 19.75) = Ok t /\ is_nan t = false.
Proof.
  destruct (calcLineTotal_gives_NaN_only_for_zero_times_infinity
              (JStr "2.5") (JNum 19.75) 2.5 19.75) as (t & H1 & H2);
    [vm_compute; reflexivity | reflexivity |].
  exists t. split; [exact H1 | rewrite H2; vm_compute; reflexivity].
Defined.

(* ================================================================== *)
(** ** Switching the adapter *)
(* ================================================================== *)

Lemma set_adapter_same w : set_adapter w (adapter w) = w.
Proof. destruct w. reflexivity. Qed.

(** X25. [setAdapter] switches the adapter and nothing else; the cache
    is kept.  With a document cached, after
    [setAdapter(DummyRemoteAdapter)] every collection is still read from
    the cache, while a forced load, a save and a clear throw the
    placeholder's errors and change nothing; [setAdapter()], [''] or
    ['local'] then gives back the world as it was under the localStorage
    adapter.  Any other string is refused with an error and the adapter
    stays. *)
Theorem switching_adapter_keeps_the_cache :
  forall (w : World) (fs : Props),
    document w fs ->
    let remote := snd (setAdapter (ArgObject DummyRemoteAdapter) w) in
    fst (setAdapter (ArgObject DummyRemoteAdapter) w) = Ok tt /\
    (forall name, _getCollection name remote = (Ok (collection name fs), remote)) /\
    loadDB true remote
    = (Throw (JsError "Remote adapter not implemented. Use LocalStorage adapter or implement remote sync."),
       remote) /\
    (forall dbObj,
       saveDB dbObj remote = (Throw (JsError "Remote adapter not implemented."), remote)) /\
    clearDB remote = (Throw (JsError "Remote adapter not implemented."), remote) /\
    (forall arg, arg = ArgNone \/ arg = ArgName "" \/ arg = ArgName "local" ->
       adapter w = LocalStorageAdapter -> setAdapter arg remote = (Ok tt, w)) /\
    (forall s, s <> "" -> s <> "local" ->
       exists e, setAdapter (ArgName s) w = (Throw e, w)).
Proof.
  intros w fs Hd remote.
  assert (Hr : document remote fs) by exact Hd.
  split; [reflexivity|]. split; [intros name; apply getCollection_document, Hr|].
  split.
  { unfold loadDB. unfold bind at 1. unfold read_cache at 1. rewrite andb_false_r.
    reflexivity. }
  split; [reflexivity|]. split; [reflexivity|]. split.
  - intros arg Harg Ha.
    assert (E : setAdapter arg remote = (Ok tt, set_adapter remote LocalStorageAdapter)).
    { destruct Harg as [-> | [-> | ->]]; reflexivity. }
    rewrite E. f_equal. rewrite <- (set_adapter_same w), Ha. reflexivity.
  - intros s H1 H2. unfold setAdapter.
    assert (E1 : truthy (JStr s) = true).
    { destruct s; [congruence | reflexivity]. }
    apply String.eqb_neq in H2. rewrite E1, H2. cbn [negb orb]. eexists. reflexivity.
Qed.

Lemma switching_adapter_witness :
  let remote := snd (setAdapter (ArgObject DummyRemoteAdapter) Scenario.stocked) in
  fst (getAllProducts remote) = fst (getAllProducts Scenario.stocked) /\
  fst (saveDB (JObj []) remote) = Throw (JsError "Remote adapter not implemented.").
Proof.
  destruct (switching_adapter_keeps_the_cache Scenario.stocked
              (cached_fields Scenario.stocked)) as (_ & H1 & _ & H2 & _).
  - split; vm_compute; reflexivity.
  - split.
    + unfold getAllProducts. rewrite H1. vm_compute. reflexivity.
    + rewrite H2. reflexivity.
Defined.

(* ================================================================== *)
(** ** Sales of products that have no positive minimum *)
(* ================================================================== *)

(** [Number(product.minStock) || 0] is not above zero. *)
Definition no_minimum (p : JVal) : Prop :=
  forall m, number_field p "minStock" = Ok m -> (0 <? m) = false.

Definition no_minimums (products : JVal) : Prop :=
  match products with
  | JArr es _ => Forall no_minimum es
  | _ => True
  end.

Lemma counter_test_no_minimum cmp p k min b :
  (0 <? min) = false -> counter_test cmp p k min = Ok b -> b = false.
Proof.
  intros Hm H. unfold counter_test in H.
  apply rbind_ok in H. destruct H as (cs & _ & H).
  apply rbind_ok in H. destruct H as (x & _ & H).
  apply rbind_ok in H. destruct H as (n & _ & H).
  rewrite Hm, andb_false_r in H. injection H as <-. reflexivity.
Qed.

Lemma threshold_test_no_minimum cmp p min b :
  (0 <? min) = false -> threshold_test cmp p min = Ok b -> b = false.
Proof.
  intros Hm H. unfold threshold_test in H.
  apply rbind_ok in H. destruct H as (b1 & H1 & H).
  rewrite (counter_test_no_minimum _ _ _ _ _ Hm H1) in H.
  apply rbind_ok in H. destruct H as (b2 & H2 & H).
  rewrite (counter_test_no_minimum _ _ _ _ _ Hm H2) in H.
  exact (counter_test_no_minimum _ _ _ _ _ Hm H).
Qed.

Lemma apply_line_no_minimum counter delta product item product' :
  apply_line counter delta product item = Ok product' ->
  no_minimum product -> no_minimum product'.
Proof.
  intros Ha Hno m Hm. apply Hno. unfold number_field in *.
  rewrite <- (apply_line_get _ _ _ _ _ "minStock" Ha eq_refl). exact Hm.
Qed.

(** One line of a sale on products without a positive minimum: no save,
    no alert; the array still holds such products only. *)
Lemma sale_item_quiet (J : World -> Prop) products item :
  (forall l msg, preserves J (console_log l msg)) ->
  no_minimums products ->
  hoare J (sale_item products item)
        (fun products' w' => no_minimums products' /\ J w') J.
Proof.
  intros Hlog Hno w Hinv. unfold sale_item.
  unfold bind at 1. unfold lift at 1.
  destruct (find products (matches_item item)) as [[[i product]|]|e] eqn:Ef;
    [ | | exact Hinv].
  - destruct (truthy product); cbn [negb].
    + unfold bind at 1. unfold lift at 1.
      destruct (apply_line sale_counter PrimFloat.sub product item) as [product'|e] eqn:Ea;
        [|exact Hinv].
      unfold bind at 1. unfold lift at 1.
      destruct (number_field product' "minStock") as [min|e] eqn:Em; [|exact Hinv].
      unfold bind at 1. unfold lift at 1.
      destruct (threshold_test PrimFloat.leb product' min) as [low|e] eqn:Et; [|exact Hinv].
      assert (Hp : no_minimum product).
      { destruct products as [| | | | |es ps|]; try discriminate.
        cbn [find] in Ef. cbn [no_minimums] in Hno.
        rewrite Forall_forall in Hno. apply Hno. eapply find_from_In. exact Ef. }
      pose proof (apply_line_no_minimum _ _ _ _ _ Ea Hp) as Hp'.
      rewrite (threshold_test_no_minimum _ _ _ _ (Hp' min Em) Et).
      unfold bind, ret. split; [|exact Hinv].
      destruct products as [| | | | |es ps|]; try exact I.
      cbn [store_at no_minimums] in *. apply replace_nth_Forall; assumption.
    + specialize (Hlog Lwarn "Product not found for sale item" w Hinv).
      unfold bind, ret.
      destruct (console_log Lwarn "Product not found for sale item" w) as [[u|e] w1];
        [split; assumption | exact Hlog].
  - specialize (Hlog Lwarn "Product not found for sale item" w Hinv).
    unfold bind, ret.
    destruct (console_log Lwarn "Product not found for sale item" w) as [[u|e] w1];
      [split; assumption | exact Hlog].
Qed.

(** The reconciliation of a sale, when no product of the cached document
    has a positive minimum, keeps every document invariant that survives
    a save of the products: it never saves the alerts. *)
Lemma sale_reconciliation_quiet Phi sale w :
  save_stable Phi "products" ->
  inv Phi w ->
  (forall fs, document w fs -> no_minimums (collection "products" fs)) ->
  inv Phi (snd (_applyStockChangesFromSale sale w)).
Proof.
  intros Hst Hinv Hno. unfold _applyStockChangesFromSale.
  destruct (negb (truthy sale)); [exact Hinv|].
  unfold bind at 1. unfold lift at 1.
  destruct (get_prop sale "items") as [items|e]; [|exact Hinv].
  destruct items as [| | | | |items ps|]; try exact Hinv.
  pose proof Hinv as (fs & Hd & _).
  rewrite (bind_ok _ _ _ _ _ (getCollection_document w fs "products" Hd)).
  pose proof (hoare_foldM (fun products' w' => no_minimums products' /\ inv Phi w')
                (inv Phi) sale_item items (collection "products" fs)
                (fun a b w0 H => sale_item_quiet (inv Phi) a b
                                   (preserves_console_log Phi) (proj1 H) w0 (proj2 H))
                w (conj (Hno fs Hd) Hinv)) as Hloop.
  unfold bind at 1.
  destruct (foldM sale_item items (collection "products" fs) w) as [[products'|e] w1];
    [|exact Hloop].
  destruct Hloop as [_ Hinv1].
  pose proof (preserves_saveCollection Phi "products" products' Hst w1 Hinv1) as Hs.
  unfold bind, ret.
  destruct (_saveCollection "products" products' w1) as [[b|e] w2]; exact Hs.
Qed.

(** The cached document keeps its alerts and its products. *)
Definition keeps_alerts_and_products (A P : option JVal) (fs : Props) (ls : option Text)
  : Prop :=
  lookup "alerts" fs = A /\ lookup "products" fs = P.

Definition keeps_alerts (A : option JVal) (fs : Props) (ls : option Text) : Prop :=
  lookup "alerts" fs = A.

Lemma lookup_after_save k name c fs :
  String.eqb k name = false -> normal (JObj fs) ->
  lookup k (norm_props (update name c fs)) = lookup k fs.
Proof.
  intros Hk Hn. rewrite (lookup_norm_props_update_other _ _ _ _ Hk).
  apply normal_obj in Hn. rewrite Hn. reflexivity.
Qed.

Lemma keeps_alerts_and_products_stable A P :
  save_stable (keeps_alerts_and_products A P) "sales".
Proof.
  intros fs ls c w Hn [H1 H2]. split.
  - rewrite (lookup_after_save "alerts" "sales" c fs eq_refl Hn). exact H1.
  - rewrite (lookup_after_save "products" "sales" c fs eq_refl Hn). exact H2.
Qed.

Lemma keeps_alerts_stable A : save_stable (keeps_alerts A) "products".
Proof.
  intros fs ls c w Hn H. unfold keeps_alerts.
  rewrite (lookup_after_save "alerts" "products" c fs eq_refl Hn). exact H.
Qed.

Lemma preserves_record_sale Phi saleData :
  save_stable Phi "sales" -> preserves (inv Phi) (record_sale saleData).
Proof.
  intros Hst. unfold record_sale.
  repeat first [apply preserves_saveCollection; exact Hst | preserve_step].
Qed.

(** X26. No positive minimum, no alert.  When no product of the cached
    document has a [minStock] above zero (missing, zero, negative or not
    a number), [addSale] leaves the alerts of the document exactly as they
    were, whatever the sale holds and however far its stock goes down,
    and whether the call succeeds or throws. *)
Theorem sale_without_positive_minimum_raises_no_alert :
  forall (w : World) (fs saleData : Props),
    document w fs ->
    no_minimums (collection "products" fs) ->
    exists fs',
      document (snd (addSale saleData w)) fs' /\
      lookup "alerts" fs' = lookup "alerts" fs.
Proof.
  intros w fs saleData Hd Hno.
  set (A := lookup "alerts" fs). set (P := lookup "products" fs).
  assert (Hinv : inv (keeps_alerts_and_products A P) w).
  { exists fs. split; [exact Hd | split; reflexivity]. }
  pose proof (preserves_record_sale _ saleData (keeps_alerts_and_products_stable A P)
                w Hinv) as Hrec.
  unfold addSale. unfold bind at 1.
  destruct (record_sale saleData w) as [[sale|e] w1].
  - destruct Hrec as (fs1 & Hd1 & HA & HP).
    assert (Hinv1 : inv (keeps_alerts A) w1) by (exists fs1; split; assumption).
    assert (Hno1 : forall fs2, document w1 fs2 -> no_minimums (collection "products" fs2)).
    { intros fs2 [Hc _]. destruct Hd1 as [Hc1 _]. rewrite Hc1 in Hc.
      injection Hc as <-. unfold collection. rewrite HP. exact Hno. }
    pose proof (sale_reconciliation_quiet _ sale w1 (keeps_alerts_stable A) Hinv1 Hno1) as H.
    unfold bind, try_catch, ret.
    destruct (_applyStockChangesFromSale sale w1) as [[u|e] w2]; cbn [snd] in H.
    + destruct H as (fs' & Hd' & HA'). exists fs'. split; assumption.
    + destruct H as (fs' & Hd' & HA'). exists fs'. split; [exact Hd' | exact HA'].
  - destruct Hrec as (fs1 & Hd1 & HA & _). exists fs1. split; assumption.
Qed.

(** A test that decides [no_minimums]. *)
Definition no_minimums_test (products : JVal) : bool :=
  match products with
  | JArr es _ =>
      forallb (fun p => match number_field p "minStock" with
                        | Ok m => negb (0 <? m)
                        | Throw _ => true
                        end) es
  | _ => true
  end.

Lemma no_minimums_decide products :
  no_minimums_test products = true -> no_minimums products.
Proof.
  destruct products as [| | | | |es ps|]; try (intros _; exact I).
  cbn [no_minimums_test no_minimums]. rewrite forallb_forall, Forall_forall.
  intros H p Hp m Hm. specialize (H p Hp). rewrite Hm in H.
  destruct (0 <? m); [discriminate | reflexivity].
Qed.

Lemma cached_fields_document w fs : document w fs -> cached_fields w = fs.
Proof. intros [H _]. unfold cached_fields. rewrite H. reflexivity. Qed.

Module Quiet_example.
Import Scenario.

(** A product for which no minimum is kept, three boxes in stock. *)
Definition plain : Props :=
  [("id", JStr "p2"); ("name", JStr "Plain");
   ("currentStock", JObj [("boxes", JNum 3); ("pieces", JNum 0); ("sft", JNum 0)])].

Definition shelf : World := exec (addProduct plain) started.

End Quiet_example.

Lemma sale_without_minimum_witness :
  lookup "alerts"
    (cached_fields (snd (addSale (Scenario.one_line "p2" "Box" 9) Quiet_example.shelf)))
  = lookup "alerts" (cached_fields Quiet_example.shelf).
Proof.
  destruct (sale_without_positive_minimum_raises_no_alert Quiet_example.shelf
              (cached_fields Quiet_example.shelf) (Scenario.one_line "p2" "Box" 9))
    as (fs' & Hd' & HA).
  - split; vm_compute; reflexivity.
  - apply no_minimums_decide. vm_compute. reflexivity.
  - exact (eq_trans (f_equal (lookup "alerts") (cached_fields_document _ _ Hd')) HA).
Defined.

(* ================================================================== *)
(** ** js/utils.js: [normalizeUnitName] and the case of letters *)
(* ================================================================== *)

Local Open Scope Z_scope.

(** Lower-casing leaves a character as it is or moves it within the
    letters, away from every white space character. *)
Lemma lower_ascii_code c :
  code (lower_ascii c) = code c \/
  (65 <= code c <= 122 /\ 65 <= code (lower_ascii c) <= 122).
Proof.
  destruct c as [[] [] [] [] [] [] [] []]; vm_compute;
    first [left; reflexivity | right; repeat split; discriminate].
Qed.

Lemma lower_ascii_idem c : lower_ascii (lower_ascii c) = lower_ascii c.
Proof. destruct c as [[] [] [] [] [] [] [] []]; reflexivity. Qed.

Lemma toLowerCase_idem s : toLowerCase (toLowerCase s) = toLowerCase s.
Proof.
  induction s as [|c r IH]; [reflexivity|].
  cbn [toLowerCase]. rewrite lower_ascii_idem, IH. reflexivity.
Qed.

Lemma toLowerCase_empty s : String.eqb (toLowerCase s) "" = String.eqb s "".
Proof. destruct s; reflexivity. Qed.

Lemma toLowerCase_length s : String.length (toLowerCase s) = String.length s.
Proof. induction s as [|c r IH]; [reflexivity|]. cbn. rewrite IH. reflexivity. Qed.

Ltac letter_tests x :=
  repeat match goal with
         | |- context [(x =? ?k)] => destruct (Z.eqb_spec x k); [lia|]
         | |- context [(x <=? ?k)] => destruct (Z.leb_spec x k); try lia
         | |- context [(?k <=? x)] => destruct (Z.leb_spec k x); try lia
         end.

(** No white space sequence has a letter in it. *)
Lemma ws_prefix_lower s : ws_prefix (toLowerCase s) = ws_prefix s.
Proof.
  destruct s as [|a r]; [reflexivity|].
  cbn [toLowerCase]. unfold ws_prefix. cbv zeta.
  destruct (lower_ascii_code a) as [Ea | [Ha Ha']].
  - rewrite Ea.
    destruct ((9 <=? code a) && (code a <=? 13) || (code a =? 32)); [reflexivity|].
    destruct r as [|b r]; [reflexivity|]. cbn [toLowerCase].
    destruct (lower_ascii_code b) as [Eb | [Hb Hb']].
    + rewrite Eb.
      destruct ((code a =? 194) && (code b =? 160)); [reflexivity|].
      destruct r as [|c r]; [reflexivity|]. cbn [toLowerCase].
      destruct (lower_ascii_code c) as [Ec | [Hc Hc']].
      * rewrite Ec. reflexivity.
      * generalize dependent (code (lower_ascii c)). generalize dependent (code c).
        intros x Hx y Hy. letter_tests x; letter_tests y;
          cbn [andb orb]; rewrite ?andb_false_r; reflexivity.
    + generalize dependent (code (lower_ascii b)). generalize dependent (code b).
      intros x Hx y Hy. letter_tests x; letter_tests y;
        rewrite ?andb_false_r; cbn [andb orb];
        (destruct r as [|c r]; [reflexivity|]); cbn [toLowerCase];
        rewrite ?andb_false_r; reflexivity.
  - generalize dependent (code (lower_ascii a)). generalize dependent (code a).
    intros x Hx y Hy. letter_tests x; letter_tests y; cbn [andb orb];
      (destruct r as [|b r]; [reflexivity|]); cbn [toLowerCase];
      destruct r as [|c r]; reflexivity.
Qed.

Lemma drop_lower n s : drop n (toLowerCase s) = toLowerCase (drop n s).
Proof.
  revert s. induction n as [|n IH]; intros s; [destruct s; reflexivity|].
  destruct s as [|c r]; [reflexivity|]. cbn [toLowerCase drop]. apply IH.
Qed.

Lemma trimStart_fuel_lower f s :
  trimStart_fuel f (toLowerCase s) = toLowerCase (trimStart_fuel f s).
Proof.
  revert s. induction f as [|f IH]; intros s; [reflexivity|].
  cbn [trimStart_fuel]. rewrite ws_prefix_lower.
  destruct (ws_prefix s); [reflexivity|]. rewrite drop_lower. apply IH.
Qed.

Lemma trimStart_lower s : trimStart (toLowerCase s) = toLowerCase (trimStart s).
Proof. unfold trimStart. rewrite toLowerCase_length. apply trimStart_fuel_lower. Qed.

Lemma all_ws_lower s : all_ws (toLowerCase s) = all_ws s.
Proof. unfold all_ws. rewrite trimStart_lower. apply toLowerCase_empty. Qed.

Lemma trimEnd_lower s : trimEnd (toLowerCase s) = toLowerCase (trimEnd s).
Proof.
  induction s as [|c r IH]; [reflexivity|].
  cbn [toLowerCase trimEnd].
  change (String (lower_ascii c) (toLowerCase r)) with (toLowerCase (String c r)).
  rewrite all_ws_lower. destruct (all_ws (String c r)); [reflexivity|].
  cbn [toLowerCase]. rewrite IH. reflexivity.
Qed.

Lemma trim_lower s : trim (toLowerCase s) = toLowerCase (trim s).
Proof. unfold trim. rewrite trimStart_lower. apply trimEnd_lower. Qed.

Local Close Scope Z_scope.

Lemma normalizeUnitName_lower s :
  Utils.normalizeUnitName (Some (toLowerCase s)) = Utils.normalizeUnitName (Some s).
Proof.
  unfold Utils.normalizeUnitName. cbn [truthy].
  rewrite toLowerCase_empty, trim_lower, toLowerCase_idem. reflexivity.
Qed.

(** X27. [normalizeUnitName] ignores the case of letters: two unit
    names that lower-case to the same string (so, that differ only in the
    case of their ASCII letters) normalise to the same name, and
    [convertUnits] gives the same result for the one as for the other,
    as the source unit and as the target unit. *)
Theorem normalizeUnitName_ignores_case :
  forall s1 s2 : string,
    toLowerCase s1 = toLowerCase s2 ->
    Utils.normalizeUnitName (Some s1) = Utils.normalizeUnitName (Some s2) /\
    (forall quantity toUnit piecesPerBox sftPerBox,
       Utils.convertUnits quantity (Some s1) toUnit piecesPerBox sftPerBox
       = Utils.convertUnits quantity (Some s2) toUnit piecesPerBox sftPerBox) /\
    (forall quantity fromUnit piecesPerBox sftPerBox,
       Utils.convertUnits quantity fromUnit (Some s1) piecesPerBox sftPerBox
       = Utils.convertUnits quantity fromUnit (Some s2) piecesPerBox sftPerBox).
Proof.
  intros s1 s2 H.
  assert (E : Utils.normalizeUnitName (Some s1) = Utils.normalizeUnitName (Some s2)).
  { rewrite <- (normalizeUnitName_lower s1), <- (normalizeUnitName_lower s2), H.
    reflexivity. }
  split; [exact E|]. split; intros; unfold Utils.convertUnits; rewrite E; reflexivity.
Qed.

Lemma normalizeUnitName_case_witness :
  Utils.normalizeUnitName (Some "  SqFt ") = "sft" /\
  Utils.convertUnits (JNum 2) (Some "BOXES") (Some "  SqFt ") (JNum 4) (JNum 10) = Ok 20.
Proof.
  destruct (normalizeUnitName_ignores_case "  SqFt " "  sqft " eq_refl) as (H1 & _ & H2).
  split.
  - rewrite H1. reflexivity.
  - rewrite H2. vm_compute. reflexivity.
Defined.
